(** * Photo repository (src/lib/photos.ts): a shallow embedding

    The data-access layer of the photo journal is embedded here together
    with a reference model of the remote data store it talks to (the
    [photos] table of supabase/migrations/20260220_init.sql and the
    [photos] storage bucket).

    - JavaScript strings are sequences of UTF-16 code units: [list N].
    - The repository functions are programs over the requests they await
      ([Prog]); [run] executes such a program against the reference data
      store, with the nondeterminism of the outside world (clock values,
      random tokens, server-side identifiers, failing calls) supplied by a
      schedule. *)

From Stdlib Require Import String Ascii.
From stdpp Require Import gmap list sorting.

Local Open Scope N_scope.

(** ** JavaScript strings *)

Abbreviation jsstring := (list N).

(** A string literal of the source, as code units (the literals of the
    source are all ASCII). *)
Definition js (s : string) : jsstring :=
  map N_of_ascii (list_ascii_of_string s).

(** ECMAScript WhiteSpace and LineTerminator code points: what
    [String.prototype.trim] strips. *)
Definition isWhiteSpace (c : N) : bool :=
  (9 <=? c) && (c <=? 13)
  || (c =? 32) || (c =? 160) || (c =? 5760)
  || (8192 <=? c) && (c <=? 8202)
  || (c =? 8232) || (c =? 8233) || (c =? 8239) || (c =? 8287)
  || (c =? 12288) || (c =? 65279).

Fixpoint trimStart (s : jsstring) : jsstring :=
  match s with
  | [] => []
  | c :: s' => if isWhiteSpace c then trimStart s' else s
  end.

Definition trimEnd (s : jsstring) : jsstring := rev (trimStart (rev s)).

(** [String.prototype.trim] *)
Definition trim (s : jsstring) : jsstring := trimEnd (trimStart s).

(** JavaScript truthiness of a string: [Boolean(s)], also the test of
    [s ? a : b]. *)
Definition truthy (s : jsstring) : bool :=
  match s with [] => false | _ :: _ => true end.

(** ** The runtime the module is linked against

    Functions of the JavaScript runtime and of the Supabase client whose
    tables are not part of the repository are taken as parameters. *)
Class Runtime := {
  (** [String.prototype.toLowerCase] (Unicode case mapping) *)
  toLowerCase : jsstring -> jsstring;
  (** the day a [date] literal denotes for the server *)
  dateValue : jsstring -> Z;
  (** the instant a [timestamptz] literal denotes for the server *)
  timestampValue : jsstring -> Z;
  (** [storage.from(bucket).getPublicUrl(path).data.publicUrl] *)
  getPublicUrl : jsstring -> jsstring -> jsstring;
  (** [import.meta.env.VITE_SUPABASE_URL] and [..._ANON_KEY] *)
  supabaseUrl : option jsstring;
  supabaseAnonKey : option jsstring
}.

(** ** src/types/photo.ts *)

Module PhotoMetadataInput.
Record t := mk {
  title : jsstring;
  caption : jsstring;
  tags : list jsstring;
  shot_date : jsstring
}.
End PhotoMetadataInput.

(** The object literal [cleanMetadata] returns. *)
Module Payload.
Record t := mk {
  title : jsstring;
  caption : option jsstring;
  tags : list jsstring;
  shot_date : jsstring
}.
End Payload.

(** ** src/lib/photos.ts: the pure helpers *)

Definition cleanMetadata (metadata : PhotoMetadataInput.t) : Payload.t :=
  {| Payload.title := trim (PhotoMetadataInput.title metadata);
     Payload.caption :=
       if truthy (trim (PhotoMetadataInput.caption metadata))
       then Some (trim (PhotoMetadataInput.caption metadata))
       else None;
     Payload.tags :=
       List.filter truthy
         (map (fun tag => trim tag) (PhotoMetadataInput.tags metadata));
     Payload.shot_date := PhotoMetadataInput.shot_date metadata |}.

(** The negated character class [[^a-z0-9.\-_]] of [sanitizeFilename];
    [allowed c] holds for the code units the class excludes. *)
Definition allowed (c : N) : bool :=
  (97 <=? c) && (c <=? 122)
  || (48 <=? c) && (c <=? 57)
  || (c =? 46) || (c =? 45) || (c =? 95).

Definition hyphen : N := 45.

(** [s.replace(/[^a-z0-9.\-_]+/g, '-')]: a left-to-right scan; the greedy
    [+] takes a whole run of code units outside the class as one match.
    [in_run] tells that the previous code unit belonged to a match. *)
Fixpoint replaceRuns (in_run : bool) (s : jsstring) : jsstring :=
  match s with
  | [] => []
  | c :: s' =>
      if allowed c then c :: replaceRuns false s'
      else if in_run then replaceRuns true s'
      else hyphen :: replaceRuns true s'
  end.

Definition sanitizeFilename `{Runtime} (filename : jsstring) : jsstring :=
  replaceRuns false (toLowerCase filename).

(** ASCII case mapping: what [toLowerCase] does on the code units below
    128. *)
Definition asciiLower (c : N) : N :=
  if (65 <=? c) && (c <=? 90) then c + 32 else c.

(** Value of the decimal digits of a string, other code units skipped:
    on ISO 8601 dates ([2026-02-20]) it grows with the date. *)
Definition digitsValue (s : jsstring) : Z :=
  fold_left (fun acc c =>
    if (48 <=? c) && (c <=? 57) then (acc * 10 + Z.of_N (c - 48))%Z else acc)
    s 0%Z.

(** A runtime for running the model on ASCII data. *)
Definition asciiRuntime : Runtime :=
  {| toLowerCase := map asciiLower;
     dateValue := digitsValue;
     timestampValue := digitsValue;
     getPublicUrl := fun bucket path =>
       js "https://example.supabase.co/storage/v1/object/public/"
          ++ bucket ++ js "/" ++ path;
     supabaseUrl := Some (js "https://example.supabase.co");
     supabaseAnonKey := Some (js "anon-key") |}.

(** ** Values produced by the browser *)

(** Decimal digits of a numeral. *)
Fixpoint uintUnits (d : Decimal.uint) : jsstring :=
  match d with
  | Decimal.Nil => []
  | Decimal.D0 r => 48 :: uintUnits r
  | Decimal.D1 r => 49 :: uintUnits r
  | Decimal.D2 r => 50 :: uintUnits r
  | Decimal.D3 r => 51 :: uintUnits r
  | Decimal.D4 r => 52 :: uintUnits r
  | Decimal.D5 r => 53 :: uintUnits r
  | Decimal.D6 r => 54 :: uintUnits r
  | Decimal.D7 r => 55 :: uintUnits r
  | Decimal.D8 r => 56 :: uintUnits r
  | Decimal.D9 r => 57 :: uintUnits r
  end.

(** The largest magnitude of an ECMAScript time value; [Date.now()]
    returns an integer within it. *)
Definition maxTimeValue : Z := 8640000000000000.

(** [`${n}`] for an integral Number [n] of magnitude below 10^21 (beyond
    that the conversion switches to exponent notation). *)
Definition numberToString (n : Z) : jsstring :=
  (if (n <? 0)%Z then [hyphen] else []) ++ uintUnits (N.to_uint (Z.abs_N n)).

Definition hexDigit (d : N) : N := if d <? 10 then 48 + d else 87 + d.

(** The [k] low hexadecimal digits of [u], most significant first. *)
Fixpoint hexDigits (k : nat) (u : N) : jsstring :=
  match k with
  | O => []
  | S k' => hexDigits k' (u / 16) ++ [hexDigit (u mod 16)]
  end.

(** The string [crypto.randomUUID()] returns for the 128 bits [u]:
    lower-case hexadecimal in groups of 8-4-4-4-12. *)
Definition uuidString (u : N) : jsstring :=
  let d := hexDigits 32 u in
  take 8 d ++ [hyphen] ++ take 4 (drop 8 d) ++ [hyphen]
    ++ take 4 (drop 12 d) ++ [hyphen] ++ take 4 (drop 16 d) ++ [hyphen]
    ++ drop 20 d.

(** [/not found/i.test(s)]: without the [u] flag, case-insensitive
    matching never lets a code unit of 128 or above match an ASCII
    letter, so a code unit matches a lower-case pattern letter exactly
    when its ASCII lower-casing does. *)
Fixpoint matchesAt (pat s : jsstring) : bool :=
  match pat, s with
  | [], _ => true
  | _ :: _, [] => false
  | p :: pat', c :: s' => (asciiLower c =? p) && matchesAt pat' s'
  end.

Fixpoint testIgnoreCase (pat s : jsstring) : bool :=
  matchesAt pat s
  || match s with
     | [] => false
     | _ :: s' => testIgnoreCase pat s'
     end.

Definition notFoundTest (message : jsstring) : bool :=
  testIgnoreCase (js "not found") message.

(** ** Rows of the [photos] table and the entity handed to the pages *)

Module PhotoRow.
Record t := mk {
  id : jsstring;
  title : jsstring;
  caption : option jsstring;
  tags : option (list jsstring);
  shot_date : jsstring;
  image_path : jsstring;
  created_at : jsstring;
  updated_at : jsstring;
  deleted_at : option jsstring
}.
End PhotoRow.

Module Photo.
Record t := mk {
  id : jsstring;
  title : jsstring;
  caption : option jsstring;
  tags : list jsstring;
  shot_date : jsstring;
  image_path : jsstring;
  image_url : jsstring;
  created_at : jsstring;
  updated_at : jsstring;
  deleted_at : option jsstring
}.
End Photo.

Inductive Column :=
| col_id | col_title | col_caption | col_tags | col_shot_date
| col_image_path | col_created_at | col_updated_at | col_deleted_at.

#[global] Instance Column_eq_dec : EqDecision Column.
Proof. solve_decision. Defined.

Definition PHOTO_COLUMNS : list Column :=
  [col_id; col_title; col_caption; col_tags; col_shot_date;
   col_image_path; col_created_at; col_updated_at; col_deleted_at].

Definition PHOTOS_BUCKET : jsstring := js "photos".

(** JSON values of a request body. *)
Inductive Value :=
| VNull
| VText (s : jsstring)
| VArray (l : list jsstring).

Definition optText (o : option jsstring) : Value :=
  match o with Some s => VText s | None => VNull end.

Definition getColumn (c : Column) (r : PhotoRow.t) : Value :=
  match c with
  | col_id => VText (PhotoRow.id r)
  | col_title => VText (PhotoRow.title r)
  | col_caption => optText (PhotoRow.caption r)
  | col_tags =>
      match PhotoRow.tags r with Some l => VArray l | None => VNull end
  | col_shot_date => VText (PhotoRow.shot_date r)
  | col_image_path => VText (PhotoRow.image_path r)
  | col_created_at => VText (PhotoRow.created_at r)
  | col_updated_at => VText (PhotoRow.updated_at r)
  | col_deleted_at => optText (PhotoRow.deleted_at r)
  end.

(** Assignment of one column, as the table definition admits it: only
    [caption] and [deleted_at] are nullable, [tags] is an array. [None]
    is a rejected assignment. The text of a [uuid], [date] or
    [timestamptz] column is kept as it is sent: the column holds a
    literal of its type, in the form the server returns for [id] and
    [shot_date]. *)
Definition setColumn (c : Column) (v : Value) (r : PhotoRow.t)
  : option PhotoRow.t :=
  let '(PhotoRow.mk i ti ca tg sd ip cr up de) := r in
  match c, v with
  | col_id, VText s => Some (PhotoRow.mk s ti ca tg sd ip cr up de)
  | col_title, VText s => Some (PhotoRow.mk i s ca tg sd ip cr up de)
  | col_caption, VText s => Some (PhotoRow.mk i ti (Some s) tg sd ip cr up de)
  | col_caption, VNull => Some (PhotoRow.mk i ti None tg sd ip cr up de)
  | col_tags, VArray l => Some (PhotoRow.mk i ti ca (Some l) sd ip cr up de)
  | col_shot_date, VText s => Some (PhotoRow.mk i ti ca tg s ip cr up de)
  | col_image_path, VText s => Some (PhotoRow.mk i ti ca tg sd s cr up de)
  | col_created_at, VText s => Some (PhotoRow.mk i ti ca tg sd ip s up de)
  | col_updated_at, VText s => Some (PhotoRow.mk i ti ca tg sd ip cr s de)
  | col_deleted_at, VText s => Some (PhotoRow.mk i ti ca tg sd ip cr up (Some s))
  | col_deleted_at, VNull => Some (PhotoRow.mk i ti ca tg sd ip cr up None)
  | _, _ => None
  end.

(** A request body: the own properties of the object literal, in order. *)
Abbreviation Body := (list (Column * Value)).

Fixpoint applyBody (b : Body) (r : PhotoRow.t) : option PhotoRow.t :=
  match b with
  | [] => Some r
  | (c, v) :: b' =>
      match setColumn c v r with
      | Some r' => applyBody b' r'
      | None => None
      end
  end.

(** *** Query builder of the client *)

Inductive Filter :=
| FilterIsNull (c : Column)        (* .is(c, null) *)
| FilterNotIsNull (c : Column)     (* .not(c, 'is', null) *)
| FilterEq (c : Column) (v : jsstring).  (* .eq(c, v) *)

(** The columns of a temporal type, whose order is that of the instants
    they denote. *)
Inductive OrderColumn := ord_shot_date | ord_created_at | ord_updated_at.

Record SelectQuery := mkSelect {
  sel_columns : list Column;
  sel_filters : list Filter;
  sel_order : list (OrderColumn * bool);   (* column, ascending *)
  sel_range : option (Z * Z)
}.

Definition select (columns : list Column) : SelectQuery :=
  mkSelect columns [] [] None.

Definition is_null (c : Column) (q : SelectQuery) : SelectQuery :=
  mkSelect (sel_columns q) (sel_filters q ++ [FilterIsNull c])
           (sel_order q) (sel_range q).

Definition not_is_null (c : Column) (q : SelectQuery) : SelectQuery :=
  mkSelect (sel_columns q) (sel_filters q ++ [FilterNotIsNull c])
           (sel_order q) (sel_range q).

(** Each further [.order] call adds a less significant sort key. *)
Definition order (c : OrderColumn) (ascending : bool) (q : SelectQuery)
  : SelectQuery :=
  mkSelect (sel_columns q) (sel_filters q)
           (sel_order q ++ [(c, ascending)]) (sel_range q).

Definition range (from to : Z) (q : SelectQuery) : SelectQuery :=
  mkSelect (sel_columns q) (sel_filters q) (sel_order q) (Some (from, to)).

Notation "q '|>' f" := (f q) (at level 45, left associativity, only parsing).

(** *** Requests and programs

    Every call of the client resolves to a [{ data, error }] object: a
    failure is reported in [error], the promise is not rejected. *)

Record ApiError := mkError { message : jsstring }.

(** The [{ data, error }] object a call resolves to. *)
Inductive Response (T : Type) :=
| Ok (data : T)
| Err (error : ApiError).
Arguments Ok {T} data.
Arguments Err {T} error.

Record File := mkFile {
  file_name : jsstring;
  file_type : jsstring;
  file_bytes : list N
}.

Record UploadOptions := mkOptions {
  upsert : bool;
  contentType : jsstring;
  cacheControl : jsstring
}.

Inductive Request : Type -> Type :=
| DateNow : Request Z                         (* Date.now() *)
| RandomUUID : Request N                      (* crypto.randomUUID() *)
| NowISOString : Request jsstring             (* new Date().toISOString() *)
| StorageUpload (bucket path : jsstring) (file : File) (options : UploadOptions)
    : Request (Response unit)
| StorageRemove (bucket : jsstring) (paths : list jsstring)
    : Request (Response unit)
| RowsSelect (q : SelectQuery) : Request (Response (list PhotoRow.t))
  (* .insert(body).select(columns).single() *)
| RowsInsertSingle (body : Body) (columns : list Column)
    : Request (Response PhotoRow.t)
  (* .update(body).eq(..).select(columns).single() *)
| RowsUpdateSingle (body : Body) (filters : list Filter) (columns : list Column)
    : Request (Response PhotoRow.t)
  (* .update(body).eq(..) *)
| RowsUpdate (body : Body) (filters : list Filter) : Request (Response unit)
  (* .delete().eq(..) *)
| RowsDelete (filters : list Filter) : Request (Response unit).

(** An asynchronous function body: it returns, throws [new Error(message)],
    or awaits a request and goes on with the value it resolves to. *)
Inductive Prog (A : Type) : Type :=
| Ret (a : A)
| Throw (msg : jsstring)
| Await {R : Type} (req : Request R) (k : R -> Prog A).
Arguments Ret {A} a.
Arguments Throw {A} msg.
Arguments Await {A R} req k.

Fixpoint bind {A B} (p : Prog A) (f : A -> Prog B) : Prog B :=
  match p with
  | Ret a => f a
  | Throw m => Throw m
  | Await req k => Await req (fun r => bind (k r) f)
  end.

Notation "x <- p ;; q" := (bind p (fun x => q))
  (at level 100, p at next level, right associativity).
Notation "p ;;; q" := (bind p (fun _ => q))
  (at level 100, right associativity).

Definition await {R} (req : Request R) : Prog R := Await req Ret.

(** [try { p } catch (error) { h (error.message) }] *)
Fixpoint catch {A} (p : Prog A) (h : jsstring -> Prog A) : Prog A :=
  match p with
  | Ret a => Ret a
  | Throw m => h m
  | Await req k => Await req (fun r => catch (k r) h)
  end.

(** [rows.map(f)] for a callback that may throw. *)
Fixpoint mapProg {A B} (f : A -> Prog B) (l : list A) : Prog (list B) :=
  match l with
  | [] => Ret []
  | a :: l' => b <- f a ;; bs <- mapProg f l' ;; Ret (b :: bs)
  end.

(** ** The remote data store

    One table and one bucket of objects, as the migration
    supabase/migrations/20260220_init.sql sets them up: [id] is the
    primary key and has a default, [image_path] is [unique], [tags],
    [created_at] and [updated_at] have defaults, [caption] and
    [deleted_at] are nullable, and a trigger refreshes [updated_at] on
    every row update. The row-level policies are not evaluated: a call
    that a policy rejects is one of the calls that fail.

    The columns [id] ([uuid]), [shot_date] ([date]) and [created_at],
    [updated_at], [deleted_at] ([timestamptz]) are kept as texts, held
    and compared as they are sent. That is what the table does with a
    [uuid] and a [date] written in the form the server itself returns
    ([uuidLiteral], [dateLiteral]); a literal that the type of its column
    rejects makes the call one of the calls that fail, and a
    [timestamptz] comes back in the server's own text for the same
    instant, so that what is read back of one is its [timestampValue]. *)

Record World := mkWorld {
  objects : gmap jsstring File;
  photos : list PhotoRow.t
}.

(** What the outside world decides for one request: whether the call
    fails before reaching the store (transport failure, rejection by a
    policy or of a literal by the type of its column), the values the
    browser reads, and the values the server generates
    ([gen_random_uuid()], [now()]). *)
Record Choice := mkChoice {
  fault : option ApiError;
  clock : Z;
  token : N;
  iso : jsstring;
  server_id : jsstring;
  server_now : jsstring
}.

Section DataStore.
Context `{Runtime}.

Definition isNull (v : Value) : bool :=
  match v with VNull => true | _ => false end.

(** [.eq(c, v)] compares texts: for [id], that is the comparison of the
    table when [v] is a [uuidLiteral]. *)
Definition matchFilter (f : Filter) (r : PhotoRow.t) : bool :=
  match f with
  | FilterIsNull c => isNull (getColumn c r)
  | FilterNotIsNull c => negb (isNull (getColumn c r))
  | FilterEq c v =>
      match getColumn c r with
      | VText s => bool_decide (s = v)
      | _ => false
      end
  end.

Definition matchAll (fs : list Filter) (r : PhotoRow.t) : bool :=
  forallb (fun f => matchFilter f r) fs.

Definition orderKey (c : OrderColumn) (r : PhotoRow.t) : Z :=
  match c with
  | ord_shot_date => dateValue (PhotoRow.shot_date r)
  | ord_created_at => timestampValue (PhotoRow.created_at r)
  | ord_updated_at => timestampValue (PhotoRow.updated_at r)
  end.

(** [ORDER BY] with several keys: the first key that tells two rows apart
    decides. *)
Fixpoint compareBy (o : list (OrderColumn * bool)) (r1 r2 : PhotoRow.t)
  : comparison :=
  match o with
  | [] => Eq
  | (c, ascending) :: o' =>
      match (if ascending then orderKey c r1 ?= orderKey c r2
             else orderKey c r2 ?= orderKey c r1)%Z with
      | Eq => compareBy o' r1 r2
      | cmp => cmp
      end
  end.

Definition precedes (o : list (OrderColumn * bool)) (r1 r2 : PhotoRow.t)
  : Prop :=
  compareBy o r1 r2 <> Gt.

#[global] Instance precedes_dec o r1 r2 : Decision (precedes o r1 r2).
Proof. unfold precedes. destruct (compareBy o r1 r2); [left | left | right]; congruence. Defined.

Definition rangeError : ApiError :=
  mkError (js "Requested range not satisfiable").

(** [.range(from, to)]: offset [from], limit [to - from + 1]. *)
Definition sliceRange (rng : option (Z * Z)) (l : list PhotoRow.t)
  : Response (list PhotoRow.t) :=
  match rng with
  | None => Ok l
  | Some (from, to) =>
      if ((from <? 0) || (to + 1 <? from))%Z then Err rangeError
      else Ok (take (Z.to_nat (to - from + 1)) (drop (Z.to_nat from) l))
  end.

(** [SELECT columns FROM photos WHERE filters ORDER BY order] cut to the
    range. Rows are returned whole: the repository asks for every column
    ([PHOTO_COLUMNS]). *)
Definition execSelect (q : SelectQuery) (rows : list PhotoRow.t)
  : Response (list PhotoRow.t) :=
  sliceRange (sel_range q)
    (merge_sort (precedes (sel_order q))
       (List.filter (matchAll (sel_filters q)) rows)).

(** The primary key [id] and the [unique] constraint on [image_path]. *)
Definition uniqueKeys (rows : list PhotoRow.t) : bool :=
  bool_decide (NoDup (map PhotoRow.id rows))
  && bool_decide (NoDup (map PhotoRow.image_path rows)).

Definition constraintError : ApiError :=
  mkError (js "duplicate key value violates unique constraint").
Definition invalidError : ApiError :=
  mkError (js "invalid input value").
Definition singleError : ApiError :=
  mkError (js "JSON object requested, multiple (or no) rows returned").
Definition existsError : ApiError :=
  mkError (js "The resource already exists").
Definition bucketError : ApiError :=
  mkError (js "Bucket not found").

(** The text assigned to column [c] by a body, if any. *)
Fixpoint bodyText (c : Column) (b : Body) : option jsstring :=
  match b with
  | [] => None
  | (c', v) :: b' =>
      match bodyText c b' with
      | Some s => Some s
      | None =>
          if bool_decide (c' = c)
          then match v with VText s => Some s | _ => None end
          else None
      end
  end.

(** [INSERT]: the columns without default ([title], [shot_date],
    [image_path]) must be given; the others start from their defaults. *)
Definition insertRow (ch : Choice) (b : Body) (rows : list PhotoRow.t)
  : Response PhotoRow.t * list PhotoRow.t :=
  match bodyText col_title b, bodyText col_shot_date b,
        bodyText col_image_path b with
  | Some t, Some sd, Some ip =>
      let fresh :=
        PhotoRow.mk (server_id ch) t None (Some []) sd ip
                    (server_now ch) (server_now ch) None in
      match applyBody b fresh with
      | Some r =>
          if uniqueKeys (rows ++ [r]) then (Ok r, rows ++ [r])
          else (Err constraintError, rows)
      | None => (Err invalidError, rows)
      end
  | _, _, _ => (Err invalidError, rows)
  end.

(** The trigger [set_photos_updated_at]. *)
Definition touch (now : jsstring) (r : PhotoRow.t) : PhotoRow.t :=
  let '(PhotoRow.mk i ti ca tg sd ip cr _ de) := r in
  PhotoRow.mk i ti ca tg sd ip cr now de.

Definition updateOne (now : jsstring) (b : Body) (r : PhotoRow.t)
  : option PhotoRow.t :=
  match applyBody b r with
  | Some r' => Some (touch now r')
  | None => None
  end.

(** [UPDATE ... WHERE filters RETURNING *]: the new table and the updated
    rows; [None] when an assignment is rejected or a constraint broken. *)
Definition updateRows (now : jsstring) (b : Body) (fs : list Filter)
    (rows : list PhotoRow.t) : option (list PhotoRow.t * list PhotoRow.t) :=
  match mapM (fun r => if matchAll fs r then updateOne now b r else Some r) rows,
        mapM (updateOne now b) (List.filter (matchAll fs) rows) with
  | Some rows', Some changed =>
      if uniqueKeys rows' then Some (rows', changed) else None
  | _, _ => None
  end.

Definition deleteRows (fs : list Filter) (rows : list PhotoRow.t)
  : list PhotoRow.t :=
  List.filter (fun r => negb (matchAll fs r)) rows.

Definition setPhotos (w : World) (rows : list PhotoRow.t) : World :=
  mkWorld (objects w) rows.

Definition setObjects (w : World) (o : gmap jsstring File) : World :=
  mkWorld o (photos w).

(** A call that can fail before it reaches the store. *)
Definition reach {T} (ch : Choice) (w : World)
    (served : Response T * World) : Response T * World :=
  match fault ch with
  | Some e => (Err e, w)
  | None => served
  end.

Definition handle (ch : Choice) {R} (req : Request R) (w : World)
  : R * World :=
  match req in Request R return R * World with
  | DateNow => (clock ch, w)
  | RandomUUID => (token ch, w)
  | NowISOString => (iso ch, w)
  | StorageUpload bucket path file options =>
      reach ch w
        (if negb (bool_decide (bucket = PHOTOS_BUCKET)) then (Err bucketError, w)
         else match objects w !! path with
              | Some _ =>
                  if upsert options
                  then (Ok tt, setObjects w (<[path := file]> (objects w)))
                  else (Err existsError, w)
              | None => (Ok tt, setObjects w (<[path := file]> (objects w)))
              end)
  | StorageRemove bucket paths =>
      reach ch w
        (if negb (bool_decide (bucket = PHOTOS_BUCKET)) then (Err bucketError, w)
         else (Ok tt, setObjects w (foldr delete (objects w) paths)))
  | RowsSelect q => reach ch w (execSelect q (photos w), w)
  | RowsInsertSingle b _ =>
      reach ch w
        (let '(r, rows) := insertRow ch b (photos w) in (r, setPhotos w rows))
  | RowsUpdateSingle b fs _ =>
      reach ch w
        (match updateRows (server_now ch) b fs (photos w) with
         | Some (rows, [r]) => (Ok r, setPhotos w rows)
         | Some (_, _) => (Err singleError, w)
         | None => (Err invalidError, w)
         end)
  | RowsUpdate b fs =>
      reach ch w
        (match updateRows (server_now ch) b fs (photos w) with
         | Some (rows, _) => (Ok tt, setPhotos w rows)
         | None => (Err invalidError, w)
         end)
  | RowsDelete fs =>
      reach ch w (Ok tt, setPhotos w (deleteRows fs (photos w)))
  end.

End DataStore.

(** *** Running a program *)

Inductive Outcome (A : Type) :=
| Returned (a : A)
| Thrown (msg : jsstring).
Arguments Returned {A} a.
Arguments Thrown {A} msg.

Definition Event : Type := { R : Type & Request R }.

Definition event {R} (req : Request R) : Event := existT R req.

Record Result (A : Type) := mkResult {
  outcome : Outcome A;
  final : World;
  calls : list Event
}.
Arguments mkResult {A} outcome final calls.
Arguments outcome {A} r.
Arguments final {A} r.
Arguments calls {A} r.

(** [run s n w p]: the program [p] started in world [w]; its requests are
    the [n]-th, [n+1]-th, ... of the schedule [s]. *)
Fixpoint run `{Runtime} {A} (s : nat -> Choice) (n : nat) (w : World)
    (p : Prog A) : Result A :=
  match p with
  | Ret a => mkResult (Returned a) w []
  | Throw m => mkResult (Thrown m) w []
  | Await req k =>
      let '(r, w') := handle (s n) req w in
      let res := run s (S n) w' (k r) in
      mkResult (outcome res) (final res) (event req :: calls res)
  end.

(** ** src/lib/supabase.ts *)

Section Repository.
Context `{Runtime}.

Definition truthyEnv (v : option jsstring) : bool :=
  match v with Some s => truthy s | None => false end.

Definition isSupabaseConfigured : bool :=
  truthyEnv supabaseUrl && truthyEnv supabaseAnonKey.

Definition notConfiguredMessage : jsstring :=
  js "Supabase is not configured. Set VITE_SUPABASE_URL and VITE_SUPABASE_ANON_KEY.".

Definition getSupabaseClient : Prog unit :=
  if negb isSupabaseConfigured then Throw notConfiguredMessage else Ret tt.

(** ** src/lib/photos.ts: the operations *)

(** The object literal [mapPhotoRow] returns. *)
Definition photoOf (row : PhotoRow.t) : Photo.t :=
  {| Photo.id := PhotoRow.id row;
     Photo.title := PhotoRow.title row;
     Photo.caption := PhotoRow.caption row;
     Photo.tags := default [] (PhotoRow.tags row);
     Photo.shot_date := PhotoRow.shot_date row;
     Photo.image_path := PhotoRow.image_path row;
     Photo.image_url := getPublicUrl PHOTOS_BUCKET (PhotoRow.image_path row);
     Photo.created_at := PhotoRow.created_at row;
     Photo.updated_at := PhotoRow.updated_at row;
     Photo.deleted_at := PhotoRow.deleted_at row |}.

Definition mapPhotoRow (row : PhotoRow.t) : Prog Photo.t :=
  getSupabaseClient ;;;
  Ret (photoOf row).

Definition fetchPublicPhotos (from to : Z) : Prog (list Photo.t) :=
  getSupabaseClient ;;;
  r <- await (RowsSelect
                (select PHOTO_COLUMNS
                 |> is_null col_deleted_at
                 |> order ord_shot_date false
                 |> order ord_created_at false
                 |> range from to)) ;;
  match r with
  | Err error => Throw (message error)
  | Ok data => mapProg mapPhotoRow data
  end.

Inductive Mode := active | trash.

Definition fetchAdminPhotos (mode : Mode) : Prog (list Photo.t) :=
  getSupabaseClient ;;;
  let query :=
    select PHOTO_COLUMNS
    |> order ord_shot_date false
    |> order ord_created_at false in
  let query :=
    match mode with
    | active => query |> is_null col_deleted_at
    | trash => query |> not_is_null col_deleted_at
    end in
  r <- await (RowsSelect query) ;;
  match r with
  | Err error => Throw (message error)
  | Ok data => mapProg mapPhotoRow data
  end.

(** The request body made of the own properties of a payload. *)
Definition bodyOf (payload : Payload.t) : Body :=
  [(col_title, VText (Payload.title payload));
   (col_caption, optText (Payload.caption payload));
   (col_tags, VArray (Payload.tags payload));
   (col_shot_date, VText (Payload.shot_date payload))].

(** The template literal of [uploadPhoto]. *)
Definition storageKey (userId : jsstring) (now : Z) (uuid : N)
    (name : jsstring) : jsstring :=
  userId ++ js "/" ++ numberToString now ++ js "-" ++ uuidString uuid
    ++ js "-" ++ sanitizeFilename name.

Definition uploadPhoto (file : File) (metadata : PhotoMetadataInput.t)
    (userId : jsstring) : Prog Photo.t :=
  getSupabaseClient ;;;
  now <- await DateNow ;;
  uuid <- await RandomUUID ;;
  let filePath := storageKey userId now uuid (file_name file) in
  up <- await (StorageUpload PHOTOS_BUCKET filePath file
                 {| upsert := false;
                    contentType := file_type file;
                    cacheControl := js "3600" |}) ;;
  match up with
  | Err uploadError => Throw (message uploadError)
  | Ok _ =>
      let payload := cleanMetadata metadata in
      r <- await (RowsInsertSingle
                    (bodyOf payload ++ [(col_image_path, VText filePath)])
                    PHOTO_COLUMNS) ;;
      match r with
      | Err error =>
          await (StorageRemove PHOTOS_BUCKET [filePath]) ;;;
          Throw (message error)
      | Ok data => mapPhotoRow data
      end
  end.

Definition updatePhotoMetadata (photoId : jsstring)
    (metadata : PhotoMetadataInput.t) : Prog Photo.t :=
  getSupabaseClient ;;;
  let payload := cleanMetadata metadata in
  r <- await (RowsUpdateSingle (bodyOf payload) [FilterEq col_id photoId]
                PHOTO_COLUMNS) ;;
  match r with
  | Err error => Throw (message error)
  | Ok data => mapPhotoRow data
  end.

Definition softDeletePhoto (photoId : jsstring) : Prog unit :=
  getSupabaseClient ;;;
  now <- await NowISOString ;;
  r <- await (RowsUpdate [(col_deleted_at, VText now)]
                [FilterEq col_id photoId]) ;;
  match r with
  | Err error => Throw (message error)
  | Ok _ => Ret tt
  end.

Definition restorePhoto (photoId : jsstring) : Prog unit :=
  getSupabaseClient ;;;
  r <- await (RowsUpdate [(col_deleted_at, VNull)]
                [FilterEq col_id photoId]) ;;
  match r with
  | Err error => Throw (message error)
  | Ok _ => Ret tt
  end.

Definition permanentlyDeletePhoto (photo : Photo.t) : Prog unit :=
  getSupabaseClient ;;;
  s <- await (StorageRemove PHOTOS_BUCKET [Photo.image_path photo]) ;;
  match s with
  | Err storageError =>
      if negb (notFoundTest (message storageError))
      then Throw (message storageError)
      else Ret tt
  | Ok _ => Ret tt
  end ;;;
  r <- await (RowsDelete [FilterEq col_id (Photo.id photo)]) ;;
  match r with
  | Err error => Throw (message error)
  | Ok _ => Ret tt
  end.

(** ** src/pages/HomePage.tsx: the page loader *)

Definition PAGE_SIZE : Z := 9.

Record HomeState := mkHome {
  home_photos : list Photo.t;
  page : Z;
  hasMore : bool;
  isLoading : bool;
  errorMessage : option jsstring
}.

(** The first effect of [HomePage], for a request that is not
    cancelled: the state after the batch of the current page arrived. *)
Definition loadPage (st : HomeState) : Prog HomeState :=
  if negb isSupabaseConfigured || negb (hasMore st) then Ret st
  else
    let rangeStart := (page st * PAGE_SIZE)%Z in
    let rangeEnd := (rangeStart + PAGE_SIZE - 1)%Z in
    catch
      (nextBatch <- fetchPublicPhotos rangeStart rangeEnd ;;
       Ret (mkHome (home_photos st ++ nextBatch) (page st)
              (if (Z.of_nat (length nextBatch) <? PAGE_SIZE)%Z then false
               else hasMore st)
              false None))
      (fun msg =>
         Ret (mkHome (home_photos st) (page st) (hasMore st) false (Some msg))).

End Repository.

(** ** src/pages/AdminPage.tsx: the form helpers *)

Module PhotoFormState.
Record t := mk {
  title : jsstring;
  caption : jsstring;
  tags : jsstring;
  shotDate : jsstring
}.
End PhotoFormState.

Definition comma : N := 44.

(** [s.split(sep)] for a separator of one code unit: the pieces between
    the separators, the empty string giving one empty piece. *)
Fixpoint split (sep : N) (s : jsstring) : list jsstring :=
  match s with
  | [] => [[]]
  | c :: s' =>
      if c =? sep then [] :: split sep s'
      else match split sep s' with
           | [] => [[c]]
           | piece :: pieces => (c :: piece) :: pieces
           end
  end.

(** [parts.join(sep)] *)
Fixpoint join (sep : jsstring) (parts : list jsstring) : jsstring :=
  match parts with
  | [] => []
  | p :: rest =>
      match rest with
      | [] => p
      | _ :: _ => p ++ sep ++ join sep rest
      end
  end.

Definition parseTags (value : jsstring) : list jsstring :=
  List.filter truthy (map (fun tag => trim tag) (split comma value)).

Definition toMetadataInput (formState : PhotoFormState.t)
  : PhotoMetadataInput.t :=
  {| PhotoMetadataInput.title := PhotoFormState.title formState;
     PhotoMetadataInput.caption := PhotoFormState.caption formState;
     PhotoMetadataInput.tags := parseTags (PhotoFormState.tags formState);
     PhotoMetadataInput.shot_date := PhotoFormState.shotDate formState |}.

(** The form [beginEdit] opens for a photo. *)
Definition editFormOf (photo : Photo.t) : PhotoFormState.t :=
  {| PhotoFormState.title := Photo.title photo;
     PhotoFormState.caption := default [] (Photo.caption photo);
     PhotoFormState.tags := join (js ", ") (Photo.tags photo);
     PhotoFormState.shotDate := Photo.shot_date photo |}.

(** ** src/pages/HomePage.tsx: the scroll trigger *)

(** The second effect of [HomePage]: when the sentinel comes into view
    the page number goes up, unless the feed is exhausted, loading, empty
    or showing an error. *)
Definition onIntersect (st : HomeState) : HomeState :=
  if negb (hasMore st) || isLoading st
     || (length (home_photos st) =? 0)%nat
     || truthyEnv (errorMessage st)
  then st
  else mkHome (home_photos st) (page st + 1)%Z (hasMore st) (isLoading st)
         (errorMessage st).

(** The state of a page that was just mounted. *)
Definition homeStart : HomeState := mkHome [] 0 true false None.

(** The first effect runs again only when one of its dependencies
    ([hasMore], [page]) has changed. *)
Definition sameDeps (a b : HomeState) : bool :=
  Bool.eqb (hasMore a) (hasMore b) && (page a =? page b)%Z.

(** At most [k] rounds of the two effects: the first effect loads the
    current page, then the reader scrolls down to the sentinel; the next
    round takes place when that changed a dependency of the first
    effect. *)
Fixpoint scroll `{Runtime} (k : nat) (st : HomeState) : Prog HomeState :=
  match k with
  | O => Ret st
  | S k' =>
      st' <- loadPage st ;;
      if sameDeps st (onIntersect st') then Ret (onIntersect st')
      else scroll k' (onIntersect st')
  end.

(** ** src/pages/AdminPage.tsx: the state of the photo panels and its
    handlers

    The state cells the photo handlers read or write ([session] is the
    id of [session.user], null when logged out). A handler reads the
    values of the render it was made in and sets cells one after the
    other; its model gives the state once the handler has finished. *)

Record AdminState := mkAdmin {
  session : option jsstring;
  uploadForm : PhotoFormState.t;
  uploadFile : option File;
  uploadBusy : bool;
  uploadError : option jsstring;
  activePhotos : list Photo.t;
  trashPhotos : list Photo.t;
  photosBusy : bool;
  photosError : option jsstring;
  editingId : option jsstring;
  editForm : PhotoFormState.t;
  actionPhotoId : option jsstring
}.

Definition setUploadForm (v : PhotoFormState.t) (st : AdminState) : AdminState :=
  mkAdmin (session st) v (uploadFile st) (uploadBusy st) (uploadError st)
    (activePhotos st) (trashPhotos st) (photosBusy st) (photosError st)
    (editingId st) (editForm st) (actionPhotoId st).

Definition setUploadFile (v : option File) (st : AdminState) : AdminState :=
  mkAdmin (session st) (uploadForm st) v (uploadBusy st) (uploadError st)
    (activePhotos st) (trashPhotos st) (photosBusy st) (photosError st)
    (editingId st) (editForm st) (actionPhotoId st).

Definition setUploadBusy (v : bool) (st : AdminState) : AdminState :=
  mkAdmin (session st) (uploadForm st) (uploadFile st) v (uploadError st)
    (activePhotos st) (trashPhotos st) (photosBusy st) (photosError st)
    (editingId st) (editForm st) (actionPhotoId st).

Definition setUploadError (v : option jsstring) (st : AdminState) : AdminState :=
  mkAdmin (session st) (uploadForm st) (uploadFile st) (uploadBusy st) v
    (activePhotos st) (trashPhotos st) (photosBusy st) (photosError st)
    (editingId st) (editForm st) (actionPhotoId st).

Definition setActivePhotos (v : list Photo.t) (st : AdminState) : AdminState :=
  mkAdmin (session st) (uploadForm st) (uploadFile st) (uploadBusy st)
    (uploadError st) v (trashPhotos st) (photosBusy st) (photosError st)
    (editingId st) (editForm st) (actionPhotoId st).

Definition setTrashPhotos (v : list Photo.t) (st : AdminState) : AdminState :=
  mkAdmin (session st) (uploadForm st) (uploadFile st) (uploadBusy st)
    (uploadError st) (activePhotos st) v (photosBusy st) (photosError st)
    (editingId st) (editForm st) (actionPhotoId st).

Definition setPhotosBusy (v : bool) (st : AdminState) : AdminState :=
  mkAdmin (session st) (uploadForm st) (uploadFile st) (uploadBusy st)
    (uploadError st) (activePhotos st) (trashPhotos st) v (photosError st)
    (editingId st) (editForm st) (actionPhotoId st).

Definition setPhotosError (v : option jsstring) (st : AdminState) : AdminState :=
  mkAdmin (session st) (uploadForm st) (uploadFile st) (uploadBusy st)
    (uploadError st) (activePhotos st) (trashPhotos st) (photosBusy st) v
    (editingId st) (editForm st) (actionPhotoId st).

Definition setEditingId (v : option jsstring) (st : AdminState) : AdminState :=
  mkAdmin (session st) (uploadForm st) (uploadFile st) (uploadBusy st)
    (uploadError st) (activePhotos st) (trashPhotos st) (photosBusy st)
    (photosError st) v (editForm st) (actionPhotoId st).

Definition setEditForm (v : PhotoFormState.t) (st : AdminState) : AdminState :=
  mkAdmin (session st) (uploadForm st) (uploadFile st) (uploadBusy st)
    (uploadError st) (activePhotos st) (trashPhotos st) (photosBusy st)
    (photosError st) (editingId st) v (actionPhotoId st).

Definition setActionPhotoId (v : option jsstring) (st : AdminState) : AdminState :=
  mkAdmin (session st) (uploadForm st) (uploadFile st) (uploadBusy st)
    (uploadError st) (activePhotos st) (trashPhotos st) (photosBusy st)
    (photosError st) (editingId st) (editForm st) v.

Section AdminHandlers.
Context `{Runtime}.

(** [createEmptyPhotoForm]: empty fields and today's date, the first ten
    code units of [new Date().toISOString()]. *)
Definition createEmptyPhotoForm : Prog PhotoFormState.t :=
  now <- await NowISOString ;;
  Ret (PhotoFormState.mk [] [] [] (take 10 now)).

(** The outcome of a promise, once settled. *)
Definition settle {A} (p : Prog A) : Prog (Outcome A) :=
  catch (a <- p ;; Ret (Returned a)) (fun msg => Ret (Thrown msg)).

(** [Promise.all([p, q])] for two calls that are both started before
    either is answered: it resolves to both values, and it rejects with
    the reason of the call that is rejected first, [firstIsP] telling
    which of two rejections comes first. *)
Definition promiseAll2 {A B} (firstIsP : bool) (p : Prog A) (q : Prog B)
  : Prog (A * B) :=
  ra <- settle p ;;
  rb <- settle q ;;
  match ra, rb with
  | Returned a, Returned b => Ret (a, b)
  | Thrown msg, Returned _ => Throw msg
  | Returned _, Thrown msg => Throw msg
  | Thrown msgP, Thrown msgQ => Throw (if firstIsP then msgP else msgQ)
  end.

(** [getErrorMessage]: every value the repository throws is an [Error],
    whose message it returns. *)
Definition getErrorMessage (msg : jsstring) : jsstring := msg.

Definition loadPhotos (race : bool) (st : AdminState) : Prog AdminState :=
  match session st with
  | None => Ret st
  | Some _ =>
      let st1 := setPhotosError None (setPhotosBusy true st) in
      st2 <- catch
               (lists <- promiseAll2 race (fetchAdminPhotos active)
                           (fetchAdminPhotos trash) ;;
                Ret (setTrashPhotos (snd lists)
                       (setActivePhotos (fst lists) st1)))
               (fun error =>
                  Ret (setPhotosError (Some (getErrorMessage error)) st1)) ;;
      Ret (setPhotosBusy false st2)
  end.

Definition handleUpload (race : bool) (st : AdminState) : Prog AdminState :=
  match session st with
  | None => Ret (setUploadError (Some (js "Log in before uploading photos.")) st)
  | Some userId =>
      match uploadFile st with
      | None => Ret (setUploadError (Some (js "Choose an image file first.")) st)
      | Some file =>
          let st1 := setUploadError None (setUploadBusy true st) in
          st2 <- catch
                   (uploadPhoto file (toMetadataInput (uploadForm st)) userId ;;;
                    form <- createEmptyPhotoForm ;;
                    loadPhotos race (setUploadFile None (setUploadForm form st1)))
                   (fun error =>
                      Ret (setUploadError (Some (getErrorMessage error)) st1)) ;;
          Ret (setUploadBusy false st2)
      end
  end.

Definition beginEdit (photo : Photo.t) (st : AdminState) : AdminState :=
  setEditForm (editFormOf photo) (setEditingId (Some (Photo.id photo)) st).

Definition saveEdit (race : bool) (st : AdminState) : Prog AdminState :=
  match editingId st with
  | None => Ret st
  | Some photoId =>
      if negb (truthy photoId) then Ret st
      else
        let st1 := setActionPhotoId (Some photoId) st in
        st2 <- catch
                 (updatePhotoMetadata photoId (toMetadataInput (editForm st)) ;;;
                  loadPhotos race (setEditingId None st1))
                 (fun error =>
                    Ret (setPhotosError (Some (getErrorMessage error)) st1)) ;;
        Ret (setActionPhotoId None st2)
  end.

Definition handleSoftDelete (race : bool) (photoId : jsstring)
    (st : AdminState) : Prog AdminState :=
  let st1 := setActionPhotoId (Some photoId) st in
  st2 <- catch
           (softDeletePhoto photoId ;;;
            loadPhotos race
              (if bool_decide (editingId st = Some photoId)
               then setEditingId None st1 else st1))
           (fun error =>
              Ret (setPhotosError (Some (getErrorMessage error)) st1)) ;;
  Ret (setActionPhotoId None st2).

Definition handleRestore (race : bool) (photoId : jsstring)
    (st : AdminState) : Prog AdminState :=
  let st1 := setActionPhotoId (Some photoId) st in
  st2 <- catch
           (restorePhoto photoId ;;; loadPhotos race st1)
           (fun error =>
              Ret (setPhotosError (Some (getErrorMessage error)) st1)) ;;
  Ret (setActionPhotoId None st2).

(** [shouldDelete] is the answer of [window.confirm]. *)
Definition handlePermanentDelete (race : bool) (shouldDelete : bool)
    (photo : Photo.t) (st : AdminState) : Prog AdminState :=
  if negb shouldDelete then Ret st
  else
    let st1 := setActionPhotoId (Some (Photo.id photo)) st in
    st2 <- catch
             (permanentlyDeletePhoto photo ;;; loadPhotos race st1)
             (fun error =>
                Ret (setPhotosError (Some (getErrorMessage error)) st1)) ;;
    Ret (setActionPhotoId None st2).

End AdminHandlers.

(** ** Predicates used to state the properties *)

Definition whitespaceOnly (s : jsstring) : bool := forallb isWhiteSpace s.

(** [t] neither starts nor ends with white space. *)
Definition noOuterSpace (t : jsstring) : Prop :=
  (forall c t', t = c :: t' -> isWhiteSpace c = false)
  /\ (forall c t', t = t' ++ [c] -> isWhiteSpace c = false).

(** [t] is [s] without its leading and trailing white space. *)
Definition trimmedOf (s t : jsstring) : Prop :=
  exists pre post,
    s = pre ++ t ++ post
    /\ whitespaceOnly pre = true /\ whitespaceOnly post = true
    /\ noOuterSpace t.

(** A string is delimited on the right when it is empty or ends with a
    code unit of the class, on the left when it is empty or starts with
    one: what makes a run of other code units between them maximal. *)
Definition closedRight (a : jsstring) : Prop :=
  a = [] \/ exists a' c, a = a' ++ [c] /\ allowed c = true.

Definition closedLeft (b : jsstring) : Prop :=
  b = [] \/ exists c b', b = c :: b' /\ allowed c = true.

(** Sanitization as the specification words it: every code unit outside
    the class becomes a hyphen of its own. *)
Definition replaceEach (s : jsstring) : jsstring :=
  map (fun c => if allowed c then c else hyphen) s.

Definition count_hyphens (s : jsstring) : nat :=
  length (List.filter (fun c => c =? hyphen) s).

(** The table respects its primary key and its [unique] constraint. *)
Definition wellFormed `{Runtime} (w : World) : Prop :=
  uniqueKeys (photos w) = true.

(** [p1] is listed before [p2]: a later shot date, or the same shot date
    and a later creation time. *)
Definition newer `{Runtime} (p1 p2 : Photo.t) : Prop :=
  (dateValue (Photo.shot_date p2) < dateValue (Photo.shot_date p1)
   \/ dateValue (Photo.shot_date p1) = dateValue (Photo.shot_date p2)
      /\ timestampValue (Photo.created_at p2)
         < timestampValue (Photo.created_at p1))%Z.

(** The pair a listing is ordered by. *)
Definition sortPair `{Runtime} (r : PhotoRow.t) : Z * Z :=
  (dateValue (PhotoRow.shot_date r), timestampValue (PhotoRow.created_at r)).

Definition isActive (r : PhotoRow.t) : bool :=
  match PhotoRow.deleted_at r with None => true | Some _ => false end.

(** Assignment of [deleted_at] alone. *)
Definition withDeletedAt (d : option jsstring) (r : PhotoRow.t) : PhotoRow.t :=
  let '(PhotoRow.mk i ti ca tg sd ip cr up _) := r in
  PhotoRow.mk i ti ca tg sd ip cr up d.

(** Assignment of the four metadata columns. *)
Definition withMetadata (p : Payload.t) (r : PhotoRow.t) : PhotoRow.t :=
  let '(PhotoRow.mk i _ _ _ _ ip cr up de) := r in
  PhotoRow.mk i (Payload.title p) (Payload.caption p) (Some (Payload.tags p))
              (Payload.shot_date p) ip cr up de.

(** What the second phase of a permanent delete amounts to: the row
    delete, started in the world [w1] the first phase left. *)
Definition rowPhase (s : nat -> Choice) (n : nat) (w1 : World)
    (photo : Photo.t) : Result unit :=
  let remove := StorageRemove PHOTOS_BUCKET [Photo.image_path photo] in
  let delete := RowsDelete [FilterEq col_id (Photo.id photo)] in
  match fault (s (S n)) with
  | Some e => mkResult (Thrown (message e)) w1 [event remove; event delete]
  | None =>
      mkResult (Returned tt)
        (setPhotos w1 (deleteRows [FilterEq col_id (Photo.id photo)] (photos w1)))
        [event remove; event delete]
  end.

(** ** Literals of the typed columns

    The migration types [id] as [uuid] and [shot_date] as [date]. The
    server returns a [uuid] as lower-case hexadecimal in groups of
    8-4-4-4-12 and a [date] as [YYYY-MM-DD]; a literal in that form is
    accepted, stored, compared and returned as the text that was sent. *)

(** The text of a 128-bit value in the form of the [uuid] column. *)
Definition uuidLiteral (s : jsstring) : Prop :=
  exists u : N, u < 2 ^ 128 /\ s = uuidString u.

Definition digitOf (c : N) : option N :=
  if (48 <=? c) && (c <=? 57) then Some (c - 48) else None.

(** The number a string of decimal digits denotes. *)
Definition decimalOf (ds : jsstring) : option N :=
  foldl (fun acc c =>
           match acc, digitOf c with
           | Some k, Some d => Some (10 * k + d)
           | _, _ => None
           end) (Some 0) ds.

Definition isLeapYear (y : N) : bool :=
  (y mod 4 =? 0) && negb (y mod 100 =? 0) || (y mod 400 =? 0).

Definition daysInMonth (y m : N) : N :=
  if m =? 2 then (if isLeapYear y then 29 else 28)
  else if (m =? 4) || (m =? 6) || (m =? 9) || (m =? 11) then 30
  else 31.

(** A day of the calendar written [YYYY-MM-DD], from the year 0001 on:
    the form of the [date] column, and the value of a date input. *)
Definition dateLiteral (s : jsstring) : bool :=
  match s with
  | [y1; y2; y3; y4; h1; m1; m2; h2; d1; d2] =>
      (h1 =? hyphen) && (h2 =? hyphen)
      && match decimalOf [y1; y2; y3; y4], decimalOf [m1; m2],
               decimalOf [d1; d2] with
         | Some y, Some m, Some d =>
             (1 <=? y) && (1 <=? m) && (m <=? 12)
             && (1 <=? d) && (d <=? daysInMonth y m)
         | _, _, _ => false
         end
  | _ => false
  end.

(** The active rows in the order of the listings. *)
Definition activeSorted `{Runtime} (w : World) : list PhotoRow.t :=
  merge_sort (precedes [(ord_shot_date, false); (ord_created_at, false)])
    (List.filter isActive (photos w)).

(** A tag as the admin form produces it: not empty, no white space
    around it, no comma in it. *)
Definition formTag (tag : jsstring) : Prop :=
  tag <> [] /\ noOuterSpace tag /\ ~ In comma tag.

(** The metadata columns of a row, as a payload. *)
Definition payloadOf (r : PhotoRow.t) : Payload.t :=
  Payload.mk (PhotoRow.title r) (PhotoRow.caption r)
    (default [] (PhotoRow.tags r)) (PhotoRow.shot_date r).

(** The two requests of the reload that follows an operation [op] started
    at request [n] reach the store. *)
Definition reloadReaches `{Runtime} {A} (s : nat -> Choice) (n : nat)
    (w : World) (op : Prog A) : Prop :=
  let k := (n + length (calls (run s n w op)))%nat in
  fault (s k) = None /\ fault (s (S k)) = None.

(** The admin state [st'] shows the store as [op] left it: its lists are
    the two listings of that store, asked right after [op]; no error, no
    photo marked, not busy; [edit] is the edit in progress. *)
Definition showsStoreAfter `{Runtime} {A} (s : nat -> Choice) (n : nat)
    (w : World) (op : Prog A) (edit : option jsstring) (st' : AdminState)
  : Prop :=
  let k := (n + length (calls (run s n w op)))%nat in
  let w1 := final (run s n w op) in
  outcome (run s k w1 (fetchAdminPhotos active)) = Returned (activePhotos st')
  /\ outcome (run s (S k) w1 (fetchAdminPhotos trash))
     = Returned (trashPhotos st')
  /\ photosError st' = None /\ actionPhotoId st' = None
  /\ photosBusy st' = false /\ editingId st' = edit.

(** ** Sample data for running the model *)

Definition sampleRow (i shot created : string) (deleted : option string)
  : PhotoRow.t :=
  PhotoRow.mk (js i) (js "Dawn") None (Some []) (js shot)
    (js "owner/" ++ js i ++ js ".jpg") (js created) (js created)
    (option_map js deleted).

(** Two active photos and one in the trash. *)
Definition sampleWorld : World :=
  mkWorld ∅
    [sampleRow "p1" "2026-01-01" "2026-02-01T10:00:00+00:00" None;
     sampleRow "p2" "2026-01-03" "2026-02-01T10:00:01+00:00" None;
     sampleRow "p3" "2026-01-03" "2026-02-01T10:00:02+00:00"
       (Some "2026-03-01T08:00:00+00:00"%string)].

Definition sampleFile : File :=
  mkFile (js "My  Photo.JPG") (js "image/jpeg") [255; 216; 255].

Definition sampleMetadata : PhotoMetadataInput.t :=
  PhotoMetadataInput.mk (js "  Dawn  ") (js "   ")
    [js " a "; js ""; js " b,b "] (js "2026-02-20").

(** The world behaves: no call fails. *)
Definition calm : Choice :=
  mkChoice None 1771545600000 0x123e4567e89b42d3a456426614174000
    (js "2026-02-20T12:00:00.000Z") (js "p9")
    (js "2026-02-20T12:00:00+00:00").

(** The schedule in which the requests numbered in [failures] fail with
    the message given, and the others go through. *)
Definition schedule (failures : list (nat * string)) (n : nat) : Choice :=
  match List.find (fun f => Nat.eqb (fst f) n) failures with
  | Some (_, msg) =>
      mkChoice (Some (mkError (js msg))) (clock calm) (token calm) (iso calm)
        (server_id calm) (server_now calm)
  | None => calm
  end.

Definition sampleKey : jsstring :=
  js "owner/1771545600000-123e4567-e89b-42d3-a456-426614174000-my-photo.jpg".

(** Nine active photos and one in the trash. *)
Definition nineWorld : World :=
  mkWorld ∅
    (map (fun d => sampleRow (String.append "q" d) (String.append "2026-01-0" d)
                     "2026-02-01T10:00:00+00:00" None)
         ["1"; "2"; "3"; "4"; "5"; "6"; "7"; "8"; "9"]%string
     ++ [sampleRow "q0" "2026-01-05" "2026-02-01T10:00:00+00:00"
           (Some "2026-03-01T08:00:00+00:00"%string)]).

(** A runtime without the two environment values. *)
Definition bareRuntime : Runtime :=
  {| toLowerCase := map asciiLower;
     dateValue := digitsValue;
     timestampValue := digitsValue;
     getPublicUrl := fun bucket path => bucket ++ js "/" ++ path;
     supabaseUrl := None;
     supabaseAnonKey := None |}.

(** What an admin typed in a form. *)
Definition sampleForm : PhotoFormState.t :=
  PhotoFormState.mk (js " Dawn ") (js "") (js "sea, sky ,") (js "2026-01-01").

(** The admin page of a logged-in admin with a file chosen, nothing
    loaded yet. *)
Definition adminStart : AdminState :=
  mkAdmin (Some (js "owner")) sampleForm (Some sampleFile) false None [] []
    false None None (PhotoFormState.mk [] [] [] []) None.

(** The sample store with an object already at the sample key. *)
Definition takenWorld : World :=
  mkWorld {[sampleKey := sampleFile]} (photos sampleWorld).

(** Two ids in the form of the [uuid] column. *)
Definition storedId : string := "0f8fad5b-d9cb-469f-a165-70867728950e".
Definition absentId : string := "7c9e6679-7425-40de-944b-e07fc1f90ae7".

(** A table whose ids are in the form of the [uuid] column: one active
    photo and one in the trash. *)
Definition typedWorld : World :=
  mkWorld ∅
    [sampleRow storedId "2026-01-01" "2026-02-01T10:00:00+00:00" None;
     sampleRow "16fd2706-8baf-433b-82eb-8c7fada847da" "2026-01-03"
       "2026-02-01T10:00:01+00:00" (Some "2026-03-01T08:00:00+00:00"%string)].

(** * Properties *)

(** ** Trimming *)

Section Trim.

Lemma trimStart_split (s : jsstring) :
  exists pre, s = pre ++ trimStart s /\ whitespaceOnly pre = true.
Proof.
  induction s as [|c s IH]; simpl.
  - exists []. auto.
  - destruct (isWhiteSpace c) eqn:E.
    + destruct IH as [pre [Hs Hp]]. exists (c :: pre). simpl.
      rewrite E, Hp. split; [congruence | reflexivity].
    + exists []. auto.
Qed.

Lemma trimStart_head (s : jsstring) c t :
  trimStart s = c :: t -> isWhiteSpace c = false.
Proof.
  induction s as [|d s IH]; simpl; [discriminate|].
  destruct (isWhiteSpace d) eqn:E; [exact IH|].
  intros [= -> _]. exact E.
Qed.

Lemma trimStart_nil (s : jsstring) :
  trimStart s = [] <-> whitespaceOnly s = true.
Proof.
  induction s as [|d s IH]; simpl; [tauto|].
  destruct (isWhiteSpace d); simpl; [exact IH|].
  split; discriminate.
Qed.

Lemma whitespaceOnly_rev (s : jsstring) :
  whitespaceOnly (rev s) = whitespaceOnly s.
Proof.
  unfold whitespaceOnly. induction s as [|c s IH]; simpl; [reflexivity|].
  rewrite forallb_app, IH. simpl. rewrite andb_true_r. apply andb_comm.
Qed.

Lemma trimEnd_split (u : jsstring) :
  exists post, u = trimEnd u ++ post /\ whitespaceOnly post = true.
Proof.
  destruct (trimStart_split (rev u)) as [pre [Hu Hp]].
  exists (rev pre). split.
  - unfold trimEnd. rewrite <- rev_app_distr, <- Hu. symmetry. apply rev_involutive.
  - rewrite whitespaceOnly_rev. exact Hp.
Qed.

Lemma trimEnd_last (u : jsstring) t c :
  trimEnd u = t ++ [c] -> isWhiteSpace c = false.
Proof.
  unfold trimEnd. intros Hu.
  apply (f_equal (@rev N)) in Hu.
  rewrite rev_involutive, rev_app_distr in Hu. simpl in Hu.
  exact (trimStart_head _ _ _ Hu).
Qed.

Lemma trim_trimmedOf (s : jsstring) : trimmedOf s (trim s).
Proof.
  destruct (trimStart_split s) as [pre [Hs Hpre]].
  destruct (trimEnd_split (trimStart s)) as [post [Hu Hpost]].
  exists pre, post. unfold trim. repeat split; auto.
  - rewrite <- Hu. exact Hs.
  - intros c t' Ht. rewrite Ht in Hu. simpl in Hu.
    exact (trimStart_head s c _ Hu).
  - intros c t' Ht. exact (trimEnd_last _ _ _ Ht).
Qed.

Lemma trim_nil (s : jsstring) :
  truthy (trim s) = negb (whitespaceOnly s).
Proof.
  destruct (whitespaceOnly s) eqn:E; simpl.
  - apply trimStart_nil in E. unfold trim. rewrite E. reflexivity.
  - destruct (trim s) as [|c t] eqn:Ht; [|reflexivity].
    exfalso. unfold trim in Ht.
    destruct (trimEnd_split (trimStart s)) as [post [Hu Hpost]].
    rewrite Ht in Hu. simpl in Hu.
    assert (Hn : trimStart s = []).
    { destruct (trimStart s) as [|d r] eqn:Hd; [reflexivity|].
      pose proof (trimStart_head s d r Hd) as Hw.
      rewrite <- Hu in Hpost. simpl in Hpost. rewrite Hw in Hpost. discriminate. }
    apply trimStart_nil in Hn. congruence.
Qed.

(** The trimmed string is determined by the one it comes from. *)
Lemma trimmedOf_unique (s t1 t2 : jsstring) :
  trimmedOf s t1 -> trimmedOf s t2 -> t1 = t2.
Proof.
  assert (pref : forall (p1 p2 x1 x2 : jsstring),
             p1 ++ x1 = p2 ++ x2 ->
             whitespaceOnly p1 = true -> whitespaceOnly p2 = true ->
             (forall c r, x1 = c :: r -> isWhiteSpace c = false) ->
             (forall c r, x2 = c :: r -> isWhiteSpace c = false) ->
             x1 <> [] -> x2 <> [] -> p1 = p2 /\ x1 = x2).
  { induction p1 as [|a p1 IH]; intros p2 x1 x2 He H1 H2 Hx1 Hx2 N1 N2.
    - destruct p2 as [|b p2]; [auto|]. simpl in *.
      destruct x1 as [|c r]; [congruence|]. injection He as -> _.
      apply andb_true_iff in H2 as [H2 _].
      rewrite (Hx1 b r eq_refl) in H2. discriminate.
    - destruct p2 as [|b p2]; simpl in *.
      + destruct x2 as [|c r]; [congruence|]. injection He as <- _.
        apply andb_true_iff in H1 as [H1 _].
        rewrite (Hx2 a r eq_refl) in H1. discriminate.
      + injection He as -> He.
        apply andb_true_iff in H1 as [_ H1]. apply andb_true_iff in H2 as [_ H2].
        destruct (IH p2 x1 x2 He H1 H2 Hx1 Hx2 N1 N2) as [-> ->]. auto. }
  intros (p1 & q1 & E1 & Wp1 & Wq1 & [Hh1 Hl1]) (p2 & q2 & E2 & Wp2 & Wq2 & [Hh2 Hl2]).
  assert (Hws : forall p q, s = p ++ [] ++ q -> whitespaceOnly p = true ->
                            whitespaceOnly q = true -> whitespaceOnly s = true).
  { intros p q -> Hp Hq. unfold whitespaceOnly in *. simpl.
    rewrite forallb_app, Hp, Hq. reflexivity. }
  assert (Hne : forall p t q, s = p ++ t ++ q -> t <> [] ->
                  (forall c r, t = c :: r -> isWhiteSpace c = false) ->
                  whitespaceOnly s = false).
  { intros p t q -> Ht Hh. destruct t as [|c r]; [congruence|].
    unfold whitespaceOnly. rewrite forallb_app. simpl.
    rewrite (Hh c r eq_refl). simpl. apply andb_false_r. }
  destruct t1 as [|c1 r1], t2 as [|c2 r2]; [reflexivity | | |].
  - rewrite (Hws _ _ E1 Wp1 Wq1) in Hne.
    specialize (Hne p2 (c2 :: r2) q2 E2). discriminate Hne; [congruence | exact Hh2].
  - rewrite (Hws _ _ E2 Wp2 Wq2) in Hne.
    specialize (Hne p1 (c1 :: r1) q1 E1). discriminate Hne; [congruence | exact Hh1].
  - assert (Hx : forall (t q : jsstring) c r, t ++ q = c :: r -> t <> [] ->
                   exists r', t = c :: r').
    { intros t q c r Hq Ht. destruct t; [congruence|]. injection Hq as -> _. eauto. }
    destruct (pref p1 p2 ((c1 :: r1) ++ q1) ((c2 :: r2) ++ q2)) as [_ Hmid];
      try congruence; try discriminate.
    + intros c r Hc. injection Hc as <- _. exact (Hh1 c1 r1 eq_refl).
    + intros c r Hc. injection Hc as <- _. exact (Hh2 c2 r2 eq_refl).
    + (* compare from the right *)
      apply (f_equal (@rev N)) in Hmid. rewrite !rev_app_distr in Hmid.
      destruct (pref (rev q1) (rev q2) (rev (c1 :: r1)) (rev (c2 :: r2))) as [_ Hr];
        try exact Hmid; try (rewrite whitespaceOnly_rev; assumption).
      * intros c r Hc. apply (f_equal (@rev N)) in Hc.
        rewrite rev_involutive in Hc. simpl in Hc. exact (Hl1 _ _ Hc).
      * intros c r Hc. apply (f_equal (@rev N)) in Hc.
        rewrite rev_involutive in Hc. simpl in Hc. exact (Hl2 _ _ Hc).
      * intros Hc. apply (f_equal (@length N)) in Hc. rewrite length_rev in Hc. discriminate.
      * intros Hc. apply (f_equal (@length N)) in Hc. rewrite length_rev in Hc. discriminate.
      * apply (f_equal (@rev N)) in Hr. rewrite !rev_involutive in Hr. exact Hr.
Qed.

End Trim.

(** ** Metadata normalization *)

Lemma cleaned_tags (tags : list jsstring) :
  Forall2 trimmedOf
    (List.filter (fun tag => negb (whitespaceOnly tag)) tags)
    (List.filter truthy (map (fun tag => trim tag) tags))
  /\ Forall (fun tag => tag <> []) (List.filter truthy (map (fun tag => trim tag) tags)).
Proof.
  induction tags as [|tag tags [IH1 IH2]]; simpl.
  - split; constructor.
  - rewrite trim_nil. destruct (whitespaceOnly tag) eqn:E; simpl.
    + split; assumption.
    + split; constructor; try assumption.
      * apply trim_trimmedOf.
      * intros Hn. pose proof (trim_nil tag) as Ht.
        rewrite Hn, E in Ht. discriminate.
Qed.

(** ** File name sanitization and the storage key *)

Section Sanitize.
Context `{Runtime}.

Lemma replaceRuns_allowed in_run (s : jsstring) :
  Forall (fun c => allowed c = true) (replaceRuns in_run s).
Proof.
  revert in_run. induction s as [|c s IH]; intros in_run; simpl; [constructor|].
  destruct (allowed c) eqn:E.
  - constructor; [exact E | apply IH].
  - destruct in_run; [apply IH|]. constructor; [reflexivity | apply IH].
Qed.

Lemma replaceRuns_keep in_run (s : jsstring) :
  Forall (fun c => allowed c = true) s -> replaceRuns in_run s = s.
Proof.
  intros Hs. revert in_run. induction Hs as [|c s Hc _ IH]; intros in_run; simpl.
  - reflexivity.
  - rewrite Hc, IH. reflexivity.
Qed.

Lemma replaceRuns_after_allowed in_run (a : jsstring) c (x : jsstring) :
  allowed c = true ->
  replaceRuns in_run ((a ++ [c]) ++ x)
  = replaceRuns in_run (a ++ [c]) ++ replaceRuns false x.
Proof.
  intros Hc. revert in_run. induction a as [|d a IH]; intros in_run; simpl.
  - rewrite Hc. reflexivity.
  - destruct (allowed d).
    + rewrite IH. reflexivity.
    + destruct in_run; rewrite IH; reflexivity.
Qed.

Lemma replaceRuns_closedRight (a x : jsstring) :
  closedRight a ->
  replaceRuns false (a ++ x) = replaceRuns false a ++ replaceRuns false x.
Proof.
  intros [-> | (a' & c & -> & Hc)]; [reflexivity|].
  apply replaceRuns_after_allowed. exact Hc.
Qed.

Lemma replaceRuns_inside_run (r b : jsstring) :
  Forall (fun c => allowed c = false) r -> closedLeft b ->
  replaceRuns true (r ++ b) = replaceRuns false b.
Proof.
  intros Hr Hb. induction Hr as [|c r Hc _ IH]; simpl.
  - destruct Hb as [-> | (c & b' & -> & Hc)]; [reflexivity|].
    simpl. rewrite Hc. reflexivity.
  - rewrite Hc. exact IH.
Qed.

Lemma replaceRuns_run (r b : jsstring) :
  r <> [] -> Forall (fun c => allowed c = false) r -> closedLeft b ->
  replaceRuns false (r ++ b) = hyphen :: replaceRuns false b.
Proof.
  intros Hn Hr Hb. destruct Hr as [|c r Hc Hr]; [congruence|].
  simpl. rewrite Hc. f_equal. apply replaceRuns_inside_run; assumption.
Qed.

Lemma uintUnits_allowed d : Forall (fun c => allowed c = true) (uintUnits d).
Proof. induction d; simpl; constructor; auto. Qed.

Lemma numberToString_allowed n :
  Forall (fun c => allowed c = true) (numberToString n).
Proof.
  unfold numberToString. apply Forall_app. split.
  - destruct (n <? 0)%Z; repeat constructor.
  - apply uintUnits_allowed.
Qed.

Lemma hexDigit_allowed d : d < 16 -> allowed (hexDigit d) = true.
Proof.
  intros Hd. unfold hexDigit, allowed.
  destruct (N.ltb_spec d 10); rewrite !orb_true_iff, !andb_true_iff, !N.leb_le.
  - left. left. left. right. lia.
  - left. left. left. left. lia.
Qed.

Lemma hexDigits_allowed k u : Forall (fun c => allowed c = true) (hexDigits k u).
Proof.
  revert u. induction k as [|k IH]; intros u; simpl; [constructor|].
  apply Forall_app. split; [apply IH|].
  constructor; [|constructor]. apply hexDigit_allowed.
  apply N.mod_lt. discriminate.
Qed.

Lemma uuidString_allowed u : Forall (fun c => allowed c = true) (uuidString u).
Proof.
  unfold uuidString. cbv zeta.
  pose proof (hexDigits_allowed 32 u) as Hd.
  repeat (apply Forall_app; split);
    try (constructor; [reflexivity | constructor]);
    repeat first [apply Forall_take | apply Forall_drop]; exact Hd.
Qed.

End Sanitize.

(** C2, as it holds. [sanitizeFilename] lower-cases the name and puts one
    hyphen in place of every maximal run of code units outside
    [a-z0-9.\-_]: its result has only code units of the class, keeps the
    lower-cased name when that has no other code unit, and around a
    maximal run [r] the result is the sanitized left part, one hyphen,
    and the sanitized right part. The storage key is the owner id, a
    slash, and a rest made of code units of the class only. *)
Theorem sanitizeFilename_collapses_runs `{Runtime} (filename : jsstring) :
  Forall (fun c => allowed c = true) (sanitizeFilename filename)
  /\ (Forall (fun c => allowed c = true) (toLowerCase filename) ->
      sanitizeFilename filename = toLowerCase filename)
  /\ (forall a r b,
        toLowerCase filename = a ++ r ++ b ->
        r <> [] -> Forall (fun c => allowed c = false) r ->
        closedRight a -> closedLeft b ->
        sanitizeFilename filename
        = replaceRuns false a ++ [hyphen] ++ replaceRuns false b)
  /\ (forall userId now uuid,
        (- maxTimeValue <= now <= maxTimeValue)%Z ->
        exists rest,
          storageKey userId now uuid filename = userId ++ js "/" ++ rest
          /\ Forall (fun c => allowed c = true) rest).
Proof.
  unfold sanitizeFilename. split; [apply replaceRuns_allowed|].
  split; [apply replaceRuns_keep|].
  split.
  - intros a r b -> Hn Hr Ha Hb.
    rewrite replaceRuns_closedRight by exact Ha.
    rewrite replaceRuns_run by assumption. reflexivity.
  - intros userId now uuid _. eexists. split; [reflexivity|].
    assert (Hdash : Forall (fun c => allowed c = true) (js "-"))
      by (repeat constructor).
    apply Forall_app; split; [apply numberToString_allowed|].
    apply Forall_app; split; [exact Hdash|].
    apply Forall_app; split; [apply uuidString_allowed|].
    apply Forall_app; split; [exact Hdash|].
    apply replaceRuns_allowed.
Qed.

(** C2 as the specification words it fails: in "a  b.JPG" the two
    consecutive spaces become one hyphen, where a hyphen for every code
    unit outside the class would give two. *)
Lemma sanitizeFilename_two_spaces_one_hyphen :
  @sanitizeFilename asciiRuntime (js "a  b.JPG") = js "a-b.jpg"
  /\ replaceEach (@toLowerCase asciiRuntime (js "a  b.JPG")) = js "a--b.jpg"
  /\ @sanitizeFilename asciiRuntime (js "a  b.JPG")
     <> replaceEach (@toLowerCase asciiRuntime (js "a  b.JPG"))
  /\ count_hyphens (@sanitizeFilename asciiRuntime (js "a  b.JPG")) = 1%nat.
Proof. repeat split; try reflexivity. discriminate. Qed.

(** C2 on the same name, with the key of an upload. *)
Lemma sanitizeFilename_collapses_runs_witness :
  @sanitizeFilename asciiRuntime (js "a  b.JPG")
  = replaceRuns false (js "a") ++ [hyphen] ++ replaceRuns false (js "b.jpg")
  /\ exists rest,
       @storageKey asciiRuntime (js "owner") 1771545600000 0 (js "a  b.JPG")
       = js "owner" ++ js "/" ++ rest
       /\ Forall (fun c => allowed c = true) rest.
Proof.
  destruct (@sanitizeFilename_collapses_runs asciiRuntime (js "a  b.JPG"))
    as (_ & _ & Hrun & Hkey).
  split.
  - apply (Hrun (js "a") (js "  ") (js "b.jpg")).
    + reflexivity.
    + discriminate.
    + repeat constructor.
    + right. exists [], 97. split; reflexivity.
    + right. exists 98, (js ".jpg"). split; reflexivity.
  - apply Hkey. unfold maxTimeValue. lia.
Defined.

(** ** Running programs against the store *)

Section RunFacts.
Context `{Runtime}.

Lemma run_bind {A B} s n w (p : Prog A) (f : A -> Prog B) :
  run s n w (bind p f)
  = match outcome (run s n w p) with
    | Returned a =>
        let r2 := run s (n + length (calls (run s n w p)))
                      (final (run s n w p)) (f a) in
        mkResult (outcome r2) (final r2) (calls (run s n w p) ++ calls r2)
    | Thrown m =>
        mkResult (Thrown m) (final (run s n w p)) (calls (run s n w p))
    end.
Proof.
  revert n w. induction p as [a | m | R req k IH]; intros n w.
  - cbn. rewrite Nat.add_0_r. destruct (run s n w (f a)); reflexivity.
  - reflexivity.
  - cbn [bind run]. destruct (handle (s n) req w) as [r w'].
    rewrite IH. cbn [outcome final calls length].
    destruct (outcome (run s (S n) w' (k r))); cbn zeta; cbn [outcome final calls].
    + rewrite Nat.add_succ_r. reflexivity.
    + reflexivity.
Qed.

Lemma PHOTO_COLUMNS_complete (c : Column) : In c PHOTO_COLUMNS.
Proof. destruct c; cbn; tauto. Qed.

Lemma getSupabaseClient_configured :
  isSupabaseConfigured = true -> getSupabaseClient = Ret tt.
Proof. unfold getSupabaseClient. intros ->. reflexivity. Qed.

Lemma run_mapPhotoRow s n w (l : list PhotoRow.t) :
  isSupabaseConfigured = true ->
  run s n w (mapProg mapPhotoRow l) = mkResult (Returned (map photoOf l)) w [].
Proof.
  intros Hc. induction l as [|r l IH]; [reflexivity|].
  cbn [mapProg map]. unfold mapPhotoRow at 1.
  rewrite (getSupabaseClient_configured Hc). cbn [bind].
  rewrite run_bind, IH. reflexivity.
Qed.

(** A listing: one [select], then the rows are mapped. *)
Lemma run_listing s n w (q : SelectQuery) :
  isSupabaseConfigured = true ->
  run s n w (r <- await (RowsSelect q) ;;
             match r with
             | Err error => Throw (message error)
             | Ok data => mapProg mapPhotoRow data
             end)
  = match fault (s n) with
    | Some e => mkResult (Thrown (message e)) w [event (RowsSelect q)]
    | None =>
        match execSelect q (photos w) with
        | Ok data =>
            mkResult (Returned (map photoOf data)) w [event (RowsSelect q)]
        | Err e => mkResult (Thrown (message e)) w [event (RowsSelect q)]
        end
    end.
Proof.
  intros Hc. cbn [await bind run handle]. unfold reach.
  destruct (fault (s n)) as [e|]; [reflexivity|].
  destruct (execSelect q (photos w)) as [data|e]; [|reflexivity].
  rewrite run_mapPhotoRow by exact Hc. reflexivity.
Qed.

Lemma fetchPublicPhotos_run s n w from to :
  isSupabaseConfigured = true ->
  run s n w (fetchPublicPhotos from to)
  = let q := mkSelect PHOTO_COLUMNS [FilterIsNull col_deleted_at]
               [(ord_shot_date, false); (ord_created_at, false)]
               (Some (from, to)) in
    match fault (s n) with
    | Some e => mkResult (Thrown (message e)) w [event (RowsSelect q)]
    | None =>
        match execSelect q (photos w) with
        | Ok data =>
            mkResult (Returned (map photoOf data)) w [event (RowsSelect q)]
        | Err e => mkResult (Thrown (message e)) w [event (RowsSelect q)]
        end
    end.
Proof.
  intros Hc. unfold fetchPublicPhotos.
  rewrite (getSupabaseClient_configured Hc). cbn [bind].
  apply (run_listing s n w _ Hc).
Qed.

Lemma fetchAdminPhotos_run s n w mode :
  isSupabaseConfigured = true ->
  run s n w (fetchAdminPhotos mode)
  = let q := mkSelect PHOTO_COLUMNS
               [match mode with
                | active => FilterIsNull col_deleted_at
                | trash => FilterNotIsNull col_deleted_at
                end]
               [(ord_shot_date, false); (ord_created_at, false)] None in
    match fault (s n) with
    | Some e => mkResult (Thrown (message e)) w [event (RowsSelect q)]
    | None =>
        match execSelect q (photos w) with
        | Ok data =>
            mkResult (Returned (map photoOf data)) w [event (RowsSelect q)]
        | Err e => mkResult (Thrown (message e)) w [event (RowsSelect q)]
        end
    end.
Proof.
  intros Hc. unfold fetchAdminPhotos.
  rewrite (getSupabaseClient_configured Hc). cbn [bind]. cbv zeta.
  destruct mode; apply (run_listing s n w _ Hc).
Qed.

End RunFacts.

(** ** Listings: order, visibility, pages *)

Section Listings.
Context `{Runtime}.

Lemma compareBy_antisym o r1 r2 :
  compareBy o r2 r1 = CompOpp (compareBy o r1 r2).
Proof.
  induction o as [|[c asc] o IH]; [reflexivity|]. cbn [compareBy].
  destruct asc.
  - rewrite (Z.compare_antisym (orderKey c r1) (orderKey c r2)).
    destruct (orderKey c r1 ?= orderKey c r2)%Z; cbn; auto.
  - rewrite (Z.compare_antisym (orderKey c r2) (orderKey c r1)).
    destruct (orderKey c r2 ?= orderKey c r1)%Z; cbn; auto.
Qed.

#[local] Instance precedes_total o : Total (precedes o).
Proof.
  intros r1 r2. unfold precedes. rewrite (compareBy_antisym o r1 r2).
  destruct (compareBy o r1 r2); cbn; [left | left | right]; congruence.
Qed.

Lemma compareBy_trans o r1 r2 r3 :
  compareBy o r1 r2 <> Gt -> compareBy o r2 r3 <> Gt ->
  compareBy o r1 r3 <> Gt
  /\ (compareBy o r1 r3 = Eq -> compareBy o r1 r2 = Eq /\ compareBy o r2 r3 = Eq).
Proof.
  induction o as [|[c asc] o IH]; [cbn; auto|]. cbn [compareBy].
  set (k1 := orderKey c r1). set (k2 := orderKey c r2). set (k3 := orderKey c r3).
  destruct asc.
  - destruct (Z.compare_spec k1 k2), (Z.compare_spec k2 k3), (Z.compare_spec k1 k3);
      try lia; intros H12 H23; try congruence; try (split; congruence); auto.
  - destruct (Z.compare_spec k2 k1), (Z.compare_spec k3 k2), (Z.compare_spec k3 k1);
      try lia; intros H12 H23; try congruence; try (split; congruence); auto.
Qed.

#[local] Instance precedes_trans o : Transitive (precedes o).
Proof. intros r1 r2 r3 H12 H23. exact (proj1 (compareBy_trans o r1 r2 r3 H12 H23)). Qed.

(** What a successful [select] returns: a contiguous part of the
    matching rows in the requested order. *)
Lemma execSelect_Ok q rows data :
  execSelect q rows = Ok data ->
  exists before after,
    merge_sort (precedes (sel_order q))
      (List.filter (matchAll (sel_filters q)) rows)
    = before ++ data ++ after.
Proof.
  unfold execSelect, sliceRange.
  set (sorted := merge_sort _ _).
  destruct (sel_range q) as [[from to]|].
  - destruct ((from <? 0) || (to + 1 <? from))%Z; [discriminate|].
    intros [= <-].
    exists (take (Z.to_nat from) sorted),
           (drop (Z.to_nat (to - from + 1)) (drop (Z.to_nat from) sorted)).
    rewrite take_drop, take_drop. reflexivity.
  - intros [= <-]. exists [], []. rewrite app_nil_r. reflexivity.
Qed.

Lemma execSelect_sorted q rows data :
  execSelect q rows = Ok data ->
  StronglySorted (precedes (sel_order q)) data.
Proof.
  intros Hq. destruct (execSelect_Ok q rows data Hq) as (before & after & Hs).
  pose proof (StronglySorted_merge_sort (precedes (sel_order q))
                (List.filter (matchAll (sel_filters q)) rows)) as Hsorted.
  rewrite Hs in Hsorted.
  apply StronglySorted_app_1_r in Hsorted.
  apply StronglySorted_app_1_l in Hsorted. exact Hsorted.
Qed.

Lemma execSelect_In q rows data r :
  execSelect q rows = Ok data -> In r data ->
  In r rows /\ matchAll (sel_filters q) r = true.
Proof.
  intros Hq Hr. destruct (execSelect_Ok q rows data Hq) as (before & after & Hs).
  apply filter_In.
  apply (Permutation_in r (merge_sort_Permutation (precedes (sel_order q)) _)).
  rewrite Hs. apply in_or_app. right. apply in_or_app. left. exact Hr.
Qed.

Lemma NoDup_map_filter {A B} (f : A -> B) (p : A -> bool) (l : list A) :
  NoDup (map f l) -> NoDup (map f (List.filter p l)).
Proof.
  induction l as [|a l IH]; cbn; [auto|].
  rewrite NoDup_cons. intros [Ha Hl]. destruct (p a); cbn; [|auto].
  apply NoDup_cons. split; [|auto].
  intros Hin. apply Ha. apply list_elem_of_In in Hin. apply list_elem_of_In.
  apply in_map_iff in Hin as (x & Hx & Hin). apply in_map_iff.
  exists x. split; [exact Hx|]. apply filter_In in Hin. tauto.
Qed.

Lemma execSelect_NoDup {B} `{EqDecision B} (f : PhotoRow.t -> B) q rows data :
  execSelect q rows = Ok data ->
  NoDup (map f rows) -> NoDup (map f data).
Proof.
  intros Hq Hn. destruct (execSelect_Ok q rows data Hq) as (before & after & Hs).
  apply (NoDup_map_filter f (matchAll (sel_filters q))) in Hn.
  assert (Hp : map f (before ++ data ++ after)
               ≡ₚ map f (List.filter (matchAll (sel_filters q)) rows)).
  { rewrite <- Hs. apply Permutation_map. apply merge_sort_Permutation. }
  rewrite <- Hp in Hn. rewrite !map_app in Hn.
  apply NoDup_app in Hn as (_ & _ & Hn).
  apply NoDup_app in Hn as (Hn & _ & _). exact Hn.
Qed.

(** With the two sort keys of the listings, rows whose pairs differ are
    strictly ordered. *)
Lemma precedes_newer r1 r2 :
  precedes [(ord_shot_date, false); (ord_created_at, false)] r1 r2 ->
  sortPair r1 <> sortPair r2 ->
  newer (photoOf r1) (photoOf r2).
Proof.
  unfold precedes, sortPair, newer. cbn.
  destruct (Z.compare_spec (dateValue (PhotoRow.shot_date r2))
                           (dateValue (PhotoRow.shot_date r1)));
    destruct (Z.compare_spec (timestampValue (PhotoRow.created_at r2))
                             (timestampValue (PhotoRow.created_at r1)));
    intros Hc Hp; try congruence; try lia; auto.
Qed.

Lemma listing_strict (data : list PhotoRow.t) :
  StronglySorted (precedes [(ord_shot_date, false); (ord_created_at, false)]) data ->
  NoDup (map sortPair data) ->
  StronglySorted newer (map photoOf data).
Proof.
  induction 1 as [|r data Hs IH Hall]; cbn; [constructor|].
  rewrite NoDup_cons. intros [Hr Hn].
  constructor; [apply IH; exact Hn|].
  apply Forall_forall. intros p Hp.
  apply list_elem_of_In, in_map_iff in Hp as (r' & <- & Hr').
  apply precedes_newer.
  - rewrite Forall_forall in Hall. apply Hall. apply list_elem_of_In. exact Hr'.
  - intros He. apply Hr. rewrite He. apply list_elem_of_In, in_map. exact Hr'.
Qed.

End Listings.

Section ListingFacts.
Context `{Runtime}.

Lemma matchAll_is_null r :
  matchAll [FilterIsNull col_deleted_at] r = isActive r.
Proof. unfold matchAll, isActive. cbn. destruct (PhotoRow.deleted_at r); reflexivity. Qed.

Lemma matchAll_not_is_null r :
  matchAll [FilterNotIsNull col_deleted_at] r = negb (isActive r).
Proof. unfold matchAll, isActive. cbn. destruct (PhotoRow.deleted_at r); reflexivity. Qed.

(** A listing that returns hands out the rows the store selected. *)
Lemma listing_returned (s : nat -> Choice) (n : nat) w q l :
  isSupabaseConfigured = true ->
  outcome (match fault (s n) with
           | Some e => mkResult (Thrown (message e)) w [event (RowsSelect q)]
           | None =>
               match execSelect q (photos w) with
               | Ok data =>
                   mkResult (Returned (map photoOf data)) w [event (RowsSelect q)]
               | Err e => mkResult (Thrown (message e)) w [event (RowsSelect q)]
               end
           end) = Returned l ->
  exists data, execSelect q (photos w) = Ok data /\ l = map photoOf data.
Proof.
  intros _. destruct (fault (s n)); [discriminate|].
  destruct (execSelect q (photos w)) as [data|e]; [|discriminate].
  cbn. intros [= <-]. eauto.
Qed.

Lemma fetchPublicPhotos_returned s n w from to l :
  isSupabaseConfigured = true ->
  outcome (run s n w (fetchPublicPhotos from to)) = Returned l ->
  exists data,
    execSelect (mkSelect PHOTO_COLUMNS [FilterIsNull col_deleted_at]
                  [(ord_shot_date, false); (ord_created_at, false)]
                  (Some (from, to))) (photos w) = Ok data
    /\ l = map photoOf data.
Proof.
  intros Hc. rewrite fetchPublicPhotos_run by exact Hc.
  apply listing_returned. exact Hc.
Qed.

Lemma fetchAdminPhotos_returned s n w mode l :
  isSupabaseConfigured = true ->
  outcome (run s n w (fetchAdminPhotos mode)) = Returned l ->
  exists data,
    execSelect (mkSelect PHOTO_COLUMNS
                  [match mode with
                   | active => FilterIsNull col_deleted_at
                   | trash => FilterNotIsNull col_deleted_at
                   end]
                  [(ord_shot_date, false); (ord_created_at, false)] None)
               (photos w) = Ok data
    /\ l = map photoOf data.
Proof.
  intros Hc. rewrite fetchAdminPhotos_run by exact Hc.
  apply listing_returned. exact Hc.
Qed.

Lemma sorted_length q rows :
  length (merge_sort (precedes (sel_order q))
            (List.filter (matchAll (sel_filters q)) rows))
  = length (List.filter (matchAll (sel_filters q)) rows).
Proof. apply Permutation_length, merge_sort_Permutation. Qed.

(** The page of a valid range. *)
Lemma fetchPublicPhotos_page s n w offset limit :
  isSupabaseConfigured = true -> fault (s n) = None ->
  (0 <= offset)%Z -> (0 < limit)%Z ->
  exists l,
    outcome (run s n w (fetchPublicPhotos offset (offset + limit - 1)))
    = Returned l
    /\ length l
       = Nat.min (Z.to_nat limit)
           (length (List.filter isActive (photos w)) - Z.to_nat offset).
Proof.
  intros Hc Hf Ho Hl. rewrite fetchPublicPhotos_run by exact Hc.
  cbv zeta. rewrite Hf. unfold execSelect, sliceRange. cbn [sel_range].
  replace ((offset <? 0) || (offset + limit - 1 + 1 <? offset))%Z with false
    by (symmetry; apply orb_false_iff; split; apply Z.ltb_ge; lia).
  eexists. split; [reflexivity|].
  rewrite length_map, length_take, length_drop, sorted_length.
  cbn [sel_filters].
  rewrite (filter_ext _ _ matchAll_is_null).
  f_equal. f_equal. lia.
Qed.

End ListingFacts.

(** C5. When the stored photos have pairwise distinct
    ([shot_date], [created_at]) pairs, whatever [fetchPublicPhotos] and
    [fetchAdminPhotos] (either scope) return is sorted by shot date
    descending, ties broken by creation time descending; and they do
    return a list when the call reaches the store with a valid range. *)
Theorem listings_sorted `{Runtime} s n (w : World) :
  isSupabaseConfigured = true ->
  NoDup (map sortPair (photos w)) ->
  (forall from to l,
      outcome (run s n w (fetchPublicPhotos from to)) = Returned l ->
      StronglySorted newer l)
  /\ (forall mode l,
        outcome (run s n w (fetchAdminPhotos mode)) = Returned l ->
        StronglySorted newer l)
  /\ (fault (s n) = None ->
      (forall offset limit, (0 <= offset)%Z -> (0 < limit)%Z ->
         exists l,
           outcome (run s n w (fetchPublicPhotos offset (offset + limit - 1)))
           = Returned l)
      /\ (forall mode,
            exists l, outcome (run s n w (fetchAdminPhotos mode)) = Returned l)).
Proof.
  intros Hc Hd. split; [|split].
  - intros from to l Hl.
    destruct (fetchPublicPhotos_returned s n w from to l Hc Hl) as (data & Hq & ->).
    apply listing_strict.
    + exact (execSelect_sorted _ _ _ Hq).
    + exact (execSelect_NoDup sortPair _ _ _ Hq Hd).
  - intros mode l Hl.
    destruct (fetchAdminPhotos_returned s n w mode l Hc Hl) as (data & Hq & ->).
    apply listing_strict.
    + exact (execSelect_sorted _ _ _ Hq).
    + exact (execSelect_NoDup sortPair _ _ _ Hq Hd).
  - intros Hf. split.
    + intros offset limit Ho Hl.
      destruct (fetchPublicPhotos_page s n w offset limit Hc Hf Ho Hl) as (l & Hr & _).
      eauto.
    + intros mode. rewrite fetchAdminPhotos_run by exact Hc.
      cbv zeta. rewrite Hf. unfold execSelect, sliceRange. cbn [sel_range].
      eexists. reflexivity.
Qed.

(** C6. [fetchPublicPhotos] never returns a photo with a non-null
    [deleted_at], [fetchAdminPhotos trash] never one with a null
    [deleted_at], [fetchAdminPhotos active] never one with a non-null
    [deleted_at]; every photo returned comes from a stored row. *)
Theorem listings_visibility `{Runtime} s n (w : World) :
  isSupabaseConfigured = true ->
  (forall from to l,
      outcome (run s n w (fetchPublicPhotos from to)) = Returned l ->
      Forall (fun p => Photo.deleted_at p = None
                       /\ exists r, In r (photos w) /\ p = photoOf r) l)
  /\ (forall l,
        outcome (run s n w (fetchAdminPhotos trash)) = Returned l ->
        Forall (fun p => Photo.deleted_at p <> None
                         /\ exists r, In r (photos w) /\ p = photoOf r) l)
  /\ (forall l,
        outcome (run s n w (fetchAdminPhotos active)) = Returned l ->
        Forall (fun p => Photo.deleted_at p = None
                         /\ exists r, In r (photos w) /\ p = photoOf r) l).
Proof.
  intros Hc. split; [|split].
  - intros from to l Hl.
    destruct (fetchPublicPhotos_returned s n w from to l Hc Hl) as (data & Hq & ->).
    apply Forall_forall. intros p Hp.
    apply list_elem_of_In, in_map_iff in Hp as (r & <- & Hr).
    destruct (execSelect_In _ _ _ r Hq Hr) as [Hin Hm]. cbn [sel_filters] in Hm.
    rewrite matchAll_is_null in Hm. unfold isActive in Hm.
    split; [|eauto]. cbn. destruct (PhotoRow.deleted_at r); [discriminate | reflexivity].
  - intros l Hl.
    destruct (fetchAdminPhotos_returned s n w trash l Hc Hl) as (data & Hq & ->).
    apply Forall_forall. intros p Hp.
    apply list_elem_of_In, in_map_iff in Hp as (r & <- & Hr).
    destruct (execSelect_In _ _ _ r Hq Hr) as [Hin Hm]. cbn [sel_filters] in Hm.
    rewrite matchAll_not_is_null in Hm. unfold isActive in Hm.
    split; [|eauto]. cbn. destruct (PhotoRow.deleted_at r); [discriminate | discriminate].
  - intros l Hl.
    destruct (fetchAdminPhotos_returned s n w active l Hc Hl) as (data & Hq & ->).
    apply Forall_forall. intros p Hp.
    apply list_elem_of_In, in_map_iff in Hp as (r & <- & Hr).
    destruct (execSelect_In _ _ _ r Hq Hr) as [Hin Hm]. cbn [sel_filters] in Hm.
    rewrite matchAll_is_null in Hm. unfold isActive in Hm.
    split; [|eauto]. cbn. destruct (PhotoRow.deleted_at r); [discriminate | reflexivity].
Qed.

Section Pages.
Context `{Runtime}.

Lemma run_catch {A} s n w (p : Prog A) (h : jsstring -> Prog A) :
  run s n w (catch p h)
  = match outcome (run s n w p) with
    | Returned a => run s n w p
    | Thrown m =>
        let r2 := run s (n + length (calls (run s n w p)))
                      (final (run s n w p)) (h m) in
        mkResult (outcome r2) (final r2) (calls (run s n w p) ++ calls r2)
    end.
Proof.
  revert n w. induction p as [a | m | R req k IH]; intros n w.
  - reflexivity.
  - cbn. rewrite Nat.add_0_r. destruct (run s n w (h m)); reflexivity.
  - cbn [catch run]. destruct (handle (s n) req w) as [r w'].
    rewrite IH. cbn [outcome final calls length].
    destruct (outcome (run s (S n) w' (k r))) eqn:E; cbn zeta; cbn [outcome final calls].
    + destruct (run s (S n) w' (k r)); cbn in *. congruence.
    + rewrite Nat.add_succ_r. reflexivity.
Qed.

(** A page load whose batch arrives: the batch is appended, and the feed
    is marked exhausted exactly when the batch is shorter than a page. *)
Lemma loadPage_batch s n w st batch :
  isSupabaseConfigured = true -> hasMore st = true ->
  outcome (run s n w (fetchPublicPhotos (page st * PAGE_SIZE)
                        (page st * PAGE_SIZE + PAGE_SIZE - 1)))
  = Returned batch ->
  outcome (run s n w (loadPage st))
  = Returned (mkHome (home_photos st ++ batch) (page st)
                (negb (Z.of_nat (length batch) <? PAGE_SIZE)%Z) false None).
Proof.
  intros Hc Hm Hb. unfold loadPage. rewrite Hc, Hm. cbn [negb orb].
  rewrite run_catch, run_bind, Hb. cbn.
  destruct (Z.of_nat (length batch) <? PAGE_SIZE)%Z; reflexivity.
Qed.

End Pages.

(** C7. A page of the public feed is asked for by a zero-based offset
    and a positive limit ([fetchPublicPhotos offset (offset + limit - 1)],
    as the home page does); it has at most [limit] photos: the active
    ones from position [offset] on, cut at [limit]. The page loader marks
    the feed exhausted exactly when a batch is shorter than the page
    size. With exactly 9 active photos and a limit of 9, page 0 brings 9
    photos and the feed stays open, page 1 brings none and closes it. *)
Theorem listPublic_pages `{Runtime} s n (w : World) :
  isSupabaseConfigured = true ->
  fault (s n) = None ->
  (forall offset limit, (0 <= offset)%Z -> (0 < limit)%Z ->
     exists l,
       outcome (run s n w (fetchPublicPhotos offset (offset + limit - 1)))
       = Returned l
       /\ (Z.of_nat (length l) <= limit)%Z
       /\ length l
          = Nat.min (Z.to_nat limit)
              (length (List.filter isActive (photos w)) - Z.to_nat offset))
  /\ (forall st, hasMore st = true -> (0 <= page st)%Z ->
        exists batch,
          outcome (run s n w (fetchPublicPhotos (page st * PAGE_SIZE)
                                (page st * PAGE_SIZE + PAGE_SIZE - 1)))
          = Returned batch
          /\ outcome (run s n w (loadPage st))
             = Returned (mkHome (home_photos st ++ batch) (page st)
                           (negb (Z.of_nat (length batch) <? PAGE_SIZE)%Z)
                           false None))
  /\ (length (List.filter isActive (photos w)) = 9%nat ->
      (exists batch,
         outcome (run s n w (fetchPublicPhotos 0 8)) = Returned batch
         /\ length batch = 9%nat
         /\ forall shown,
              outcome (run s n w (loadPage (mkHome shown 0 true false None)))
              = Returned (mkHome (shown ++ batch) 0 true false None))
      /\ outcome (run s n w (fetchPublicPhotos 9 17)) = Returned []
      /\ forall shown,
           outcome (run s n w (loadPage (mkHome shown 1 true false None)))
           = Returned (mkHome shown 1 false false None)).
Proof.
  intros Hc Hf. split; [|split].
  - intros offset limit Ho Hl.
    destruct (fetchPublicPhotos_page s n w offset limit Hc Hf Ho Hl) as (l & Hr & Hlen).
    exists l. repeat split; [exact Hr | lia | exact Hlen].
  - intros st Hm Hp.
    destruct (fetchPublicPhotos_page s n w (page st * PAGE_SIZE) PAGE_SIZE Hc Hf)
      as (batch & Hr & Hlen); [unfold PAGE_SIZE; lia | reflexivity |].
    exists batch. split; [exact Hr|].
    apply loadPage_batch; assumption.
  - intros Hnine. split; [|split].
    + destruct (fetchPublicPhotos_page s n w 0 9 Hc Hf) as (batch & Hr & Hlen);
        [lia | lia |].
      rewrite Hnine in Hlen. change (0 + 9 - 1)%Z with 8%Z in Hr.
      exists batch. split; [exact Hr|]. split; [exact Hlen|].
      intros shown.
      rewrite (loadPage_batch s n w (mkHome shown 0 true false None) batch Hc eq_refl Hr).
      cbn [home_photos page]. rewrite Hlen. reflexivity.
    + destruct (fetchPublicPhotos_page s n w 9 9 Hc Hf) as (batch & Hr & Hlen);
        [lia | lia |].
      rewrite Hnine in Hlen. change (9 + 9 - 1)%Z with 17%Z in Hr.
      destruct batch; [exact Hr | discriminate Hlen].
    + intros shown.
      destruct (fetchPublicPhotos_page s n w 9 9 Hc Hf) as (batch & Hr & Hlen);
        [lia | lia |].
      rewrite Hnine in Hlen. change (9 + 9 - 1)%Z with 17%Z in Hr.
      destruct batch; [|discriminate Hlen].
      rewrite (loadPage_batch s n w (mkHome shown 1 true false None) [] Hc eq_refl Hr).
      cbn [home_photos page]. rewrite app_nil_r. reflexivity.
Qed.

(** ** Row updates in the store *)

Section Updates.
Context `{Runtime}.

Lemma matchAll_eq_id photoId r :
  matchAll [FilterEq col_id photoId] r = bool_decide (PhotoRow.id r = photoId).
Proof. unfold matchAll. cbn. apply andb_true_r. Qed.

Lemma mapM_total {A B} (h : A -> option B) (g : A -> B) (l : list A) :
  (forall a, h a = Some (g a)) -> mapM h l = Some (map g l).
Proof.
  intros Hh. induction l as [|a l IH]; [reflexivity|].
  cbn. rewrite Hh. cbn. rewrite IH. reflexivity.
Qed.

Lemma applyBody_deleted_at now r :
  applyBody [(col_deleted_at, VText now)] r = Some (withDeletedAt (Some now) r).
Proof. destruct r. reflexivity. Qed.

Lemma applyBody_restore r :
  applyBody [(col_deleted_at, VNull)] r = Some (withDeletedAt None r).
Proof. destruct r. reflexivity. Qed.

Lemma applyBody_metadata p r :
  applyBody (bodyOf p) r = Some (withMetadata p r).
Proof. destruct r, p as [ti [ca|] tg sd]; reflexivity. Qed.

(** An update whose assignments are all admitted: every matching row is
    rewritten and touched by the trigger, unless a key constraint would
    break. *)
Lemma updateRows_total now b fs rows (f : PhotoRow.t -> PhotoRow.t) :
  (forall r, applyBody b r = Some (f r)) ->
  updateRows now b fs rows
  = if uniqueKeys (map (fun r => if matchAll fs r then touch now (f r) else r) rows)
    then Some (map (fun r => if matchAll fs r then touch now (f r) else r) rows,
               map (fun r => touch now (f r)) (List.filter (matchAll fs) rows))
    else None.
Proof.
  intros Hb. unfold updateRows.
  rewrite (mapM_total _ (fun r => if matchAll fs r then touch now (f r) else r)).
  2:{ intros r. unfold updateOne. rewrite Hb. destruct (matchAll fs r); reflexivity. }
  rewrite (mapM_total _ (fun r => touch now (f r))).
  2:{ intros r. unfold updateOne. rewrite Hb. reflexivity. }
  reflexivity.
Qed.

Lemma touch_keys now r :
  PhotoRow.id (touch now r) = PhotoRow.id r
  /\ PhotoRow.image_path (touch now r) = PhotoRow.image_path r.
Proof. destruct r. auto. Qed.

(** Rewriting rows without changing [id] or [image_path] keeps the key
    constraints. *)
Lemma uniqueKeys_preserved (g : PhotoRow.t -> PhotoRow.t) rows :
  (forall r, PhotoRow.id (g r) = PhotoRow.id r
             /\ PhotoRow.image_path (g r) = PhotoRow.image_path r) ->
  uniqueKeys (map g rows) = uniqueKeys rows.
Proof.
  intros Hg. unfold uniqueKeys. rewrite !map_map.
  rewrite (map_ext (fun r => PhotoRow.id (g r)) PhotoRow.id) by (intros r; apply Hg).
  rewrite (map_ext (fun r => PhotoRow.image_path (g r)) PhotoRow.image_path)
    by (intros r; apply Hg).
  reflexivity.
Qed.

Lemma withDeletedAt_keys d r :
  PhotoRow.id (withDeletedAt d r) = PhotoRow.id r
  /\ PhotoRow.image_path (withDeletedAt d r) = PhotoRow.image_path r.
Proof. destruct r. auto. Qed.

Lemma withMetadata_keys p r :
  PhotoRow.id (withMetadata p r) = PhotoRow.id r
  /\ PhotoRow.image_path (withMetadata p r) = PhotoRow.image_path r.
Proof. destruct r. auto. Qed.

(** An update by [id] that leaves the keys alone, in a well-formed
    table. *)
Lemma updateRows_by_id now b photoId rows (f : PhotoRow.t -> PhotoRow.t) :
  (forall r, applyBody b r = Some (f r)) ->
  (forall r, PhotoRow.id (f r) = PhotoRow.id r
             /\ PhotoRow.image_path (f r) = PhotoRow.image_path r) ->
  uniqueKeys rows = true ->
  updateRows now b [FilterEq col_id photoId] rows
  = Some (map (fun r => if bool_decide (PhotoRow.id r = photoId)
                        then touch now (f r) else r) rows,
          map (fun r => touch now (f r))
              (List.filter (fun r => bool_decide (PhotoRow.id r = photoId)) rows)).
Proof.
  intros Hb Hk Hu. rewrite (updateRows_total now b _ rows f Hb).
  rewrite (map_ext _ (fun r => if bool_decide (PhotoRow.id r = photoId)
                               then touch now (f r) else r))
    by (intros r; rewrite matchAll_eq_id; reflexivity).
  rewrite (filter_ext _ _ (matchAll_eq_id photoId)).
  rewrite uniqueKeys_preserved, Hu; [reflexivity|].
  intros r. destruct (bool_decide (PhotoRow.id r = photoId)); [|auto].
  destruct (touch_keys now (f r)) as [-> ->]. apply Hk.
Qed.

Lemma filter_absent photoId (rows : list PhotoRow.t) :
  Forall (fun r => PhotoRow.id r <> photoId) rows ->
  List.filter (fun r => bool_decide (PhotoRow.id r = photoId)) rows = []
  /\ forall g, map (fun r => if bool_decide (PhotoRow.id r = photoId)
                             then g r else r) rows = rows.
Proof.
  induction 1 as [|r rows Hr _ [IH1 IH2]]; [auto|]. cbn.
  rewrite (bool_decide_eq_false_2 _ Hr). split; [exact IH1|].
  intros g. rewrite IH2. reflexivity.
Qed.

Lemma filter_present r (rows : list PhotoRow.t) :
  NoDup (map PhotoRow.id rows) -> In r rows ->
  List.filter (fun x => bool_decide (PhotoRow.id x = PhotoRow.id r)) rows = [r].
Proof.
  induction rows as [|x rows IH]; [intros _ []|]. cbn [map].
  rewrite NoDup_cons. intros [Hx Hn] [-> | Hin]; cbn.
  - rewrite bool_decide_eq_true_2 by reflexivity. f_equal.
    apply filter_absent. apply Forall_forall. intros y Hy He. apply Hx.
    rewrite <- He. apply list_elem_of_In, in_map, list_elem_of_In. exact Hy.
  - rewrite bool_decide_eq_false_2; [apply IH; assumption|].
    intros He. apply Hx. rewrite He. apply list_elem_of_In, in_map. exact Hin.
Qed.

Lemma uniqueKeys_NoDup rows :
  uniqueKeys rows = true -> NoDup (map PhotoRow.id rows).
Proof.
  unfold uniqueKeys. intros Hu. apply andb_true_iff in Hu as [Hu _].
  exact (proj1 (bool_decide_eq_true _) Hu).
Qed.

End Updates.

Section UpdateMetadata.
Context `{Runtime}.

Lemma updatePhotoMetadata_run s n w photoId metadata :
  isSupabaseConfigured = true ->
  run s n w (updatePhotoMetadata photoId metadata)
  = let body := bodyOf (cleanMetadata metadata) in
    let update := RowsUpdateSingle body [FilterEq col_id photoId] PHOTO_COLUMNS in
    match fault (s n) with
    | Some e => mkResult (Thrown (message e)) w [event update]
    | None =>
        match updateRows (server_now (s n)) body [FilterEq col_id photoId]
                (photos w) with
        | Some (rows, [r]) =>
            mkResult (Returned (photoOf r)) (setPhotos w rows) [event update]
        | Some (_, _) => mkResult (Thrown (message singleError)) w [event update]
        | None => mkResult (Thrown (message invalidError)) w [event update]
        end
    end.
Proof.
  intros Hc. unfold updatePhotoMetadata.
  rewrite (getSupabaseClient_configured Hc). cbn [bind await run handle]. unfold reach.
  destruct (fault (s n)) as [e|]; [reflexivity|].
  destruct (updateRows _ _ _ _) as [[rows [|r [|r' changed]]]|]; try reflexivity.
  unfold mapPhotoRow. rewrite (getSupabaseClient_configured Hc). reflexivity.
Qed.



(** Without a row of that id the update raises and changes nothing. *)
Lemma updatePhotoMetadata_absent s n w photoId metadata :
  isSupabaseConfigured = true ->
  Forall (fun r => PhotoRow.id r <> photoId) (photos w) ->
  exists msg,
    outcome (run s n w (updatePhotoMetadata photoId metadata)) = Thrown msg
    /\ final (run s n w (updatePhotoMetadata photoId metadata)) = w.
Proof.
  intros Hc Habs. rewrite updatePhotoMetadata_run by exact Hc. cbv zeta.
  destruct (fault (s n)); [eauto|].
  rewrite (updateRows_total _ _ _ _ (withMetadata (cleanMetadata metadata))
             (applyBody_metadata (cleanMetadata metadata))).
  destruct (uniqueKeys _); [|eauto].
  rewrite (filter_ext _ _ (matchAll_eq_id photoId)).
  rewrite (proj1 (filter_absent photoId (photos w) Habs)). cbn. eauto.
Qed.

End UpdateMetadata.


(** ** Soft delete and restore *)

Section SoftDelete.
Context `{Runtime}.

Lemma softDeletePhoto_run s n w photoId :
  isSupabaseConfigured = true ->
  run s n w (softDeletePhoto photoId)
  = let body := [(col_deleted_at, VText (iso (s n)))] in
    let trace := [event NowISOString;
                  event (RowsUpdate body [FilterEq col_id photoId])] in
    match fault (s (S n)) with
    | Some e => mkResult (Thrown (message e)) w trace
    | None =>
        match updateRows (server_now (s (S n))) body [FilterEq col_id photoId]
                (photos w) with
        | Some (rows, _) => mkResult (Returned tt) (setPhotos w rows) trace
        | None => mkResult (Thrown (message invalidError)) w trace
        end
    end.
Proof.
  intros Hc. unfold softDeletePhoto.
  rewrite (getSupabaseClient_configured Hc). cbn [bind await run handle]. unfold reach.
  destruct (fault (s (S n))) as [e|]; [reflexivity|].
  destruct (updateRows _ _ _ _) as [[rows changed]|]; reflexivity.
Qed.

Lemma restorePhoto_run s n w photoId :
  isSupabaseConfigured = true ->
  run s n w (restorePhoto photoId)
  = let body := [(col_deleted_at, VNull)] in
    let trace := [event (RowsUpdate body [FilterEq col_id photoId])] in
    match fault (s n) with
    | Some e => mkResult (Thrown (message e)) w trace
    | None =>
        match updateRows (server_now (s n)) body [FilterEq col_id photoId]
                (photos w) with
        | Some (rows, _) => mkResult (Returned tt) (setPhotos w rows) trace
        | None => mkResult (Thrown (message invalidError)) w trace
        end
    end.
Proof.
  intros Hc. unfold restorePhoto.
  rewrite (getSupabaseClient_configured Hc). cbn [bind await run handle]. unfold reach.
  destruct (fault (s n)) as [e|]; [reflexivity|].
  destruct (updateRows _ _ _ _) as [[rows changed]|]; reflexivity.
Qed.

Lemma setPhotos_same w : setPhotos w (photos w) = w.
Proof. destruct w. reflexivity. Qed.

End SoftDelete.


(** C10. On a well-formed table where no row has the id, an id in the
    form of the [uuid] column, [softDeletePhoto] and [restorePhoto]
    return normally when their update reaches the store, leaving the
    store as it was, whereas [updatePhotoMetadata] raises: the
    single-row error of the store when its update, with a shot date in
    the form of the [date] column, reaches it. *)
Theorem missing_row_update_is_silent `{Runtime} s n (w : World) photoId metadata :
  isSupabaseConfigured = true ->
  wellFormed w ->
  uuidLiteral photoId ->
  Forall (fun r => PhotoRow.id r <> photoId) (photos w) ->
  (fault (s (S n)) = None ->
   outcome (run s n w (softDeletePhoto photoId)) = Returned tt
   /\ final (run s n w (softDeletePhoto photoId)) = w)
  /\ (fault (s n) = None ->
      outcome (run s n w (restorePhoto photoId)) = Returned tt
      /\ final (run s n w (restorePhoto photoId)) = w)
  /\ (exists msg,
        outcome (run s n w (updatePhotoMetadata photoId metadata)) = Thrown msg)
  /\ (fault (s n) = None ->
      dateLiteral (PhotoMetadataInput.shot_date metadata) = true ->
      outcome (run s n w (updatePhotoMetadata photoId metadata))
      = Thrown (message singleError)).
Proof.
  intros Hc Hwf _ Habs. unfold wellFormed in Hwf.
  destruct (filter_absent photoId (photos w) Habs) as [Hnone Hsame].
  split; [|split; [|split]].
  - intros Hf. rewrite softDeletePhoto_run by exact Hc. cbv zeta. rewrite Hf.
    rewrite (updateRows_by_id _ _ photoId (photos w)
               (withDeletedAt (Some (iso (s n))))
               (applyBody_deleted_at (iso (s n)))
               (withDeletedAt_keys (Some (iso (s n)))) Hwf).
    rewrite Hsame. cbn [outcome final]. rewrite setPhotos_same. auto.
  - intros Hf. rewrite restorePhoto_run by exact Hc. cbv zeta. rewrite Hf.
    rewrite (updateRows_by_id _ _ photoId (photos w) (withDeletedAt None)
               applyBody_restore (withDeletedAt_keys None) Hwf).
    rewrite Hsame. cbn [outcome final]. rewrite setPhotos_same. auto.
  - destruct (updatePhotoMetadata_absent s n w photoId metadata Hc Habs)
      as (msg & Hmsg & _). eauto.
  - intros Hf _. rewrite updatePhotoMetadata_run by exact Hc. cbv zeta. rewrite Hf.
    rewrite (updateRows_by_id _ _ photoId (photos w)
               (withMetadata (cleanMetadata metadata))
               (applyBody_metadata (cleanMetadata metadata))
               (withMetadata_keys (cleanMetadata metadata)) Hwf).
    rewrite Hnone. reflexivity.
Qed.

(** ** Upload with compensation *)

Section Upload.
Context `{Runtime}.

Lemma handle_remove ch path w :
  handle ch (StorageRemove PHOTOS_BUCKET [path]) w
  = match fault ch with
    | Some e => (Err e, w)
    | None => (Ok tt, setObjects w (delete path (objects w)))
    end.
Proof.
  cbn [handle]. unfold reach.
  rewrite bool_decide_eq_true_2 by reflexivity. reflexivity.
Qed.

Lemma handle_upload ch path file contentType cacheControl w :
  handle ch (StorageUpload PHOTOS_BUCKET path file
               (mkOptions false contentType cacheControl)) w
  = match fault ch with
    | Some e => (Err e, w)
    | None =>
        match objects w !! path with
        | Some _ => (Err existsError, w)
        | None => (Ok tt, setObjects w (<[path := file]> (objects w)))
        end
    end.
Proof.
  cbn [handle]. unfold reach.
  rewrite bool_decide_eq_true_2 by reflexivity. reflexivity.
Qed.

Lemma insertRow_Err ch b rows e rows' :
  insertRow ch b rows = (Err e, rows') -> rows' = rows.
Proof.
  unfold insertRow.
  destruct (bodyText col_title b), (bodyText col_shot_date b),
    (bodyText col_image_path b); try (intros [= _ <-]; reflexivity).
  destruct (applyBody b _); [|intros [= _ <-]; reflexivity].
  destruct (uniqueKeys _); [discriminate | intros [= _ <-]; reflexivity].
Qed.

Lemma handle_insert_Err ch b columns w e w' :
  handle ch (RowsInsertSingle b columns) w = (Err e, w') -> w' = w.
Proof.
  cbn [handle]. unfold reach. destruct (fault ch); [intros [= _ <-]; reflexivity|].
  destruct (insertRow ch b (photos w)) as [r rows] eqn:E.
  intros [= -> <-]. rewrite (insertRow_Err _ _ _ _ _ E). apply setPhotos_same.
Qed.

Lemma uploadPhoto_run s n w file metadata userId :
  isSupabaseConfigured = true ->
  run s n w (uploadPhoto file metadata userId)
  = let key := storageKey userId (clock (s n)) (token (s (S n))) (file_name file) in
    let upload :=
      StorageUpload PHOTOS_BUCKET key file
        (mkOptions false (file_type file) (js "3600")) in
    let insert :=
      RowsInsertSingle
        (bodyOf (cleanMetadata metadata) ++ [(col_image_path, VText key)])
        PHOTO_COLUMNS in
    let cleanup := StorageRemove PHOTOS_BUCKET [key] in
    match handle (s (S (S n))) upload w with
    | (Err e, w1) =>
        mkResult (Thrown (message e)) w1
          [event DateNow; event RandomUUID; event upload]
    | (Ok _, w1) =>
        match handle (s (S (S (S n)))) insert w1 with
        | (Err e, w2) =>
            mkResult (Thrown (message e))
              (snd (handle (s (S (S (S (S n))))) cleanup w2))
              [event DateNow; event RandomUUID; event upload; event insert;
               event cleanup]
        | (Ok data, w2) =>
            mkResult (Returned (photoOf data)) w2
              [event DateNow; event RandomUUID; event upload; event insert]
        end
    end.
Proof.
  intros Hc. unfold uploadPhoto.
  rewrite (getSupabaseClient_configured Hc).
  cbn [bind await run].
  change (handle (s n) DateNow w) with (clock (s n), w). cbv beta iota zeta.
  cbn [bind run].
  change (handle (s (S n)) RandomUUID w) with (token (s (S n)), w).
  cbv beta iota zeta. cbn [bind run].
  set (key := storageKey _ _ _ _).
  destruct (handle (s (S (S n))) (StorageUpload _ _ _ _) w) as [[[]|e] w1];
    [|reflexivity].
  cbn [bind run outcome final calls].
  destruct (handle (s (S (S (S n)))) (RowsInsertSingle _ _) w1) as [[data|e] w2].
  - unfold mapPhotoRow. rewrite (getSupabaseClient_configured Hc). reflexivity.
  - cbn [bind run outcome final calls].
    destruct (handle (s (S (S (S (S n))))) (StorageRemove _ _) w2) as [r w3].
    reflexivity.
Qed.

End Upload.

(** C3, as it holds. When the upload fails, [uploadPhoto] raises the
    upload error after the upload call alone: no insert, no removal, the
    store unchanged. When the upload succeeds and the insert fails, it
    asks the store to remove the object at the generated key, ignores
    what that call answers, and raises the insert error; no row is
    added, and when the removal reaches the store no object remains at
    the key. *)
Theorem uploadPhoto_compensates `{Runtime} s n (w : World) file metadata userId :
  isSupabaseConfigured = true ->
  let key := storageKey userId (clock (s n)) (token (s (S n))) (file_name file) in
  let upload :=
    StorageUpload PHOTOS_BUCKET key file
      (mkOptions false (file_type file) (js "3600")) in
  let insert :=
    RowsInsertSingle
      (bodyOf (cleanMetadata metadata) ++ [(col_image_path, VText key)])
      PHOTO_COLUMNS in
  let cleanup := StorageRemove PHOTOS_BUCKET [key] in
  let res := run s n w (uploadPhoto file metadata userId) in
  (forall e w1,
      handle (s (S (S n))) upload w = (Err e, w1) ->
      outcome res = Thrown (message e)
      /\ calls res = [event DateNow; event RandomUUID; event upload]
      /\ final res = w)
  /\ (forall w1 e w2,
        handle (s (S (S n))) upload w = (Ok tt, w1) ->
        handle (s (S (S (S n)))) insert w1 = (Err e, w2) ->
        outcome res = Thrown (message e)
        /\ calls res
           = [event DateNow; event RandomUUID; event upload; event insert;
              event cleanup]
        /\ photos (final res) = photos w
        /\ (fault (s (S (S (S (S n))))) = None ->
            objects (final res) !! key = None)
        /\ (fault (s (S (S (S (S n))))) <> None ->
            objects (final res) !! key = Some file)).
Proof.
  intros Hc key upload insert cleanup res. subst res.
  rewrite uploadPhoto_run by exact Hc. cbv zeta.
  fold key. fold upload. fold insert. fold cleanup.
  split.
  - intros e w1 Hup. rewrite Hup. cbn [outcome final calls]. repeat split.
    unfold upload in Hup. rewrite handle_upload in Hup.
    destruct (fault (s (S (S n)))); [congruence|].
    destruct (objects w !! key); congruence.
  - intros w1 e w2 Hup Hins. rewrite Hup, Hins.
    pose proof (handle_insert_Err _ _ _ _ _ _ Hins) as ->.
    unfold upload in Hup. rewrite handle_upload in Hup.
    destruct (fault (s (S (S n)))); [discriminate|].
    destruct (objects w !! key) eqn:Hk; [discriminate|].
    injection Hup as <-.
    unfold cleanup. rewrite handle_remove. cbn [outcome final calls].
    repeat split.
    + destruct (fault (s (S (S (S (S n)))))); reflexivity.
    + intros ->. cbn. apply lookup_delete_eq.
    + intros Hf. destruct (fault (s (S (S (S (S n)))))); [|congruence].
      cbn. apply lookup_insert_eq.
Qed.

(** ** Permanent delete *)

Section PermanentDelete.
Context `{Runtime}.

Lemma handle_delete ch fs w :
  handle ch (RowsDelete fs) w
  = match fault ch with
    | Some e => (Err e, w)
    | None => (Ok tt, setPhotos w (deleteRows fs (photos w)))
    end.
Proof. reflexivity. Qed.

Lemma permanentlyDeletePhoto_run s n w photo :
  isSupabaseConfigured = true ->
  run s n w (permanentlyDeletePhoto photo)
  = match fault (s n) with
    | Some e =>
        if notFoundTest (message e) then rowPhase s n w photo
        else mkResult (Thrown (message e)) w
               [event (StorageRemove PHOTOS_BUCKET [Photo.image_path photo])]
    | None =>
        rowPhase s n
          (setObjects w (delete (Photo.image_path photo) (objects w))) photo
    end.
Proof.
  intros Hc. unfold permanentlyDeletePhoto, rowPhase.
  rewrite (getSupabaseClient_configured Hc).
  cbn [bind await run]. rewrite handle_remove.
  destruct (fault (s n)) as [e|].
  - destruct (notFoundTest (message e)); cbn [negb bind run]; [|reflexivity].
    rewrite handle_delete. destruct (fault (s (S n))); reflexivity.
  - cbn [bind run]. rewrite handle_delete. destruct (fault (s (S n))); reflexivity.
Qed.

Lemma deleteRows_by_id photoId rows :
  Forall (fun r => PhotoRow.id r <> photoId)
         (deleteRows [FilterEq col_id photoId] rows).
Proof.
  unfold deleteRows. apply Forall_forall. intros r Hr.
  apply list_elem_of_In, filter_In in Hr as [_ Hr].
  rewrite matchAll_eq_id in Hr. intros He.
  rewrite bool_decide_eq_true_2 in Hr by exact He. discriminate.
Qed.

End PermanentDelete.

(** C4. [permanentlyDeletePhoto] first asks for the removal of the object
    at [photo.image_path]. A failure whose message does not match
    "not found" is raised, the row delete is not attempted and the store
    is unchanged. A success, or a failure whose message matches
    "not found", leads to the delete of the row by id, whose failure is
    raised as it is and whose success leaves no row with that id.
    Hence in a second call on the same photo, whether the store answers
    the removal of the missing object by a success or by a not-found
    failure, the first phase does not raise: the row delete is issued,
    and only its failure can be raised. *)
Theorem permanentlyDeletePhoto_two_phases `{Runtime} s n (w : World) photo :
  isSupabaseConfigured = true ->
  let remove := StorageRemove PHOTOS_BUCKET [Photo.image_path photo] in
  let delete := RowsDelete [FilterEq col_id (Photo.id photo)] in
  let res := run s n w (permanentlyDeletePhoto photo) in
  (forall e,
      fault (s n) = Some e -> notFoundTest (message e) = false ->
      outcome res = Thrown (message e)
      /\ calls res = [event remove]
      /\ final res = w)
  /\ ((fault (s n) = None
       \/ exists e, fault (s n) = Some e /\ notFoundTest (message e) = true) ->
      calls res = [event remove; event delete]
      /\ (forall e, fault (s (S n)) = Some e ->
            outcome res = Thrown (message e)
            /\ photos (final res) = photos w)
      /\ (fault (s (S n)) = None ->
            outcome res = Returned tt
            /\ Forall (fun r => PhotoRow.id r <> Photo.id photo)
                 (photos (final res))))
  /\ (fault (s n) = None ->
      objects (final res) !! Photo.image_path photo = None)
  /\ (forall m,
        fault (s m) = None
        \/ (exists e, fault (s m) = Some e /\ notFoundTest (message e) = true) ->
        let again := run s m (final res) (permanentlyDeletePhoto photo) in
        calls again = [event remove; event delete]
        /\ (outcome again = Returned tt
            \/ exists e, fault (s (S m)) = Some e
                         /\ outcome again = Thrown (message e))).
Proof.
  intros Hc remove delete res.
  assert (Hphase : forall m w0,
             fault (s m) = None
             \/ (exists e, fault (s m) = Some e /\ notFoundTest (message e) = true) ->
             exists w1,
               run s m w0 (permanentlyDeletePhoto photo) = rowPhase s m w1 photo
               /\ photos w1 = photos w0
               /\ (fault (s m) = None ->
                   objects w1 !! Photo.image_path photo = None)).
  { intros m w0 Hm. rewrite permanentlyDeletePhoto_run by exact Hc.
    destruct Hm as [-> | (e & -> & ->)].
    - eexists. split; [reflexivity|]. split; [reflexivity|].
      intros _. cbn. apply lookup_delete_eq.
    - exists w0. split; [reflexivity|]. split; [reflexivity|]. discriminate. }
  split; [|split; [|split]].
  - intros e He Hnf. subst res.
    rewrite permanentlyDeletePhoto_run by exact Hc. rewrite He, Hnf. auto.
  - intros Hn. destruct (Hphase n w Hn) as (w1 & Hrun & Hrows & _).
    subst res. rewrite Hrun. unfold rowPhase. split; [|split].
    + destruct (fault (s (S n))); reflexivity.
    + intros e ->. cbn. auto.
    + intros ->. cbn. split; [reflexivity|]. apply deleteRows_by_id.
  - intros Hf. destruct (Hphase n w (or_introl Hf)) as (w1 & Hrun & _ & Hobj).
    subst res. rewrite Hrun. unfold rowPhase.
    destruct (fault (s (S n))); cbn; exact (Hobj Hf).
  - intros m Hm again. subst again.
    destruct (Hphase m (final res) Hm) as (w1 & Hrun & _ & _).
    rewrite Hrun. unfold rowPhase.
    destruct (fault (s (S m))) as [e|]; cbn; split; eauto.
Qed.

(** ** Metadata normalization, for create and update alike *)

(** C1. [cleanMetadata] trims the title; turns a caption that is empty
    or only white space into null and any other caption into its trimmed
    form; trims every tag and drops those that are empty afterwards, one
    tag per remaining input tag and in the same order (no splitting);
    passes [shot_date] through. On the reference example it yields
    title "Dawn", caption null and tags ["a"; "b,b"]. Both the update
    request of [updatePhotoMetadata] and the insert request of
    [uploadPhoto] carry the payload it returns. *)
Theorem cleanMetadata_normalizes `{Runtime} (metadata : PhotoMetadataInput.t) :
  let payload := cleanMetadata metadata in
  trimmedOf (PhotoMetadataInput.title metadata) (Payload.title payload)
  /\ (whitespaceOnly (PhotoMetadataInput.caption metadata) = true
      /\ Payload.caption payload = None
      \/ whitespaceOnly (PhotoMetadataInput.caption metadata) = false
         /\ exists t, t <> []
              /\ trimmedOf (PhotoMetadataInput.caption metadata) t
              /\ Payload.caption payload = Some t)
  /\ Forall2 trimmedOf
       (List.filter (fun tag => negb (whitespaceOnly tag))
          (PhotoMetadataInput.tags metadata))
       (Payload.tags payload)
  /\ Forall (fun tag => tag <> []) (Payload.tags payload)
  /\ Payload.shot_date payload = PhotoMetadataInput.shot_date metadata
  /\ (forall d,
        cleanMetadata
          (PhotoMetadataInput.mk (js "  Dawn  ") (js "   ")
             [js " a "; js ""; js " b,b "] d)
        = Payload.mk (js "Dawn") None [js "a"; js "b,b"] d)
  /\ (forall s n w photoId,
        isSupabaseConfigured = true ->
        calls (run s n w (updatePhotoMetadata photoId metadata))
        = [event (RowsUpdateSingle (bodyOf payload) [FilterEq col_id photoId]
                    PHOTO_COLUMNS)])
  /\ (forall s n w file userId,
        isSupabaseConfigured = true ->
        let key :=
          storageKey userId (clock (s n)) (token (s (S n))) (file_name file) in
        fst (handle (s (S (S n)))
               (StorageUpload PHOTOS_BUCKET key file
                  (mkOptions false (file_type file) (js "3600"))) w) = Ok tt ->
        In (event (RowsInsertSingle
                     (bodyOf payload ++ [(col_image_path, VText key)])
                     PHOTO_COLUMNS))
           (calls (run s n w (uploadPhoto file metadata userId)))).
Proof.
  intros payload.
  assert (Hcap : forall ca, truthy (trim ca) = true -> trim ca <> []).
  { intros ca Ht Hn. rewrite Hn in Ht. discriminate. }
  split; [apply trim_trimmedOf|].
  split.
  { subst payload. unfold cleanMetadata. cbn [Payload.caption].
    pose proof (trim_nil (PhotoMetadataInput.caption metadata)) as Ht.
    destruct (whitespaceOnly (PhotoMetadataInput.caption metadata));
      rewrite Ht; cbn [negb].
    - left. auto.
    - right. split; [reflexivity|]. eexists.
      split; [apply Hcap; exact Ht|]. split; [apply trim_trimmedOf | reflexivity]. }
  split; [apply cleaned_tags|].
  split; [apply cleaned_tags|].
  split; [reflexivity|].
  split; [intros d; reflexivity|].
  split.
  - intros s n w photoId Hc.
    rewrite updatePhotoMetadata_run by exact Hc. cbv zeta. fold payload.
    destruct (fault (s n)); [reflexivity|].
    destruct (updateRows _ _ _ _) as [[rows [|r [|r' changed]]]|]; reflexivity.
  - intros s n w file userId Hc key Hup.
    rewrite uploadPhoto_run by exact Hc. cbv zeta. fold payload. fold key.
    destruct (handle (s (S (S n))) (StorageUpload _ _ _ _) w) as [[[]|e] w1];
      [|discriminate Hup].
    destruct (handle (s (S (S (S n)))) (RowsInsertSingle _ _) w1) as [[data|e] w2];
      cbn [calls]; do 3 right; left; reflexivity.
Qed.

(** * Further properties *)

(** ** The admin form: tags typed as one string *)

Section FormTags.

Lemma trim_fixed (t : jsstring) : noOuterSpace t -> trim t = t.
Proof.
  intros Ht. apply (trimmedOf_unique t); [apply trim_trimmedOf|].
  exists [], []. rewrite app_nil_r. auto.
Qed.

Lemma trim_noOuterSpace (s : jsstring) : noOuterSpace (trim s).
Proof. destruct (trim_trimmedOf s) as (pre & post & _ & _ & _ & Hn). exact Hn. Qed.

Lemma trim_In (s : jsstring) c : In c (trim s) -> In c s.
Proof.
  destruct (trim_trimmedOf s) as (pre & post & Hs & _).
  intros Hc. rewrite Hs. apply in_or_app. right. apply in_or_app. left. exact Hc.
Qed.

Lemma split_nonempty sep (s : jsstring) : split sep s <> [].
Proof.
  induction s as [|c s IH]; cbn; [discriminate|].
  destruct (c =? sep); [discriminate|].
  destruct (split sep s); [congruence | discriminate].
Qed.

Lemma split_app_sep sep (a b : jsstring) :
  split sep (a ++ sep :: b) = split sep a ++ split sep b.
Proof.
  induction a as [|c a IH]; cbn.
  - rewrite N.eqb_refl. reflexivity.
  - destruct (c =? sep); [rewrite IH; reflexivity|].
    rewrite IH. pose proof (split_nonempty sep a) as Hne.
    destruct (split sep a); [congruence | reflexivity].
Qed.

Lemma split_no_sep sep (t : jsstring) : ~ In sep t -> split sep t = [t].
Proof.
  induction t as [|c t IH]; cbn; [reflexivity|]. intros Hn.
  destruct (N.eqb_spec c sep) as [->|_]; [exfalso; apply Hn; auto|].
  rewrite IH by (intros Hi; apply Hn; auto). reflexivity.
Qed.

Lemma split_pieces sep (s : jsstring) :
  Forall (fun piece => ~ In sep piece) (split sep s).
Proof.
  induction s as [|c s IH]; cbn.
  - constructor; [intros []|constructor].
  - destruct (N.eqb_spec c sep) as [->|Hne].
    + constructor; [intros [] | exact IH].
    + destruct (split sep s) as [|piece pieces]; inversion IH; subst.
      * constructor; [|constructor]. intros [He|[]]. congruence.
      * constructor; [|assumption]. intros [He|Hi]; [congruence | contradiction].
Qed.

Lemma trim_after_space (p : jsstring) : trim (32 :: p) = trim p.
Proof. reflexivity. Qed.

Lemma split_after_space (t : jsstring) :
  map (fun tag => trim tag) (split comma (32 :: t))
  = map (fun tag => trim tag) (split comma t).
Proof.
  cbn. pose proof (split_nonempty comma t) as Hne.
  destruct (split comma t) as [|piece pieces]; [congruence|].
  cbn [map]. rewrite trim_after_space. reflexivity.
Qed.

Lemma parseTags_formTag (value : jsstring) : Forall formTag (parseTags value).
Proof.
  unfold parseTags. apply Forall_forall. intros tag Ht.
  apply list_elem_of_In, filter_In in Ht as [Ht Hne].
  apply in_map_iff in Ht as (piece & <- & Hp).
  split; [|split].
  - intros He. rewrite He in Hne. discriminate.
  - apply trim_noOuterSpace.
  - intros Hc. apply trim_In in Hc.
    pose proof (split_pieces comma value) as Hall.
    rewrite Forall_forall in Hall. apply (Hall piece); [|exact Hc].
    apply list_elem_of_In. exact Hp.
Qed.

Lemma parseTags_fixed (tag : jsstring) : formTag tag -> parseTags tag = [tag].
Proof.
  intros (Hne & Hsp & Hc). unfold parseTags.
  rewrite split_no_sep by exact Hc. cbn.
  rewrite trim_fixed by exact Hsp. destruct tag; [congruence | reflexivity].
Qed.

Lemma parseTags_join (tags : list jsstring) :
  parseTags (join (js ", ") tags) = concat (map parseTags tags).
Proof.
  induction tags as [|t rest IH]; [reflexivity|].
  destruct rest as [|t' rest].
  - cbn [join map concat]. rewrite app_nil_r. reflexivity.
  - change (join (js ", ") (t :: t' :: rest))
      with (t ++ comma :: 32 :: join (js ", ") (t' :: rest)).
    unfold parseTags at 1. rewrite split_app_sep, map_app, List.filter_app.
    rewrite split_after_space. fold (parseTags (join (js ", ") (t' :: rest))).
    rewrite IH. reflexivity.
Qed.

Lemma concat_singletons (tags : list jsstring) :
  Forall formTag tags -> concat (map parseTags tags) = tags.
Proof.
  induction 1 as [|t rest Ht _ IH]; [reflexivity|].
  cbn. rewrite (parseTags_fixed t Ht), IH. reflexivity.
Qed.

Lemma clean_formTags (tags : list jsstring) :
  Forall formTag tags ->
  List.filter truthy (map (fun tag => trim tag) tags) = tags.
Proof.
  induction 1 as [|t rest (Hne & Hsp & _) _ IH]; [reflexivity|].
  cbn. rewrite (trim_fixed t Hsp), IH. destruct t; [congruence | reflexivity].
Qed.

Lemma clean_edit_form (photo : Photo.t) :
  cleanMetadata (toMetadataInput (editFormOf photo))
  = Payload.mk (trim (Photo.title photo))
      (if truthy (trim (default [] (Photo.caption photo)))
       then Some (trim (default [] (Photo.caption photo))) else None)
      (List.filter truthy
         (map (fun tag => trim tag)
            (parseTags (join (js ", ") (Photo.tags photo)))))
      (Photo.shot_date photo).
Proof. reflexivity. Qed.

End FormTags.

(** X1. Whatever is typed in the tags field, [parseTags] gives tags that
    are not empty, have no white space around them and contain no comma;
    [cleanMetadata] leaves the tags of [toMetadataInput] as they are. *)
Theorem parseTags_gives_form_tags (formState : PhotoFormState.t) :
  Forall formTag (parseTags (PhotoFormState.tags formState))
  /\ Payload.tags (cleanMetadata (toMetadataInput formState))
     = parseTags (PhotoFormState.tags formState).
Proof.
  split; [apply parseTags_formTag|].
  cbn. apply clean_formTags, parseTags_formTag.
Qed.

(** X2. Reading back the tags that [beginEdit] joined with ", " parses
    every tag on its own: tags as the form produces them come back
    unchanged, a tag that holds a comma comes back in pieces, and no tags
    give no tags. *)
Theorem parseTags_of_joined_tags (tags : list jsstring) :
  parseTags (join (js ", ") tags) = concat (map parseTags tags)
  /\ (Forall formTag tags -> parseTags (join (js ", ") tags) = tags)
  /\ (forall a b, formTag a -> formTag b ->
        parseTags (join (js ", ") [a ++ comma :: b]) = [a; b])
  /\ parseTags (join (js ", ") []) = [].
Proof.
  split; [apply parseTags_join|]. split; [|split].
  - intros Hf. rewrite parseTags_join. apply concat_singletons. exact Hf.
  - intros a b Ha Hb. cbn [join]. unfold parseTags.
    rewrite split_app_sep, map_app, List.filter_app.
    fold (parseTags a). fold (parseTags b).
    rewrite (parseTags_fixed a Ha), (parseTags_fixed b Hb). reflexivity.
  - reflexivity.
Qed.

(** The payload made from a form comes back from the edit form of a
    photo that holds it. *)
Lemma edit_form_payload (formState : PhotoFormState.t) (photo : Photo.t) :
  let payload := cleanMetadata (toMetadataInput formState) in
  Photo.title photo = Payload.title payload ->
  Photo.caption photo = Payload.caption payload ->
  Photo.tags photo = Payload.tags payload ->
  Photo.shot_date photo = Payload.shot_date payload ->
  cleanMetadata (toMetadataInput (editFormOf photo)) = payload.
Proof.
  intros payload Hti Hca Htg Hsd.
  assert (Hf : Forall formTag (Payload.tags payload)).
  { replace (Payload.tags payload)
      with (parseTags (PhotoFormState.tags formState))
      by (symmetry; cbn; apply clean_formTags, parseTags_formTag).
    apply parseTags_formTag. }
  rewrite clean_edit_form, Hti, Hca, Htg, Hsd.
  rewrite parseTags_join, (concat_singletons _ Hf), (clean_formTags _ Hf).
  destruct payload as [ti ca tg sd] eqn:Hp.
  cbn [Payload.title Payload.caption Payload.tags Payload.shot_date].
  injection Hp as Hti' Hca' _ _.
  assert (Ht : trim ti = ti).
  { rewrite <- Hti'. apply trim_fixed, trim_noOuterSpace. }
  assert (Hc : (if truthy (trim (default [] ca))
                then Some (trim (default [] ca)) else None) = ca).
  { rewrite <- Hca'.
    destruct (truthy (trim (PhotoFormState.caption formState))) eqn:E; cbv [default from_option id].
    - rewrite (trim_fixed (trim _)) by apply trim_noOuterSpace. rewrite E. reflexivity.
    - reflexivity. }
  rewrite Ht, Hc. reflexivity.
Qed.

Lemma same_id_same_row (rows : list PhotoRow.t) x r :
  NoDup (map PhotoRow.id rows) -> In x rows -> In r rows ->
  PhotoRow.id x = PhotoRow.id r -> x = r.
Proof.
  induction rows as [|a rows IH]; [intros _ []|]. cbn [map].
  rewrite NoDup_cons. intros [Ha Hn] [->|Hx] [->|Hr] He; auto.
  - exfalso. apply Ha. rewrite He. apply list_elem_of_In, in_map. exact Hr.
  - exfalso. apply Ha. rewrite <- He. apply list_elem_of_In, in_map. exact Hx.
Qed.

Lemma withMetadata_twice p r : withMetadata p (withMetadata p r) = withMetadata p r.
Proof. destruct r. reflexivity. Qed.

(** Saving the edit form of a row written from a form. *)
Lemma edit_form_saved `{Runtime} s n (w : World) formState r0 :
  isSupabaseConfigured = true ->
  wellFormed w ->
  fault (s n) = None ->
  let payload := cleanMetadata (toMetadataInput formState) in
  let row := withMetadata payload r0 in
  In row (photos w) ->
  let edited := toMetadataInput (editFormOf (photoOf row)) in
  let res := run s n w (updatePhotoMetadata (PhotoRow.id row) edited) in
  cleanMetadata edited = payload
  /\ outcome res = Returned (photoOf (touch (server_now (s n)) row))
  /\ photos (final res)
     = map (fun x => if bool_decide (PhotoRow.id x = PhotoRow.id row)
                     then touch (server_now (s n)) x else x) (photos w)
  /\ objects (final res) = objects w.
Proof.
  intros Hc Hwf Hf payload row Hin edited res.
  assert (Hclean : cleanMetadata edited = payload).
  { apply edit_form_payload; subst row; destruct r0; reflexivity. }
  split; [exact Hclean|].
  subst res. rewrite updatePhotoMetadata_run by exact Hc. cbv zeta.
  rewrite Hf, Hclean.
  rewrite (updateRows_by_id _ _ (PhotoRow.id row) (photos w) (withMetadata payload)
             (applyBody_metadata payload) (withMetadata_keys payload) Hwf).
  rewrite (filter_present row (photos w) (uniqueKeys_NoDup _ Hwf) Hin).
  assert (Hsame : withMetadata payload row = row)
    by (subst row; apply withMetadata_twice).
  cbn [map]. rewrite Hsame. cbn [outcome final photos objects setPhotos].
  split; [reflexivity|]. split; [|reflexivity].
  apply map_ext_in. intros x Hx.
  destruct (bool_decide_reflect (PhotoRow.id x = PhotoRow.id row)) as [He|_];
    [|reflexivity].
  rewrite (same_id_same_row (photos w) x row (uniqueKeys_NoDup _ Hwf) Hx Hin He).
  rewrite Hsame. reflexivity.
Qed.

(** X3. What the admin form saved can be opened for editing and saved
    again without any change: for a row written from any form, the edit
    form of its photo is normalized to the payload the row holds, and
    saving it (well-formed table, the call reaching the store) returns
    the photo of that row and changes nothing in the table but the
    [updated_at] of that row. *)
Theorem edit_form_round_trip `{Runtime} s n (w : World) formState r0 :
  isSupabaseConfigured = true ->
  wellFormed w ->
  fault (s n) = None ->
  let payload := cleanMetadata (toMetadataInput formState) in
  let row := withMetadata payload r0 in
  In row (photos w) ->
  let edited := toMetadataInput (editFormOf (photoOf row)) in
  let res := run s n w (updatePhotoMetadata (PhotoRow.id row) edited) in
  cleanMetadata edited = payload
  /\ outcome res = Returned (photoOf (touch (server_now (s n)) row))
  /\ photos (final res)
     = map (fun x => if bool_decide (PhotoRow.id x = PhotoRow.id row)
                     then touch (server_now (s n)) x else x) (photos w)
  /\ objects (final res) = objects w.
Proof. exact (edit_form_saved s n w formState r0). Qed.

(** ** Listings against each other *)

Section ListingsTogether.
Context `{Runtime}.

Lemma filter_is_null_active rows :
  List.filter (matchAll [FilterIsNull col_deleted_at]) rows
  = List.filter isActive rows.
Proof. apply filter_ext, matchAll_is_null. Qed.

Lemma fetchAdminPhotos_active s n w :
  isSupabaseConfigured = true -> fault (s n) = None ->
  outcome (run s n w (fetchAdminPhotos active))
  = Returned (map photoOf (activeSorted w)).
Proof.
  intros Hc Hf. rewrite fetchAdminPhotos_run by exact Hc. cbv zeta. rewrite Hf.
  unfold execSelect, sliceRange, activeSorted. cbn [sel_range sel_order sel_filters].
  rewrite filter_is_null_active. reflexivity.
Qed.

Lemma fetchAdminPhotos_trash s n w :
  isSupabaseConfigured = true -> fault (s n) = None ->
  outcome (run s n w (fetchAdminPhotos trash))
  = Returned
      (map photoOf
         (merge_sort (precedes [(ord_shot_date, false); (ord_created_at, false)])
            (List.filter (fun r => negb (isActive r)) (photos w)))).
Proof.
  intros Hc Hf. rewrite fetchAdminPhotos_run by exact Hc. cbv zeta. rewrite Hf.
  unfold execSelect, sliceRange. cbn [sel_range sel_order sel_filters].
  rewrite (filter_ext _ _ matchAll_not_is_null). reflexivity.
Qed.

Lemma fetchPublicPhotos_slice s n w from to :
  isSupabaseConfigured = true -> fault (s n) = None ->
  (0 <= from)%Z -> (from <= to + 1)%Z ->
  outcome (run s n w (fetchPublicPhotos from to))
  = Returned
      (take (Z.to_nat (to - from + 1))
         (drop (Z.to_nat from) (map photoOf (activeSorted w)))).
Proof.
  intros Hc Hf Hfrom Hto. rewrite fetchPublicPhotos_run by exact Hc.
  cbv zeta. rewrite Hf.
  unfold execSelect, sliceRange, activeSorted. cbn [sel_range sel_order sel_filters].
  rewrite filter_is_null_active.
  replace ((from <? 0) || (to + 1 <? from))%Z with false
    by (symmetry; apply orb_false_iff; split; apply Z.ltb_ge; lia).
  cbn [outcome]. rewrite skipn_map, firstn_map. reflexivity.
Qed.

Lemma filter_split {A} (p : A -> bool) (l : list A) :
  List.filter p l ++ List.filter (fun a => negb (p a)) l ≡ₚ l.
Proof.
  induction l as [|a l IH]; cbn; [reflexivity|].
  destruct (p a); cbn.
  - constructor. exact IH.
  - rewrite <- Permutation_middle. constructor. exact IH.
Qed.

(** A read, whatever it is answered, leaves the store as it was. *)
Lemma run_listing_final s n w (q : SelectQuery) :
  final (run s n w (r <- await (RowsSelect q) ;;
                    match r with
                    | Err error => Throw (message error)
                    | Ok data => mapProg mapPhotoRow data
                    end)) = w.
Proof.
  cbn [await bind run handle]. unfold reach.
  destruct (fault (s n)) as [e|]; [reflexivity|].
  destruct (execSelect q (photos w)) as [data|e]; [|reflexivity].
  cbn [final]. generalize (S n). induction data as [|r data IH]; intros k.
  - reflexivity.
  - cbn [mapProg]. unfold mapPhotoRow at 1. unfold getSupabaseClient.
    destruct (negb isSupabaseConfigured); [reflexivity|].
    cbn [bind]. rewrite run_bind.
    destruct (outcome (run s k w (mapProg mapPhotoRow data))) eqn:E;
      cbn [final]; [|apply IH].
    cbn. apply IH.
Qed.

End ListingsTogether.

(** X4. The reads never change the store: whatever the configuration
    and whatever the calls are answered, after [fetchPublicPhotos],
    [fetchAdminPhotos] or a page load of the home page the table and
    the objects are what they were. *)
Theorem reads_leave_the_store `{Runtime} s n (w : World) :
  (forall from to, final (run s n w (fetchPublicPhotos from to)) = w)
  /\ (forall mode, final (run s n w (fetchAdminPhotos mode)) = w)
  /\ (forall st, final (run s n w (loadPage st)) = w).
Proof.
  assert (Hpub : forall from to, final (run s n w (fetchPublicPhotos from to)) = w).
  { intros from to. unfold fetchPublicPhotos, getSupabaseClient.
    destruct (negb isSupabaseConfigured); [reflexivity|]. cbn [bind].
    apply run_listing_final. }
  split; [exact Hpub|]. split.
  - intros mode. unfold fetchAdminPhotos, getSupabaseClient.
    destruct (negb isSupabaseConfigured); [reflexivity|]. cbn [bind]. cbv zeta.
    destruct mode; apply run_listing_final.
  - intros st. unfold loadPage.
    destruct (negb isSupabaseConfigured || negb (hasMore st)); [reflexivity|].
    cbv zeta. rewrite run_catch, run_bind.
    destruct (outcome (run s n w (fetchPublicPhotos _ _))) eqn:E; cbn; apply Hpub.
Qed.

(** X5. When both reach the store, the listing of the active photos and
    the listing of the trash share out the stored photos: together they
    hold every stored row once, and no photo is in both. *)
Theorem admin_listings_partition `{Runtime} s n m (w : World) :
  isSupabaseConfigured = true ->
  fault (s n) = None -> fault (s m) = None ->
  exists inActive inTrash,
    outcome (run s n w (fetchAdminPhotos active)) = Returned inActive
    /\ outcome (run s m w (fetchAdminPhotos trash)) = Returned inTrash
    /\ inActive ++ inTrash ≡ₚ map photoOf (photos w)
    /\ (length inActive + length inTrash = length (photos w))%nat
    /\ forall p, In p inActive -> In p inTrash -> False.
Proof.
  intros Hc Hn Hm. eexists. eexists.
  split; [apply fetchAdminPhotos_active; assumption|].
  split; [apply fetchAdminPhotos_trash; assumption|].
  assert (Hp : map photoOf (activeSorted w)
               ++ map photoOf
                    (merge_sort
                       (precedes [(ord_shot_date, false); (ord_created_at, false)])
                       (List.filter (fun r => negb (isActive r)) (photos w)))
               ≡ₚ map photoOf (photos w)).
  { rewrite <- map_app. apply Permutation_map. unfold activeSorted.
    rewrite !merge_sort_Permutation. apply filter_split. }
  split; [exact Hp|]. split.
  - rewrite <- length_app. rewrite (Permutation_length Hp). apply length_map.
  - intros p Ha Ht.
    apply in_map_iff in Ha as (r1 & <- & Hr1).
    apply in_map_iff in Ht as (r2 & He & Hr2).
    apply (Permutation_in _ (merge_sort_Permutation _ _)) in Hr1.
    apply (Permutation_in _ (merge_sort_Permutation _ _)) in Hr2.
    apply filter_In in Hr1 as [_ H1]. apply filter_In in Hr2 as [_ H2].
    apply (f_equal Photo.deleted_at) in He. cbn in He.
    unfold isActive in H1, H2. rewrite He in H2.
    destruct (PhotoRow.deleted_at r1); discriminate.
Qed.

(** X6. A page of the public feed is the segment of the admin listing of
    active photos at the same positions (stored photos with distinct
    sort pairs, so that the order of the rows is determined). *)
Theorem public_page_is_segment `{Runtime} s n m (w : World) from to :
  isSupabaseConfigured = true ->
  NoDup (map sortPair (photos w)) ->
  fault (s n) = None -> fault (s m) = None ->
  (0 <= from)%Z -> (from <= to + 1)%Z ->
  exists all,
    outcome (run s m w (fetchAdminPhotos active)) = Returned all
    /\ outcome (run s n w (fetchPublicPhotos from to))
       = Returned (take (Z.to_nat (to - from + 1)) (drop (Z.to_nat from) all)).
Proof.
  intros Hc _ Hn Hm Hfrom Hto. eexists.
  split; [apply fetchAdminPhotos_active; assumption|].
  apply fetchPublicPhotos_slice; assumption.
Qed.

(** X7. Consecutive ranges of the public feed fit together: the photos
    of [from..mid] followed by those of [mid+1..to] are the photos of
    [from..to], nothing twice and nothing left out (the store unchanged
    in between, distinct sort pairs). *)
Theorem public_pages_concatenate `{Runtime} s n1 n2 n3 (w : World) from mid to :
  isSupabaseConfigured = true ->
  NoDup (map sortPair (photos w)) ->
  fault (s n1) = None -> fault (s n2) = None -> fault (s n3) = None ->
  (0 <= from)%Z -> (from <= mid + 1)%Z -> (mid <= to)%Z ->
  exists first second,
    outcome (run s n1 w (fetchPublicPhotos from mid)) = Returned first
    /\ outcome (run s n2 w (fetchPublicPhotos (mid + 1) to)) = Returned second
    /\ outcome (run s n3 w (fetchPublicPhotos from to)) = Returned (first ++ second).
Proof.
  intros Hc _ H1 H2 H3 Hfrom Hmid Hto. eexists. eexists.
  split; [apply fetchPublicPhotos_slice; assumption|].
  split; [apply fetchPublicPhotos_slice; try assumption; lia|].
  rewrite fetchPublicPhotos_slice by (try assumption; lia). f_equal.
  set (l := map photoOf (activeSorted w)).
  replace (drop (Z.to_nat (mid + 1)) l)
    with (drop (Z.to_nat (mid - from + 1)) (drop (Z.to_nat from) l))
    by (rewrite drop_drop; f_equal; lia).
  rewrite take_take_drop. f_equal. lia.
Qed.

(** ** The client that is not configured *)

(** X8. Without the two environment values no operation of the
    repository sends a request: each raises the configuration message
    and the store is what it was; the home page loads nothing. *)
Theorem unconfigured_client_sends_nothing `{Runtime} s n (w : World) :
  isSupabaseConfigured = false ->
  (forall from to,
      run s n w (fetchPublicPhotos from to)
      = mkResult (Thrown notConfiguredMessage) w [])
  /\ (forall mode,
        run s n w (fetchAdminPhotos mode)
        = mkResult (Thrown notConfiguredMessage) w [])
  /\ (forall file metadata userId,
        run s n w (uploadPhoto file metadata userId)
        = mkResult (Thrown notConfiguredMessage) w [])
  /\ (forall photoId metadata,
        run s n w (updatePhotoMetadata photoId metadata)
        = mkResult (Thrown notConfiguredMessage) w [])
  /\ (forall photoId,
        run s n w (softDeletePhoto photoId)
        = mkResult (Thrown notConfiguredMessage) w []
        /\ run s n w (restorePhoto photoId)
           = mkResult (Thrown notConfiguredMessage) w [])
  /\ (forall photo,
        run s n w (permanentlyDeletePhoto photo)
        = mkResult (Thrown notConfiguredMessage) w [])
  /\ (forall st, run s n w (loadPage st) = mkResult (Returned st) w []).
Proof.
  intros Hc.
  assert (Hg : getSupabaseClient = Throw notConfiguredMessage)
    by (unfold getSupabaseClient; rewrite Hc; reflexivity).
  repeat split.
  - intros from to. unfold fetchPublicPhotos. rewrite Hg. reflexivity.
  - intros mode. unfold fetchAdminPhotos. rewrite Hg. reflexivity.
  - intros file metadata userId. unfold uploadPhoto. rewrite Hg. reflexivity.
  - intros photoId metadata. unfold updatePhotoMetadata. rewrite Hg. reflexivity.
  - unfold softDeletePhoto. rewrite Hg. reflexivity.
  - unfold restorePhoto. rewrite Hg. reflexivity.
  - intros photo. unfold permanentlyDeletePhoto. rewrite Hg. reflexivity.
  - intros st. unfold loadPage. rewrite Hc. reflexivity.
Qed.

(** ** The home page feed *)

Section Feed.
Context `{Runtime}.

Lemma fetchPublicPhotos_final s n w from to :
  final (run s n w (fetchPublicPhotos from to)) = w.
Proof.
  unfold fetchPublicPhotos, getSupabaseClient.
  destruct (negb isSupabaseConfigured); [reflexivity|]. cbn [bind].
  apply run_listing_final.
Qed.

Lemma loadPage_final s n w st : final (run s n w (loadPage st)) = w.
Proof.
  unfold loadPage.
  destruct (negb isSupabaseConfigured || negb (hasMore st)); [reflexivity|].
  cbv zeta. rewrite run_catch, run_bind.
  destruct (outcome (run s n w (fetchPublicPhotos _ _))) eqn:E; cbn;
    apply fetchPublicPhotos_final.
Qed.

Lemma sameDeps_refl st : sameDeps st st = true.
Proof. unfold sameDeps. rewrite Z.eqb_refl. destruct (hasMore st); reflexivity. Qed.

(** An exhausted feed asks nothing more. *)
Lemma scroll_exhausted s n w k st :
  hasMore st = false ->
  run s n w (scroll k st) = mkResult (Returned st) w [].
Proof.
  intros Hm. destruct k as [|k]; [reflexivity|].
  cbn [scroll]. unfold loadPage. rewrite Hm, orb_true_r. cbn [bind].
  assert (Ho : onIntersect st = st) by (unfold onIntersect; rewrite Hm; reflexivity).
  rewrite Ho, sameDeps_refl. reflexivity.
Qed.

(** The state after [j] full pages have been shown. *)
Lemma scroll_from s w (all : list Photo.t) :
  isSupabaseConfigured = true ->
  (forall i, fault (s i) = None) ->
  all = map photoOf (activeSorted w) ->
  forall k j n,
    (9 * j <= length all)%nat ->
    exists st,
      outcome (run s n w (scroll k (mkHome (take (9 * j) all) (Z.of_nat j)
                                      true false None)))
      = Returned st
      /\ home_photos st = take (9 * (j + k)) all
      /\ errorMessage st = None
      /\ isLoading st = false
      /\ ((length all < 9 * (j + k))%nat -> hasMore st = false).
Proof.
  intros Hc Hs Hall. induction k as [|k IH]; intros j n Hj.
  - eexists. split; [reflexivity|]. cbn [home_photos errorMessage isLoading hasMore].
    rewrite Nat.add_0_r. repeat split. intros Hlt. lia.
  - cbn [scroll]. rewrite run_bind.
    set (st := mkHome (take (9 * j) all) (Z.of_nat j) true false None).
    assert (Hb : outcome (run s n w (fetchPublicPhotos (page st * PAGE_SIZE)
                                       (page st * PAGE_SIZE + PAGE_SIZE - 1)))
                 = Returned (take 9 (drop (9 * j) all))).
    { rewrite fetchPublicPhotos_slice; try apply Hs; try exact Hc;
        cbn [page st]; unfold PAGE_SIZE; try lia.
      rewrite <- Hall. f_equal. f_equal; [f_equal; lia|]. f_equal. lia. }
    rewrite (loadPage_batch s n w st _ Hc eq_refl Hb), loadPage_final.
    cbn [home_photos page st]. rewrite take_take_drop.
    set (batch := take 9 (drop (9 * j) all)).
    assert (Hlen : length batch = Nat.min 9 (length all - 9 * j))
      by (unfold batch; rewrite length_take, length_drop; reflexivity).
    destruct (Z.ltb_spec (Z.of_nat (length batch)) PAGE_SIZE) as [Hshort|Hfull];
      unfold PAGE_SIZE in *; cbn [negb].
    + (* a short batch: the feed is exhausted *)
      set (st' := mkHome (take (9 * j + 9) all) (Z.of_nat j) false false None).
      assert (Ho : onIntersect st' = st') by reflexivity.
      rewrite Ho. change (sameDeps st st') with false. cbv iota.
      rewrite scroll_exhausted by reflexivity.
      cbn [outcome]. exists st'. split; [reflexivity|].
      subst st'. cbn [home_photos errorMessage isLoading hasMore]. repeat split.
      rewrite !take_ge by lia. reflexivity.
    + (* a full batch: the page number goes up *)
      set (st' := mkHome (take (9 * j + 9) all) (Z.of_nat j) true false None).
      assert (Hphotos : length (take (9 * j + 9) all) = (9 * j + 9)%nat)
        by (rewrite length_take; lia).
      assert (Ho : onIntersect st'
                   = mkHome (take (9 * S j) all) (Z.of_nat (S j)) true false None).
      { unfold onIntersect. cbn [hasMore isLoading home_photos errorMessage page st'].
        rewrite Hphotos. cbn [negb orb truthyEnv].
        replace (9 * j + 9 =? 0)%nat with false by (symmetry; apply Nat.eqb_neq; lia).
        f_equal; [f_equal; lia | lia]. }
      rewrite Ho.
      replace (sameDeps st (mkHome (take (9 * S j) all) (Z.of_nat (S j))
                              true false None)) with false.
      2:{ symmetry. unfold sameDeps. cbn [hasMore page st].
          apply andb_false_iff. right. apply Z.eqb_neq. lia. }
      cbv iota. cbn [outcome final calls].
      destruct (IH (S j) (n + length (calls (run s n w (loadPage st))))%nat)
        as (stf & Hout & Hp & He & Hl & Hm); [lia|].
      exists stf. rewrite Hout. split; [reflexivity|].
      replace (9 * (j + S k))%nat with (9 * (S j + k))%nat by lia. auto.
Qed.

End Feed.

(** X9. The home page shows the whole feed in order: after the mount and
    [k] rounds of loading and scrolling, with every call reaching the
    store, it shows the first [9 * k] photos of the listing of active
    photos, and once that covers the listing the feed is marked
    exhausted, with every active photo shown once (the store unchanged
    meanwhile, distinct sort pairs). *)
Theorem feed_shows_every_active_photo `{Runtime} s n m (w : World) k :
  isSupabaseConfigured = true ->
  NoDup (map sortPair (photos w)) ->
  (forall i, fault (s i) = None) ->
  exists all st,
    outcome (run s m w (fetchAdminPhotos active)) = Returned all
    /\ outcome (run s n w (scroll k homeStart)) = Returned st
    /\ home_photos st = take (9 * k) all
    /\ errorMessage st = None
    /\ ((length all < 9 * k)%nat -> home_photos st = all /\ hasMore st = false).
Proof.
  intros Hc _ Hs.
  destruct (scroll_from s w _ Hc Hs eq_refl k 0%nat n)
    as (st & Hout & Hp & He & _ & Hm); [lia|].
  exists (map photoOf (activeSorted w)), st.
  split; [apply fetchAdminPhotos_active; [exact Hc | apply Hs]|].
  split; [exact Hout|]. split; [exact Hp|]. split; [exact He|].
  intros Hlt. split; [|exact (Hm Hlt)].
  rewrite Hp. apply take_ge. lia.
Qed.

(** X10. A page load that fails keeps the photos shown, the page number
    and the open feed, and shows the message of the failure; as long as
    that (non-empty) message is shown, scrolling neither advances the
    page nor sends another request. *)
Theorem failed_page_load_stops_the_feed `{Runtime} s n (w : World) st e :
  isSupabaseConfigured = true ->
  hasMore st = true ->
  fault (s n) = Some e ->
  truthy (message e) = true ->
  let failed :=
    mkHome (home_photos st) (page st) true false (Some (message e)) in
  outcome (run s n w (loadPage st)) = Returned failed
  /\ onIntersect failed = failed
  /\ forall k,
       outcome (run s n w (scroll (S k) st)) = Returned failed
       /\ length (calls (run s n w (scroll (S k) st))) = 1%nat.
Proof.
  intros Hc Hm Hf Ht failed.
  assert (Hrun : run s n w (loadPage st)
                 = mkResult (Returned failed) w
                     (calls (run s n w (fetchPublicPhotos (page st * PAGE_SIZE)
                                          (page st * PAGE_SIZE + PAGE_SIZE - 1))))).
  { unfold loadPage. rewrite Hc, Hm. cbn [negb orb]. cbv zeta.
    rewrite run_catch, run_bind, fetchPublicPhotos_run by exact Hc.
    cbv zeta. rewrite Hf. reflexivity. }
  assert (Ho : onIntersect failed = failed).
  { unfold onIntersect, failed. cbn [hasMore isLoading errorMessage truthyEnv].
    rewrite Ht. cbn [negb orb]. rewrite !orb_true_r. reflexivity. }
  split; [rewrite Hrun; reflexivity|]. split; [exact Ho|].
  intros k. cbn [scroll]. rewrite run_bind, Hrun. cbn [outcome final calls].
  rewrite Ho.
  replace (sameDeps st failed) with true
    by (symmetry; unfold sameDeps, failed; cbn [hasMore page];
        rewrite Hm, Z.eqb_refl; reflexivity).
  cbn [run outcome calls]. rewrite app_nil_r.
  split; [reflexivity|].
  rewrite fetchPublicPhotos_run by exact Hc. cbv zeta. rewrite Hf. reflexivity.
Qed.

(** ** Operations followed by listings *)

Section Lifecycle.
Context `{Runtime}.

Lemma softDeletePhoto_ok s n w photoId :
  isSupabaseConfigured = true -> wellFormed w -> fault (s (S n)) = None ->
  run s n w (softDeletePhoto photoId)
  = mkResult (Returned tt)
      (setPhotos w
         (map (fun r => if bool_decide (PhotoRow.id r = photoId)
                        then touch (server_now (s (S n)))
                               (withDeletedAt (Some (iso (s n))) r)
                        else r) (photos w)))
      [event NowISOString;
       event (RowsUpdate [(col_deleted_at, VText (iso (s n)))]
                [FilterEq col_id photoId])].
Proof.
  intros Hc Hwf Hf. rewrite softDeletePhoto_run by exact Hc. cbv zeta. rewrite Hf.
  rewrite (updateRows_by_id _ _ photoId (photos w)
             (withDeletedAt (Some (iso (s n))))
             (applyBody_deleted_at (iso (s n)))
             (withDeletedAt_keys (Some (iso (s n)))) Hwf).
  reflexivity.
Qed.

Lemma restorePhoto_ok s n w photoId :
  isSupabaseConfigured = true -> wellFormed w -> fault (s n) = None ->
  run s n w (restorePhoto photoId)
  = mkResult (Returned tt)
      (setPhotos w
         (map (fun r => if bool_decide (PhotoRow.id r = photoId)
                        then touch (server_now (s n)) (withDeletedAt None r)
                        else r) (photos w)))
      [event (RowsUpdate [(col_deleted_at, VNull)] [FilterEq col_id photoId])].
Proof.
  intros Hc Hwf Hf. rewrite restorePhoto_run by exact Hc. cbv zeta. rewrite Hf.
  rewrite (updateRows_by_id _ _ photoId (photos w) (withDeletedAt None)
             applyBody_restore (withDeletedAt_keys None) Hwf).
  reflexivity.
Qed.

(** Rewriting the rows of one id without touching the keys keeps the
    table well formed. *)
Lemma wellFormed_rewrite w photoId (f : PhotoRow.t -> PhotoRow.t) :
  (forall r, PhotoRow.id (f r) = PhotoRow.id r
             /\ PhotoRow.image_path (f r) = PhotoRow.image_path r) ->
  wellFormed w ->
  wellFormed (setPhotos w
                (map (fun r => if bool_decide (PhotoRow.id r = photoId)
                               then f r else r) (photos w))).
Proof.
  intros Hf Hwf. unfold wellFormed. cbn [photos setPhotos].
  rewrite uniqueKeys_preserved; [exact Hwf|].
  intros r. destruct (bool_decide (PhotoRow.id r = photoId)); [apply Hf | auto].
Qed.

Lemma touch_withDeletedAt_keys now d r :
  PhotoRow.id (touch now (withDeletedAt d r)) = PhotoRow.id r
  /\ PhotoRow.image_path (touch now (withDeletedAt d r)) = PhotoRow.image_path r.
Proof. destruct r. auto. Qed.

Lemma activeSorted_In w r :
  In r (activeSorted w) <-> In r (photos w) /\ isActive r = true.
Proof.
  unfold activeSorted. rewrite <- filter_In.
  split; apply Permutation_in;
    [apply merge_sort_Permutation | symmetry; apply merge_sort_Permutation].
Qed.

(** What the listings of a world return, by the rows they come from. *)
Lemma public_listing_rows s m w from to l :
  isSupabaseConfigured = true ->
  outcome (run s m w (fetchPublicPhotos from to)) = Returned l ->
  Forall (fun p => exists r, In r (photos w) /\ isActive r = true /\ p = photoOf r) l.
Proof.
  intros Hc Hl.
  destruct (fetchPublicPhotos_returned s m w from to l Hc Hl) as (data & Hq & ->).
  apply Forall_forall. intros p Hp.
  apply list_elem_of_In, in_map_iff in Hp as (r & <- & Hr).
  destruct (execSelect_In _ _ _ r Hq Hr) as [Hin Hm]. cbn [sel_filters] in Hm.
  rewrite matchAll_is_null in Hm. eauto.
Qed.

Lemma admin_listing_rows s m w mode l :
  isSupabaseConfigured = true ->
  outcome (run s m w (fetchAdminPhotos mode)) = Returned l ->
  Forall (fun p => exists r,
              In r (photos w)
              /\ isActive r = match mode with active => true | trash => false end
              /\ p = photoOf r) l.
Proof.
  intros Hc Hl.
  destruct (fetchAdminPhotos_returned s m w mode l Hc Hl) as (data & Hq & ->).
  apply Forall_forall. intros p Hp.
  apply list_elem_of_In, in_map_iff in Hp as (r & <- & Hr).
  destruct (execSelect_In _ _ _ r Hq Hr) as [Hin Hm]. cbn [sel_filters] in Hm.
  exists r. split; [exact Hin|]. split; [|reflexivity].
  destruct mode.
  - rewrite matchAll_is_null in Hm. exact Hm.
  - rewrite matchAll_not_is_null in Hm. destruct (isActive r); [discriminate | reflexivity].
Qed.

Lemma admin_listing_has s m w mode r :
  isSupabaseConfigured = true -> fault (s m) = None ->
  In r (photos w) ->
  isActive r = match mode with active => true | trash => false end ->
  exists l,
    outcome (run s m w (fetchAdminPhotos mode)) = Returned l
    /\ In (photoOf r) l.
Proof.
  intros Hc Hf Hin Hact. destruct mode.
  - eexists. split; [apply fetchAdminPhotos_active; assumption|].
    apply in_map, activeSorted_In. auto.
  - eexists. split; [apply fetchAdminPhotos_trash; assumption|].
    apply in_map.
    apply (Permutation_in _ (Permutation_sym (merge_sort_Permutation _ _))).
    apply filter_In. rewrite Hact. auto.
Qed.

End Lifecycle.

(** X11. After a soft delete that reaches the store (well-formed table,
    an id in the form of the [uuid] column), the photo is gone from the
    public feed and from the admin listing of active photos, whatever
    they are answered, and it is in the trash listing with a
    [deleted_at] that denotes the instant of the client's clock at the
    call; the objects are untouched and the table stays well formed.
    This holds as well for a photo that was already in the trash. *)
Theorem soft_deleted_photo_moves_to_trash `{Runtime} s n (w : World) photoId :
  isSupabaseConfigured = true ->
  wellFormed w ->
  uuidLiteral photoId ->
  fault (s (S n)) = None ->
  let w1 := final (run s n w (softDeletePhoto photoId)) in
  outcome (run s n w (softDeletePhoto photoId)) = Returned tt
  /\ wellFormed w1
  /\ objects w1 = objects w
  /\ (forall m from to l,
        outcome (run s m w1 (fetchPublicPhotos from to)) = Returned l ->
        Forall (fun p => Photo.id p <> photoId) l)
  /\ (forall m l,
        outcome (run s m w1 (fetchAdminPhotos active)) = Returned l ->
        Forall (fun p => Photo.id p <> photoId) l)
  /\ (forall r m,
        In r (photos w) -> PhotoRow.id r = photoId -> fault (s m) = None ->
        exists l p,
          outcome (run s m w1 (fetchAdminPhotos trash)) = Returned l
          /\ In p l
          /\ Photo.id p = photoId
          /\ (exists d,
                Photo.deleted_at p = Some d
                /\ timestampValue d = timestampValue (iso (s n)))
          /\ Photo.image_path p = PhotoRow.image_path r
          /\ Photo.title p = PhotoRow.title r).
Proof.
  intros Hc Hwf _ Hf w1. subst w1.
  rewrite softDeletePhoto_ok by assumption. cbn [outcome final].
  set (g := fun r => if bool_decide (PhotoRow.id r = photoId)
                     then touch (server_now (s (S n)))
                            (withDeletedAt (Some (iso (s n))) r)
                     else r).
  assert (Hrows : forall r', In r' (map g (photos w)) -> isActive r' = true ->
                             PhotoRow.id r' <> photoId).
  { intros r' Hin Hact. apply in_map_iff in Hin as (r & <- & _).
    unfold g in *. destruct (bool_decide_reflect (PhotoRow.id r = photoId)) as [He|Hne].
    - destruct r. discriminate Hact.
    - exact Hne. }
  split; [reflexivity|].
  split; [apply (wellFormed_rewrite w photoId); [intros r; apply touch_withDeletedAt_keys | exact Hwf]|].
  split; [reflexivity|].
  split; [|split].
  - intros m from to l Hl.
    eapply Forall_impl; [apply (public_listing_rows s m _ from to l Hc Hl)|].
    intros p (r' & Hin & Hact & ->). exact (Hrows r' Hin Hact).
  - intros m l Hl.
    eapply Forall_impl; [apply (admin_listing_rows s m _ active l Hc Hl)|].
    intros p (r' & Hin & Hact & ->). exact (Hrows r' Hin Hact).
  - intros r m Hin Hid Hm.
    destruct (admin_listing_has s m (setPhotos w (map g (photos w))) trash (g r) Hc Hm)
      as (l & Hl & Hp).
    + apply in_map. exact Hin.
    + unfold g. rewrite bool_decide_eq_true_2 by exact Hid. destruct r. reflexivity.
    + exists l, (photoOf (g r)). split; [exact Hl|]. split; [exact Hp|].
      unfold g. rewrite bool_decide_eq_true_2 by exact Hid.
      destruct r. cbn in *. repeat split; eauto.
Qed.

(** X12. After a restore that reaches the store (well-formed table), the
    photo is gone from the trash listing and is in the admin listing of
    active photos, with a null [deleted_at]; the objects are untouched
    and the table stays well formed. *)
Theorem restored_photo_is_active_again `{Runtime} s n (w : World) photoId :
  isSupabaseConfigured = true ->
  wellFormed w ->
  fault (s n) = None ->
  let w1 := final (run s n w (restorePhoto photoId)) in
  outcome (run s n w (restorePhoto photoId)) = Returned tt
  /\ wellFormed w1
  /\ objects w1 = objects w
  /\ (forall m l,
        outcome (run s m w1 (fetchAdminPhotos trash)) = Returned l ->
        Forall (fun p => Photo.id p <> photoId) l)
  /\ (forall r m,
        In r (photos w) -> PhotoRow.id r = photoId -> fault (s m) = None ->
        exists l p,
          outcome (run s m w1 (fetchAdminPhotos active)) = Returned l
          /\ In p l
          /\ Photo.id p = photoId
          /\ Photo.deleted_at p = None
          /\ Photo.image_path p = PhotoRow.image_path r
          /\ Photo.title p = PhotoRow.title r).
Proof.
  intros Hc Hwf Hf w1. subst w1.
  rewrite restorePhoto_ok by assumption. cbn [outcome final].
  set (g := fun r => if bool_decide (PhotoRow.id r = photoId)
                     then touch (server_now (s n)) (withDeletedAt None r)
                     else r).
  split; [reflexivity|].
  split; [apply (wellFormed_rewrite w photoId); [intros r; apply touch_withDeletedAt_keys | exact Hwf]|].
  split; [reflexivity|].
  split.
  - intros m l Hl.
    eapply Forall_impl; [apply (admin_listing_rows s m _ trash l Hc Hl)|].
    intros p (r' & Hin & Hact & ->).
    apply in_map_iff in Hin as (r & <- & _).
    unfold g in *. destruct (bool_decide_reflect (PhotoRow.id r = photoId)) as [He|Hne].
    + destruct r. discriminate Hact.
    + exact Hne.
  - intros r m Hin Hid Hm.
    destruct (admin_listing_has s m (setPhotos w (map g (photos w))) active (g r) Hc Hm)
      as (l & Hl & Hp).
    + apply in_map. exact Hin.
    + unfold g. rewrite bool_decide_eq_true_2 by exact Hid. destruct r. reflexivity.
    + exists l, (photoOf (g r)). split; [exact Hl|]. split; [exact Hp|].
      unfold g. rewrite bool_decide_eq_true_2 by exact Hid.
      destruct r. cbn in *. auto.
Qed.


(** ** Upload that goes through, upload on a taken key *)

Section UploadFacts.
Context `{Runtime}.

Lemma insertRow_payload ch (p : Payload.t) key rows :
  insertRow ch (bodyOf p ++ [(col_image_path, VText key)]) rows
  = let r := PhotoRow.mk (server_id ch) (Payload.title p) (Payload.caption p)
               (Some (Payload.tags p)) (Payload.shot_date p) key
               (server_now ch) (server_now ch) None in
    if uniqueKeys (rows ++ [r]) then (Ok r, rows ++ [r])
    else (Err constraintError, rows).
Proof. destruct p as [ti [ca|] tg sd]; reflexivity. Qed.

Lemma uniqueKeys_snoc rows r :
  uniqueKeys rows = true ->
  ~ In (PhotoRow.id r) (map PhotoRow.id rows) ->
  ~ In (PhotoRow.image_path r) (map PhotoRow.image_path rows) ->
  uniqueKeys (rows ++ [r]) = true.
Proof.
  unfold uniqueKeys. intros Hu Hid Hpath.
  apply andb_true_iff in Hu as [Hu1 Hu2].
  apply bool_decide_eq_true in Hu1. apply bool_decide_eq_true in Hu2.
  rewrite !map_app. cbn [map].
  apply andb_true_iff. split; apply bool_decide_eq_true;
    apply NoDup_app; (split; [assumption|]); (split; [|apply NoDup_singleton]);
    intros x Hx Hx'; apply list_elem_of_In in Hx; apply list_elem_of_In in Hx';
    destruct Hx' as [<-|[]]; contradiction.
Qed.

End UploadFacts.

(** X14. An upload whose calls reach the store, to a key that is free,
    with a fresh server id and a shot date in the form of the [date]
    column (well-formed table): the file is stored at the
    generated key, one row is added at the end of the table with the
    normalized metadata, that key as [image_path] and a null
    [deleted_at], no removal is requested, the photo of the row is
    returned and the admin listing of active photos has it. *)
Theorem uploaded_photo_is_stored `{Runtime} s n (w : World) file metadata userId :
  isSupabaseConfigured = true ->
  wellFormed w ->
  dateLiteral (PhotoMetadataInput.shot_date metadata) = true ->
  fault (s (S (S n))) = None ->
  fault (s (S (S (S n)))) = None ->
  let key := storageKey userId (clock (s n)) (token (s (S n))) (file_name file) in
  let payload := cleanMetadata metadata in
  let row :=
    PhotoRow.mk (server_id (s (S (S (S n))))) (Payload.title payload)
      (Payload.caption payload) (Some (Payload.tags payload))
      (Payload.shot_date payload) key
      (server_now (s (S (S (S n))))) (server_now (s (S (S (S n))))) None in
  objects w !! key = None ->
  ~ In key (map PhotoRow.image_path (photos w)) ->
  ~ In (server_id (s (S (S (S n))))) (map PhotoRow.id (photos w)) ->
  let res := run s n w (uploadPhoto file metadata userId) in
  outcome res = Returned (photoOf row)
  /\ photos (final res) = photos w ++ [row]
  /\ objects (final res) = <[key := file]> (objects w)
  /\ wellFormed (final res)
  /\ length (calls res) = 4%nat
  /\ (forall m, fault (s m) = None ->
        exists l,
          outcome (run s m (final res) (fetchAdminPhotos active)) = Returned l
          /\ In (photoOf row) l).
Proof.
  intros Hc Hwf _ Hf2 Hf3 key payload row Hfree Hpath Hid res.
  assert (Hu : uniqueKeys (photos w ++ [row]) = true)
    by (apply uniqueKeys_snoc; assumption).
  assert (Hres : res = mkResult (Returned (photoOf row))
                         (mkWorld (<[key := file]> (objects w)) (photos w ++ [row]))
                         (calls res)
                 /\ length (calls res) = 4%nat).
  { subst res. rewrite uploadPhoto_run by exact Hc. cbv zeta. fold key. fold payload.
    rewrite handle_upload, Hf2, Hfree.
    cbn [handle]. unfold reach. rewrite Hf3.
    cbn [photos setObjects]. rewrite insertRow_payload. cbv zeta. fold row.
    rewrite Hu. split; reflexivity. }
  destruct Hres as [Hres Hlen]. rewrite Hres. cbn [outcome final photos objects calls].
  split; [reflexivity|]. split; [reflexivity|]. split; [reflexivity|].
  split; [exact Hu|]. split; [exact Hlen|].
  intros m Hm. apply (admin_listing_has s m _ active row Hc Hm).
  - cbn [photos]. apply in_or_app. right. left. reflexivity.
  - reflexivity.
Qed.

(** X15. An upload never overwrites: when an object is already stored at
    the generated key and the upload reaches the store, the upload is
    refused, the error is raised after the upload call alone, and the
    store, with the object that was there, is what it was. *)
Theorem upload_never_overwrites `{Runtime} s n (w : World) file metadata userId existing :
  isSupabaseConfigured = true ->
  fault (s (S (S n))) = None ->
  let key := storageKey userId (clock (s n)) (token (s (S n))) (file_name file) in
  objects w !! key = Some existing ->
  let res := run s n w (uploadPhoto file metadata userId) in
  outcome res = Thrown (message existsError)
  /\ final res = w
  /\ objects (final res) !! key = Some existing
  /\ length (calls res) = 3%nat.
Proof.
  intros Hc Hf key Hk res. subst res.
  rewrite uploadPhoto_run by exact Hc. cbv zeta. fold key.
  rewrite handle_upload, Hf, Hk. cbn [outcome final calls].
  repeat split. exact Hk.
Qed.

(** ** Which storage failures a permanent delete lets pass *)

Section NotFound.

Lemma matchesAt_spec (pat s : jsstring) :
  matchesAt pat s = true
  <-> exists mid post, s = mid ++ post /\ map asciiLower mid = pat.
Proof.
  revert s. induction pat as [|p pat IH]; intros s; cbn.
  - split; [intros _; exists [], s; auto | auto].
  - destruct s as [|c s].
    + split; [discriminate|]. intros (mid & post & Hs & Hm).
      destruct mid; [discriminate Hm | discriminate Hs].
    + rewrite andb_true_iff, N.eqb_eq, IH. split.
      * intros (Hc & mid & post & -> & <-). exists (c :: mid), post.
        cbn. rewrite Hc. auto.
      * intros (mid & post & Hs & Hm). destruct mid as [|d mid]; [discriminate Hm|].
        cbn in Hs, Hm. injection Hs as -> ->. injection Hm as Hd Hm.
        split; [exact Hd|]. eauto.
Qed.

Lemma testIgnoreCase_spec (pat s : jsstring) :
  testIgnoreCase pat s = true
  <-> exists pre mid post, s = pre ++ mid ++ post /\ map asciiLower mid = pat.
Proof.
  induction s as [|c s IH]; cbn [testIgnoreCase].
  - rewrite orb_false_r, matchesAt_spec. split.
    + intros (mid & post & Hs & Hm). exists [], mid, post. auto.
    + intros (pre & mid & post & Hs & Hm). destruct pre; [cbn in Hs; eauto | discriminate Hs].
  - rewrite orb_true_iff, matchesAt_spec, IH. split.
    + intros [(mid & post & Hs & Hm) | (pre & mid & post & -> & Hm)].
      * exists [], mid, post. auto.
      * exists (c :: pre), mid, post. auto.
    + intros (pre & mid & post & Hs & Hm). destruct pre as [|d pre].
      * left. cbn in Hs. eauto.
      * right. cbn in Hs. injection Hs as -> ->. eauto.
Qed.

End NotFound.

(** X16. The test [/not found/i] of [permanentlyDeletePhoto] accepts
    exactly the messages that contain the nine code units of "not found"
    with each letter in upper or lower ASCII case; in particular no
    message shorter than nine code units, and every message around
    "Not Found" or "NOT FOUND". *)
Theorem notFoundTest_accepts (msg : jsstring) :
  (notFoundTest msg = true
   <-> exists pre mid post,
         msg = pre ++ mid ++ post /\ map asciiLower mid = js "not found")
  /\ ((length msg < 9)%nat -> notFoundTest msg = false)
  /\ (forall pre post,
        notFoundTest (pre ++ js "Not Found" ++ post) = true
        /\ notFoundTest (pre ++ js "NOT FOUND" ++ post) = true
        /\ notFoundTest (pre ++ js "not found" ++ post) = true).
Proof.
  split; [apply testIgnoreCase_spec|]. split.
  - intros Hlen. destruct (notFoundTest msg) eqn:E; [|reflexivity].
    apply testIgnoreCase_spec in E as (pre & mid & post & -> & Hm).
    apply (f_equal (@length N)) in Hm. rewrite length_map in Hm.
    rewrite !length_app in Hlen. cbn in Hm. lia.
  - intros pre post. repeat split; apply testIgnoreCase_spec;
      eexists pre, _, post; split; reflexivity.
Qed.

(** ** The storage key and the file name in it *)

Section KeyFacts.
Context `{Runtime}.

Lemma hexDigit_inj d1 d2 :
  d1 < 16 -> d2 < 16 -> hexDigit d1 = hexDigit d2 -> d1 = d2.
Proof.
  unfold hexDigit. intros H1 H2.
  destruct (N.ltb_spec d1 10), (N.ltb_spec d2 10); lia.
Qed.

Lemma hexDigits_inj k u1 u2 :
  hexDigits k u1 = hexDigits k u2 ->
  u1 mod 16 ^ N.of_nat k = u2 mod 16 ^ N.of_nat k.
Proof.
  revert u1 u2. induction k as [|k IH]; intros u1 u2 He.
  - cbn. rewrite !N.mod_1_r. reflexivity.
  - cbn [hexDigits] in He. apply app_inj_tail in He as [Hhi Hlo].
    apply IH in Hhi.
    apply hexDigit_inj in Hlo; try (apply N.mod_lt; discriminate).
    rewrite Nat2N.inj_succ, N.pow_succ_r'.
    rewrite !(N.Div0.mod_mul_r _ 16), Hhi, Hlo. reflexivity.
Qed.

Lemma length_hexDigits k u : length (hexDigits k u) = k.
Proof.
  revert u. induction k as [|k IH]; intros u; cbn; [reflexivity|].
  rewrite length_app, IH. cbn. lia.
Qed.

(** The digits can be read back from the grouped form. *)
Lemma uuid_digits (d : jsstring) :
  length d = 32%nat ->
  let g := take 8 d ++ [hyphen] ++ take 4 (drop 8 d) ++ [hyphen]
             ++ take 4 (drop 12 d) ++ [hyphen] ++ take 4 (drop 16 d)
             ++ [hyphen] ++ drop 20 d in
  take 8 g ++ take 4 (drop 9 g) ++ take 4 (drop 14 g) ++ take 4 (drop 19 g)
    ++ drop 24 g = d.
Proof.
  intros Hd. do 32 (destruct d as [|? d]; [cbn in Hd; lia|]).
  destruct d; [reflexivity | cbn in Hd; lia].
Qed.

Lemma uuidString_inj u1 u2 :
  u1 < 2 ^ 128 -> u2 < 2 ^ 128 -> uuidString u1 = uuidString u2 -> u1 = u2.
Proof.
  intros H1 H2 He.
  assert (Hd : hexDigits 32 u1 = hexDigits 32 u2).
  { rewrite <- (uuid_digits (hexDigits 32 u1)) by apply length_hexDigits.
    rewrite <- (uuid_digits (hexDigits 32 u2)) by apply length_hexDigits.
    cbv zeta. unfold uuidString in He. cbv zeta in He. rewrite He. reflexivity. }
  apply hexDigits_inj in Hd.
  change (16 ^ N.of_nat 32) with (2 ^ 128) in Hd.
  rewrite !N.mod_small in Hd by assumption. exact Hd.
Qed.

Lemma replaceRuns_length in_run (s : jsstring) :
  (length (replaceRuns in_run s) <= length s)%nat.
Proof.
  revert in_run. induction s as [|c s IH]; intros in_run; cbn; [lia|].
  destruct (allowed c); cbn.
  - specialize (IH false). lia.
  - destruct in_run; cbn; specialize (IH true); lia.
Qed.

Lemma replaceRuns_nonempty (s : jsstring) :
  s <> [] -> replaceRuns false s <> [].
Proof.
  destruct s as [|c s]; [congruence|]. intros _. cbn.
  destruct (allowed c); discriminate.
Qed.

End KeyFacts.

(** X17. In the storage key the random token keeps uploads apart: for
    the same owner, the same clock value and the same file name, two
    tokens (128-bit values) that differ give keys that differ. *)
Theorem storageKey_tells_tokens_apart `{Runtime} userId now name u1 u2 :
  u1 < 2 ^ 128 -> u2 < 2 ^ 128 -> u1 <> u2 ->
  storageKey userId now u1 name <> storageKey userId now u2 name.
Proof.
  intros H1 H2 Hne He. apply Hne. unfold storageKey in He.
  do 4 apply app_inv_head in He.
  apply app_inv_tail in He. exact (uuidString_inj u1 u2 H1 H2 He).
Qed.

(** X18. Sanitizing a file name never makes it longer than its
    lower-cased form and never makes a non-empty name empty; and, for a
    lower-casing that keeps the code units of the class [a-z0-9.\-_] (as
    that of JavaScript does), a sanitized name is sanitized to itself. *)
Theorem sanitizeFilename_settles `{Runtime} (filename : jsstring) :
  (forall s : jsstring,
      Forall (fun c => allowed c = true) s -> toLowerCase s = s) ->
  (length (sanitizeFilename filename) <= length (toLowerCase filename))%nat
  /\ (toLowerCase filename <> [] -> sanitizeFilename filename <> [])
  /\ sanitizeFilename (sanitizeFilename filename) = sanitizeFilename filename.
Proof.
  intros Hlow. unfold sanitizeFilename.
  split; [apply replaceRuns_length|]. split; [apply replaceRuns_nonempty|].
  rewrite Hlow by apply replaceRuns_allowed.
  apply replaceRuns_keep, replaceRuns_allowed.
Qed.

(** The lower-casing of the sample runtime keeps the code units of the
    class of [sanitizeFilename]. *)
Lemma asciiLower_keeps_allowed (s : jsstring) :
  Forall (fun c => allowed c = true) s -> map asciiLower s = s.
Proof.
  induction 1 as [|c s Hc _ IH]; [reflexivity|].
  cbn [map]. rewrite IH. f_equal. unfold asciiLower.
  destruct ((65 <=? c) && (c <=? 90)) eqn:E; [|reflexivity].
  apply andb_true_iff in E as [E1 E2]. apply N.leb_le in E1, E2.
  exfalso. unfold allowed in Hc.
  rewrite !orb_true_iff, !andb_true_iff, !N.leb_le, !N.eqb_eq in Hc. lia.
Qed.

(** ** The admin page *)

Section AdminFacts.
Context `{Runtime}.

Lemma run_settle {A} s n w (p : Prog A) :
  run s n w (settle p)
  = mkResult (Returned (outcome (run s n w p))) (final (run s n w p))
      (calls (run s n w p)).
Proof.
  unfold settle. revert n w. induction p as [a | m | R req k IH]; intros n w.
  - reflexivity.
  - reflexivity.
  - cbn [bind catch run]. destruct (handle (s n) req w) as [r w'].
    rewrite IH. reflexivity.
Qed.

Lemma run_promiseAll2 {A B} s n w race (p : Prog A) (q : Prog B) :
  run s n w (promiseAll2 race p q)
  = let r1 := run s n w p in
    let r2 := run s (n + length (calls r1)) (final r1) q in
    mkResult
      (match outcome r1, outcome r2 with
       | Returned a, Returned b => Returned (a, b)
       | Thrown msg, Returned _ => Thrown msg
       | Returned _, Thrown msg => Thrown msg
       | Thrown msgP, Thrown msgQ => Thrown (if race then msgP else msgQ)
       end)
      (final r2) (calls r1 ++ calls r2).
Proof.
  unfold promiseAll2. rewrite run_bind, run_settle. cbn [outcome final calls].
  cbv zeta. rewrite run_bind, run_settle. cbn [outcome final calls].
  destruct (outcome (run s n w p)),
    (outcome (run s (n + length (calls (run s n w p))) (final (run s n w p)) q));
    cbn; rewrite ?app_nil_r; reflexivity.
Qed.

Lemma fetchAdminPhotos_final s n w mode :
  final (run s n w (fetchAdminPhotos mode)) = w.
Proof.
  unfold fetchAdminPhotos, getSupabaseClient.
  destruct (negb isSupabaseConfigured); [reflexivity|]. cbn [bind]. cbv zeta.
  destruct mode; apply run_listing_final.
Qed.

Lemma fetchAdminPhotos_one_call s n w mode :
  isSupabaseConfigured = true ->
  length (calls (run s n w (fetchAdminPhotos mode))) = 1%nat.
Proof.
  intros Hc. rewrite fetchAdminPhotos_run by exact Hc. cbv zeta.
  destruct (fault (s n)); [reflexivity|].
  destruct (execSelect _ _); reflexivity.
Qed.

(** The state [loadPhotos] leaves for a logged-in admin, from the
    outcomes of the two listings. *)
Lemma loadPhotos_run s n w race st userId :
  isSupabaseConfigured = true ->
  session st = Some userId ->
  run s n w (loadPhotos race st)
  = let st1 := setPhotosError None (setPhotosBusy true st) in
    mkResult
      (Returned
         (setPhotosBusy false
            (match outcome (run s n w (fetchAdminPhotos active)),
                   outcome (run s (S n) w (fetchAdminPhotos trash)) with
             | Returned a, Returned t => setTrashPhotos t (setActivePhotos a st1)
             | Thrown msg, Returned _ => setPhotosError (Some msg) st1
             | Returned _, Thrown msg => setPhotosError (Some msg) st1
             | Thrown msgA, Thrown msgT =>
                 setPhotosError (Some (if race then msgA else msgT)) st1
             end)))
      w
      (calls (run s n w (fetchAdminPhotos active))
         ++ calls (run s (S n) w (fetchAdminPhotos trash))).
Proof.
  intros Hc Hs. unfold loadPhotos. rewrite Hs. cbv zeta.
  rewrite run_bind, run_catch, run_bind, run_promiseAll2. cbv zeta.
  rewrite !fetchAdminPhotos_final, (fetchAdminPhotos_one_call s n w active Hc).
  replace (n + 1)%nat with (S n) by lia.
  cbn [outcome final calls]. unfold getErrorMessage.
  destruct (outcome (run s n w (fetchAdminPhotos active))),
    (outcome (run s (S n) w (fetchAdminPhotos trash)));
    cbn; rewrite ?app_nil_r; reflexivity.
Qed.

(** A guarded action of a handler: the operation, then the rest of the
    [try] block, which does not raise; a failure of the operation goes to
    the [catch] block; the [finally] block comes last. *)
Lemma run_guarded {A} s n w (op : Prog A) (rest : Prog AdminState)
    (onError fin : _ -> AdminState) :
  (forall k w', exists st', outcome (run s k w' rest) = Returned st') ->
  run s n w (st2 <- catch (op ;;; rest) (fun error => Ret (onError error)) ;;
             Ret (fin st2))
  = match outcome (run s n w op) with
    | Thrown msg =>
        mkResult (Returned (fin (onError msg))) (final (run s n w op))
          (calls (run s n w op))
    | Returned _ =>
        let r2 := run s (n + length (calls (run s n w op)))
                      (final (run s n w op)) rest in
        mkResult
          (match outcome r2 with
           | Returned st2 => Returned (fin st2)
           | Thrown msg => Returned (fin (onError msg))
           end)
          (final r2) (calls (run s n w op) ++ calls r2)
    end.
Proof.
  intros Hrest. rewrite run_bind, run_catch, run_bind.
  destruct (outcome (run s n w op)) as [a|msg]; cbv zeta; cbn [outcome final calls].
  - destruct (Hrest (n + length (calls (run s n w op)))%nat (final (run s n w op)))
      as (st' & Hst). rewrite Hst. cbn. rewrite app_nil_r. reflexivity.
  - cbn. rewrite !app_nil_r. reflexivity.
Qed.

Lemma loadPhotos_returns s n w race st :
  exists st', outcome (run s n w (loadPhotos race st)) = Returned st'
              /\ final (run s n w (loadPhotos race st)) = w.
Proof.
  unfold loadPhotos. destruct (session st); [|eexists; split; reflexivity].
  cbv zeta. rewrite run_bind, run_catch, run_bind, run_promiseAll2. cbv zeta.
  rewrite !fetchAdminPhotos_final. cbn [outcome final calls].
  destruct (outcome (run s n w (fetchAdminPhotos active))),
    (outcome (run s _ w (fetchAdminPhotos trash)));
    cbn; eexists; split; reflexivity.
Qed.

End AdminFacts.

(** X19. [loadPhotos] of the admin page: logged out it does nothing;
    logged in it never raises, asks for both listings (also when the
    first fails), leaves the store and the upload and edit cells alone
    and ends not busy. When both listings arrive they become the two
    lists and the error is cleared; when one fails the lists are kept
    and its message is shown; when both fail the message of one of them
    is shown. *)
Theorem loadPhotos_shows_the_listings `{Runtime} s n (w : World) race st :
  isSupabaseConfigured = true ->
  (session st = None ->
   run s n w (loadPhotos race st) = mkResult (Returned st) w [])
  /\ (session st <> None ->
      exists st',
        outcome (run s n w (loadPhotos race st)) = Returned st'
        /\ final (run s n w (loadPhotos race st)) = w
        /\ length (calls (run s n w (loadPhotos race st))) = 2%nat
        /\ photosBusy st' = false
        /\ (session st', uploadForm st', uploadFile st', uploadBusy st',
            uploadError st', editingId st', editForm st', actionPhotoId st')
           = (session st, uploadForm st, uploadFile st, uploadBusy st,
              uploadError st, editingId st, editForm st, actionPhotoId st)
        /\ match outcome (run s n w (fetchAdminPhotos active)),
                 outcome (run s (S n) w (fetchAdminPhotos trash)) with
           | Returned a, Returned t =>
               activePhotos st' = a /\ trashPhotos st' = t
               /\ photosError st' = None
           | Thrown msg, Returned _ | Returned _, Thrown msg =>
               activePhotos st' = activePhotos st
               /\ trashPhotos st' = trashPhotos st
               /\ photosError st' = Some msg
           | Thrown msgA, Thrown msgT =>
               activePhotos st' = activePhotos st
               /\ trashPhotos st' = trashPhotos st
               /\ (photosError st' = Some msgA \/ photosError st' = Some msgT)
           end).
Proof.
  intros Hc. split.
  - intros Hs. unfold loadPhotos. rewrite Hs. reflexivity.
  - intros Hs. destruct (session st) as [userId|] eqn:Hu; [|congruence].
    rewrite (loadPhotos_run s n w race st userId Hc Hu). cbv zeta.
    cbn [outcome final calls]. eexists. split; [reflexivity|].
    split; [reflexivity|]. split.
    { rewrite length_app, !fetchAdminPhotos_one_call by exact Hc. reflexivity. }
    destruct (outcome (run s n w (fetchAdminPhotos active))),
      (outcome (run s (S n) w (fetchAdminPhotos trash)));
      cbn; rewrite ?Hu; repeat split; auto.
    destruct race; auto.
Qed.

Section HandlerFacts.
Context `{Runtime}.

Lemma loadPhotos_rest s race st :
  forall k w', exists st', outcome (run s k w' (loadPhotos race st)) = Returned st'.
Proof.
  intros k w'. destruct (loadPhotos_returns s k w' race st) as (st' & Ho & _). eauto.
Qed.

(** The handlers of one photo share their shape: a marker is set, the
    operation and then the reload are tried, a failure is shown, the
    marker is cleared. *)
Lemma item_handler_failure {A} s n w race (op : Prog A) stX st1 msg :
  outcome (run s n w op) = Thrown msg ->
  run s n w (st2 <- catch (op ;;; loadPhotos race stX)
                      (fun error =>
                         Ret (setPhotosError (Some (getErrorMessage error)) st1)) ;;
             Ret (setActionPhotoId None st2))
  = mkResult (Returned (setActionPhotoId None (setPhotosError (Some msg) st1)))
      (final (run s n w op)) (calls (run s n w op)).
Proof.
  intros Hop.
  rewrite (run_guarded s n w op (loadPhotos race stX)
             (fun error => setPhotosError (Some (getErrorMessage error)) st1)
             (setActionPhotoId None) (loadPhotos_rest s race stX)).
  rewrite Hop. reflexivity.
Qed.

Lemma item_handler_success {A} s n w race (op : Prog A) stX st1 userId
    (x : A) a t :
  isSupabaseConfigured = true ->
  session stX = Some userId ->
  outcome (run s n w op) = Returned x ->
  let w1 := final (run s n w op) in
  let k := (n + length (calls (run s n w op)))%nat in
  outcome (run s k w1 (fetchAdminPhotos active)) = Returned a ->
  outcome (run s (S k) w1 (fetchAdminPhotos trash)) = Returned t ->
  let res := run s n w
               (st2 <- catch (op ;;; loadPhotos race stX)
                         (fun error =>
                            Ret (setPhotosError (Some (getErrorMessage error)) st1)) ;;
                Ret (setActionPhotoId None st2)) in
  outcome res
  = Returned
      (setActionPhotoId None
         (setPhotosBusy false
            (setTrashPhotos t
               (setActivePhotos a
                  (setPhotosError None (setPhotosBusy true stX))))))
  /\ final res = w1
  /\ length (calls res) = (length (calls (run s n w op)) + 2)%nat.
Proof.
  intros Hc Hs Hop w1 k Ha Ht res. subst res.
  rewrite (run_guarded s n w op (loadPhotos race stX)
             (fun error => setPhotosError (Some (getErrorMessage error)) st1)
             (setActionPhotoId None) (loadPhotos_rest s race stX)).
  rewrite Hop. cbv zeta. fold w1. fold k.
  rewrite (loadPhotos_run s k w1 race stX userId Hc Hs). cbv zeta.
  rewrite Ha, Ht. cbn [outcome final calls].
  split; [reflexivity|]. split; [reflexivity|].
  rewrite !length_app, !fetchAdminPhotos_one_call by exact Hc. reflexivity.
Qed.

Lemma createEmptyPhotoForm_rest s race (next : PhotoFormState.t -> AdminState) :
  forall k w',
    exists st',
      outcome (run s k w' (form <- createEmptyPhotoForm ;;
                           loadPhotos race (next form))) = Returned st'.
Proof.
  intros k w'. unfold createEmptyPhotoForm. cbn [await bind run handle].
  destruct (loadPhotos_returns s (S k) w' race
              (next (PhotoFormState.mk [] [] [] (take 10 (iso (s k))))))
    as (st' & Ho & _).
  exists st'. exact Ho.
Qed.

End HandlerFacts.

(** X20. When the operation of a photo handler of the admin page fails
    ([handleSoftDelete], [handleRestore], [handlePermanentDelete] once
    confirmed, [saveEdit]), the handler does not raise and sends no
    further request: it shows the message in [photosError], clears
    [actionPhotoId] and leaves every other cell, the two lists and the
    edit in progress included, as it was. *)
Theorem photo_handlers_show_a_failure `{Runtime} s n (w : World) race st msg :
  let shown := setActionPhotoId None (setPhotosError (Some msg) st) in
  (forall photoId,
      outcome (run s n w (softDeletePhoto photoId)) = Thrown msg ->
      run s n w (handleSoftDelete race photoId st)
      = mkResult (Returned shown) (final (run s n w (softDeletePhoto photoId)))
          (calls (run s n w (softDeletePhoto photoId))))
  /\ (forall photoId,
        outcome (run s n w (restorePhoto photoId)) = Thrown msg ->
        run s n w (handleRestore race photoId st)
        = mkResult (Returned shown) (final (run s n w (restorePhoto photoId)))
            (calls (run s n w (restorePhoto photoId))))
  /\ (forall photo,
        outcome (run s n w (permanentlyDeletePhoto photo)) = Thrown msg ->
        run s n w (handlePermanentDelete race true photo st)
        = mkResult (Returned shown)
            (final (run s n w (permanentlyDeletePhoto photo)))
            (calls (run s n w (permanentlyDeletePhoto photo))))
  /\ (forall photoId,
        editingId st = Some photoId -> truthy photoId = true ->
        outcome (run s n w (updatePhotoMetadata photoId
                              (toMetadataInput (editForm st)))) = Thrown msg ->
        run s n w (saveEdit race st)
        = mkResult (Returned shown)
            (final (run s n w (updatePhotoMetadata photoId
                                 (toMetadataInput (editForm st)))))
            (calls (run s n w (updatePhotoMetadata photoId
                                 (toMetadataInput (editForm st)))))).
Proof.
  intros shown. split; [|split; [|split]].
  - intros photoId Hop. unfold handleSoftDelete. cbv zeta.
    rewrite (item_handler_failure s n w race _ _ _ msg Hop). reflexivity.
  - intros photoId Hop. unfold handleRestore. cbv zeta.
    rewrite (item_handler_failure s n w race _ _ _ msg Hop). reflexivity.
  - intros photo Hop. unfold handlePermanentDelete. cbn [negb]. cbv zeta.
    rewrite (item_handler_failure s n w race _ _ _ msg Hop). reflexivity.
  - intros photoId He Ht Hop. unfold saveEdit. rewrite He, Ht. cbn [negb]. cbv zeta.
    rewrite (item_handler_failure s n w race _ _ _ msg Hop). reflexivity.
Qed.

Section HandlerSuccess.
Context `{Runtime}.

Lemma item_handler_shows {A} s n w race (op : Prog A) stX st1 userId (x : A) :
  isSupabaseConfigured = true ->
  session stX = Some userId ->
  outcome (run s n w op) = Returned x ->
  reloadReaches s n w op ->
  let res := run s n w
               (st2 <- catch (op ;;; loadPhotos race stX)
                         (fun error =>
                            Ret (setPhotosError (Some (getErrorMessage error)) st1)) ;;
                Ret (setActionPhotoId None st2)) in
  exists st',
    outcome res = Returned st'
    /\ final res = final (run s n w op)
    /\ showsStoreAfter s n w op (editingId stX) st'
    /\ (session st', uploadForm st', uploadFile st', uploadBusy st',
        uploadError st', editForm st')
       = (session stX, uploadForm stX, uploadFile stX, uploadBusy stX,
          uploadError stX, editForm stX).
Proof.
  intros Hc Hs Hop [Hk HSk] res.
  pose proof (fetchAdminPhotos_active s (n + length (calls (run s n w op)))
                (final (run s n w op)) Hc Hk) as Ha.
  pose proof (fetchAdminPhotos_trash s (S (n + length (calls (run s n w op))))
                (final (run s n w op)) Hc HSk) as Ht.
  destruct (item_handler_success s n w race op stX st1 userId x _ _
              Hc Hs Hop Ha Ht) as (Ho & Hfin & _).
  eexists. split; [exact Ho|]. split; [exact Hfin|].
  split; [|reflexivity].
  unfold showsStoreAfter. cbv zeta. cbn. rewrite Ha, Ht. auto 10.
Qed.

End HandlerSuccess.

(** X21. When the operation of a photo handler succeeds for a logged-in
    admin and the two requests of the reload reach the store, the handler
    does not raise and shows the store as the operation left it: the two
    lists are the listings of that store, the error is cleared,
    [actionPhotoId] is cleared. A soft delete closes the edit of the
    photo it moved and no other; a saved edit closes the edit. *)
Theorem photo_handlers_show_the_store `{Runtime} s n (w : World) race st userId :
  isSupabaseConfigured = true ->
  session st = Some userId ->
  (forall photoId,
      outcome (run s n w (softDeletePhoto photoId)) = Returned tt ->
      reloadReaches s n w (softDeletePhoto photoId) ->
      exists st',
        outcome (run s n w (handleSoftDelete race photoId st)) = Returned st'
        /\ final (run s n w (handleSoftDelete race photoId st))
           = final (run s n w (softDeletePhoto photoId))
        /\ showsStoreAfter s n w (softDeletePhoto photoId)
             (if bool_decide (editingId st = Some photoId) then None
              else editingId st) st')
  /\ (forall photoId,
        outcome (run s n w (restorePhoto photoId)) = Returned tt ->
        reloadReaches s n w (restorePhoto photoId) ->
        exists st',
          outcome (run s n w (handleRestore race photoId st)) = Returned st'
          /\ final (run s n w (handleRestore race photoId st))
             = final (run s n w (restorePhoto photoId))
          /\ showsStoreAfter s n w (restorePhoto photoId) (editingId st) st')
  /\ (forall photo,
        outcome (run s n w (permanentlyDeletePhoto photo)) = Returned tt ->
        reloadReaches s n w (permanentlyDeletePhoto photo) ->
        exists st',
          outcome (run s n w (handlePermanentDelete race true photo st))
          = Returned st'
          /\ final (run s n w (handlePermanentDelete race true photo st))
             = final (run s n w (permanentlyDeletePhoto photo))
          /\ showsStoreAfter s n w (permanentlyDeletePhoto photo)
               (editingId st) st')
  /\ (forall photoId photo,
        editingId st = Some photoId -> truthy photoId = true ->
        let op := updatePhotoMetadata photoId (toMetadataInput (editForm st)) in
        outcome (run s n w op) = Returned photo ->
        reloadReaches s n w op ->
        exists st',
          outcome (run s n w (saveEdit race st)) = Returned st'
          /\ final (run s n w (saveEdit race st)) = final (run s n w op)
          /\ showsStoreAfter s n w op None st'
          /\ editForm st' = editForm st).
Proof.
  intros Hc Hs. split; [|split; [|split]].
  - intros photoId Hop Hr. unfold handleSoftDelete. cbv zeta.
    edestruct (item_handler_shows s n w race (softDeletePhoto photoId)
                 (if bool_decide (editingId st = Some photoId)
                  then setEditingId None (setActionPhotoId (Some photoId) st)
                  else setActionPhotoId (Some photoId) st))
      as (st' & Ho & Hfin & Hshow & _); [exact Hc | | exact Hop | exact Hr |].
    { destruct (bool_decide (editingId st = Some photoId)); exact Hs. }
    exists st'. split; [exact Ho|]. split; [exact Hfin|].
    destruct (bool_decide (editingId st = Some photoId)); exact Hshow.
  - intros photoId Hop Hr. unfold handleRestore. cbv zeta.
    edestruct (item_handler_shows s n w race (restorePhoto photoId)
                 (setActionPhotoId (Some photoId) st))
      as (st' & Ho & Hfin & Hshow & _); [exact Hc | exact Hs | exact Hop | exact Hr |].
    exists st'. split; [exact Ho|]. split; [exact Hfin|]. exact Hshow.
  - intros photo Hop Hr. unfold handlePermanentDelete. cbn [negb]. cbv zeta.
    edestruct (item_handler_shows s n w race (permanentlyDeletePhoto photo)
                 (setActionPhotoId (Some (Photo.id photo)) st))
      as (st' & Ho & Hfin & Hshow & _); [exact Hc | exact Hs | exact Hop | exact Hr |].
    exists st'. split; [exact Ho|]. split; [exact Hfin|]. exact Hshow.
  - intros photoId photo He Ht op Hop Hr. unfold saveEdit.
    rewrite He, Ht. cbn [negb]. cbv zeta.
    edestruct (item_handler_shows s n w race op
                 (setEditingId None (setActionPhotoId (Some photoId) st)))
      as (st' & Ho & Hfin & Hshow & Hframe);
      [exact Hc | exact Hs | exact Hop | exact Hr |].
    exists st'. split; [exact Ho|]. split; [exact Hfin|]. split; [exact Hshow|].
    cbn in Hframe. congruence.
Qed.

(** X22. [handleUpload] with a session and a chosen file never raises
    and ends not busy. When [uploadPhoto] fails its message is shown in
    [uploadError], the form and the chosen file are kept and no further
    request is sent. When it succeeds the form is emptied with today's
    date, the chosen file is dropped, the error is cleared, and, the two
    requests of the reload reaching the store, the lists are the
    listings of the store with the new photo. *)
Theorem handleUpload_outcomes `{Runtime} s n (w : World) race st userId file :
  isSupabaseConfigured = true ->
  session st = Some userId ->
  uploadFile st = Some file ->
  let op := uploadPhoto file (toMetadataInput (uploadForm st)) userId in
  let res := run s n w (handleUpload race st) in
  let k := (n + length (calls (run s n w op)))%nat in
  let w1 := final (run s n w op) in
  (forall msg,
      outcome (run s n w op) = Thrown msg ->
      res = mkResult
              (Returned (setUploadBusy false (setUploadError (Some msg) st)))
              w1 (calls (run s n w op)))
  /\ (forall photo,
        outcome (run s n w op) = Returned photo ->
        exists st',
          outcome res = Returned st'
          /\ final res = w1
          /\ uploadForm st'
             = PhotoFormState.mk [] [] [] (take 10 (iso (s k)))
          /\ uploadFile st' = None
          /\ uploadError st' = None
          /\ uploadBusy st' = false
          /\ (fault (s (S k)) = None -> fault (s (S (S k))) = None ->
              outcome (run s (S k) w1 (fetchAdminPhotos active))
              = Returned (activePhotos st')
              /\ outcome (run s (S (S k)) w1 (fetchAdminPhotos trash))
                 = Returned (trashPhotos st')
              /\ photosError st' = None)).
Proof.
  intros Hc Hs Hf op res k w1. subst res. unfold handleUpload.
  rewrite Hs, Hf. cbv zeta. fold op.
  set (st1 := setUploadError None (setUploadBusy true st)).
  rewrite (run_guarded s n w op
             (form <- createEmptyPhotoForm ;;
              loadPhotos race (setUploadFile None (setUploadForm form st1)))
             (fun error => setUploadError (Some (getErrorMessage error)) st1)
             (setUploadBusy false)
             (createEmptyPhotoForm_rest s race
                (fun form => setUploadFile None (setUploadForm form st1)))).
  split.
  - intros msg Hop. rewrite Hop. reflexivity.
  - intros photo Hop. rewrite Hop. cbv zeta. fold k. fold w1.
    unfold createEmptyPhotoForm. cbn [await bind run handle].
    set (st2 := setUploadFile None (setUploadForm _ st1)).
    rewrite (loadPhotos_run s (S k) w1 race st2 userId Hc Hs).
    cbv zeta. cbn [outcome final calls].
    eexists. split; [reflexivity|]. split; [reflexivity|].
    destruct (outcome (run s (S k) w1 (fetchAdminPhotos active))) eqn:Ea,
      (outcome (run s (S (S k)) w1 (fetchAdminPhotos trash))) eqn:Et;
      cbn; (do 4 (split; [reflexivity|])); intros Hk HSk;
      rewrite (fetchAdminPhotos_active s (S k) w1 Hc Hk) in Ea;
      rewrite (fetchAdminPhotos_trash s (S (S k)) w1 Hc HSk) in Et;
      try discriminate.
    rewrite <- Ea, <- Et. auto.
Qed.

(** X23. The handlers of the admin page that decline to act send no
    request and leave the store alone: an upload without a session or
    without a chosen file only shows its message, saving with no edit in
    progress and a permanent delete that is not confirmed change
    nothing. *)
Theorem declined_handlers_send_nothing `{Runtime} s n (w : World) race st :
  (session st = None ->
   run s n w (handleUpload race st)
   = mkResult
       (Returned (setUploadError (Some (js "Log in before uploading photos.")) st))
       w [])
  /\ (session st <> None -> uploadFile st = None ->
      run s n w (handleUpload race st)
      = mkResult
          (Returned (setUploadError (Some (js "Choose an image file first.")) st))
          w [])
  /\ (editingId st = None \/ editingId st = Some [] ->
      run s n w (saveEdit race st) = mkResult (Returned st) w [])
  /\ (forall photo,
        run s n w (handlePermanentDelete race false photo st)
        = mkResult (Returned st) w []).
Proof.
  split; [|split; [|split]].
  - intros Hs. unfold handleUpload. rewrite Hs. reflexivity.
  - intros Hs Hf. unfold handleUpload. rewrite Hf.
    destruct (session st); [reflexivity | congruence].
  - intros [He|He]; unfold saveEdit; rewrite He; reflexivity.
  - intros photo. reflexivity.
Qed.

(** X24. Opening the edit of a listed photo whose row was written from
    a form and saving it untouched (logged in, well-formed table, the
    calls reaching the store) changes nothing in the store but the
    [updated_at] of that row; the edit is closed and the page shows the
    listings of the store. *)
Theorem reopened_form_saves_without_change `{Runtime} s n (w : World) race st
    userId formState r0 :
  isSupabaseConfigured = true ->
  wellFormed w ->
  session st = Some userId ->
  fault (s n) = None ->
  let row := withMetadata (cleanMetadata (toMetadataInput formState)) r0 in
  In row (photos w) ->
  truthy (PhotoRow.id row) = true ->
  let opened := beginEdit (photoOf row) st in
  let op := updatePhotoMetadata (PhotoRow.id row)
              (toMetadataInput (editForm opened)) in
  reloadReaches s n w op ->
  let res := run s n w (saveEdit race opened) in
  editingId opened = Some (PhotoRow.id row)
  /\ exists st',
       outcome res = Returned st'
       /\ photos (final res)
          = map (fun x => if bool_decide (PhotoRow.id x = PhotoRow.id row)
                          then touch (server_now (s n)) x else x) (photos w)
       /\ objects (final res) = objects w
       /\ showsStoreAfter s n w op None st'.
Proof.
  intros Hc Hwf Hs Hf row Hin Ht opened op Hr res.
  split; [reflexivity|].
  destruct (edit_form_saved s n w formState r0 Hc Hwf Hf Hin)
    as (_ & Ho & Hp & Hobj).
  subst res. unfold saveEdit.
  change (editingId opened) with (Some (PhotoRow.id row)). cbv iota beta.
  rewrite Ht. cbn [negb]. cbv zeta.
  edestruct (item_handler_shows s n w race op
               (setEditingId None (setActionPhotoId (Some (PhotoRow.id row)) opened)))
    as (st' & Hout & Hfin & Hshow & _);
    [exact Hc | exact Hs | exact Ho | exact Hr |].
  exists st'. split; [exact Hout|].
  split; [exact (eq_trans (f_equal photos Hfin) Hp)|].
  split; [exact (eq_trans (f_equal objects Hfin) Hobj) | exact Hshow].
Qed.

(** * The properties on the sample data *)

#[local] Existing Instance asciiRuntime.

(** C3 on the sample data: the insert is rejected, the removal goes
    through; the insert error is raised and no object is left at the key. *)
Lemma uploadPhoto_compensates_witness :
  let s := schedule [(3%nat, "new row violates row-level security policy"%string)] in
  let res := run s 0 sampleWorld
               (uploadPhoto sampleFile sampleMetadata (js "owner")) in
  isSupabaseConfigured = true
  /\ outcome res = Thrown (js "new row violates row-level security policy")
  /\ photos (final res) = photos sampleWorld
  /\ objects (final res) !! sampleKey = None.
Proof.
  intros s res. split; [reflexivity|].
  destruct (@uploadPhoto_compensates asciiRuntime s 0 sampleWorld sampleFile
              sampleMetadata (js "owner") eq_refl) as [_ Hins].
  destruct (Hins (mkWorld {[sampleKey := sampleFile]} (photos sampleWorld))
              (mkError (js "new row violates row-level security policy"))
              (mkWorld {[sampleKey := sampleFile]} (photos sampleWorld)))
    as (Ho & _ & Hp & Hobj & _).
  - vm_compute. reflexivity.
  - vm_compute. reflexivity.
  - split; [exact Ho|]. split; [exact Hp|]. exact (Hobj eq_refl).
Defined.

(** C3 as the specification words it fails when the removal that follows
    a failed insert fails too: the insert error is raised and the object
    is still at the generated key. *)
Lemma uploadPhoto_cleanup_can_fail :
  let s := schedule [(3%nat, "new row violates row-level security policy"%string);
                     (4%nat, "Failed to fetch"%string)] in
  let res := run s 0 sampleWorld
               (uploadPhoto sampleFile sampleMetadata (js "owner")) in
  fst (handle (s 2%nat)
         (StorageUpload PHOTOS_BUCKET sampleKey sampleFile
            (mkOptions false (js "image/jpeg") (js "3600"))) sampleWorld)
  = Ok tt
  /\ outcome res = Thrown (js "new row violates row-level security policy")
  /\ calls res
     = [event DateNow; event RandomUUID;
        event (StorageUpload PHOTOS_BUCKET sampleKey sampleFile
                 (mkOptions false (js "image/jpeg") (js "3600")));
        event (RowsInsertSingle
                 (bodyOf (cleanMetadata sampleMetadata)
                    ++ [(col_image_path, VText sampleKey)]) PHOTO_COLUMNS);
        event (StorageRemove PHOTOS_BUCKET [sampleKey])]
  /\ objects (final res) !! sampleKey = Some sampleFile
  /\ objects (final res) !! sampleKey <> None.
Proof.
  cbv zeta. split; [vm_compute; reflexivity|].
  split; [vm_compute; reflexivity|].
  split; [vm_compute; reflexivity|].
  assert (Hk : objects
                 (final (@run asciiRuntime _
                           (schedule [(3%nat, "new row violates row-level security policy"%string);
                                      (4%nat, "Failed to fetch"%string)])
                           0 sampleWorld
                           (uploadPhoto sampleFile sampleMetadata (js "owner"))))
               !! sampleKey = Some sampleFile) by (vm_compute; reflexivity).
  split; [exact Hk|]. rewrite Hk. discriminate.
Qed.

(** C4 on the sample data: the first call removes the object and fails
    on the row; the retry is told the object is not found and goes on to
    delete the row. *)
Lemma permanentlyDeletePhoto_two_phases_witness :
  let photo := photoOf (sampleRow "p3" "2026-01-03" "2026-02-01T10:00:02+00:00"
                          (Some "2026-03-01T08:00:00+00:00"%string)) in
  let s := schedule [(1%nat, "Failed to fetch"%string);
                     (2%nat, "Object not found"%string)] in
  let res := run s 0 sampleWorld (permanentlyDeletePhoto photo) in
  let again := run s 2 (final res) (permanentlyDeletePhoto photo) in
  isSupabaseConfigured = true
  /\ outcome res = Thrown (js "Failed to fetch")
  /\ photos (final res) = photos sampleWorld
  /\ calls again
     = [event (StorageRemove PHOTOS_BUCKET [Photo.image_path photo]);
        event (RowsDelete [FilterEq col_id (Photo.id photo)])]
  /\ outcome again = Returned tt.
Proof.
  intros photo s res again. split; [reflexivity|].
  destruct (permanentlyDeletePhoto_two_phases (H := asciiRuntime) s 0 sampleWorld photo eq_refl)
    as (_ & Hgo & _ & Hretry).
  destruct (Hgo (or_introl eq_refl)) as (_ & Hfail & _).
  destruct (Hfail (mkError (js "Failed to fetch")) eq_refl) as [Ho Hp].
  destruct (Hretry 2%nat) as [Hc Hout].
  { right. exists (mkError (js "Object not found")). split; reflexivity. }
  split; [exact Ho|]. split; [exact Hp|]. split; [exact Hc|].
  destruct Hout as [Hr | (e & He & _)]; [exact Hr | discriminate He].
Defined.

(** C5 on the sample data. *)
Lemma listings_sorted_witness :
  isSupabaseConfigured = true
  /\ NoDup (map sortPair (photos sampleWorld))
  /\ (exists l,
        outcome (run (schedule []) 0 sampleWorld (fetchPublicPhotos 0 8))
        = Returned l
        /\ map Photo.id l = [js "p2"; js "p1"]
        /\ StronglySorted newer l)
  /\ (exists l,
        outcome (run (schedule []) 0 sampleWorld (fetchAdminPhotos trash))
        = Returned l
        /\ StronglySorted newer l).
Proof.
  assert (Hd : NoDup (map sortPair (photos sampleWorld))).
  { apply (proj1 (bool_decide_eq_true _)). vm_compute. reflexivity. }
  destruct (listings_sorted (H := asciiRuntime) (schedule []) 0 sampleWorld eq_refl Hd)
    as (Hpub & Hadm & _).
  split; [reflexivity|]. split; [exact Hd|]. split.
  - eexists. split; [vm_compute; reflexivity|]. split; [reflexivity|].
    apply (Hpub 0%Z 8%Z). vm_compute. reflexivity.
  - eexists. split; [vm_compute; reflexivity|].
    apply (Hadm trash). vm_compute. reflexivity.
Defined.

(** C6 on the sample data: the trash holds the one deleted photo. *)
Lemma listings_visibility_witness :
  isSupabaseConfigured = true
  /\ exists l,
       outcome (run (schedule []) 0 sampleWorld (fetchAdminPhotos trash))
       = Returned l
       /\ map Photo.id l = [js "p3"]
       /\ Forall (fun p => Photo.deleted_at p <> None
                           /\ exists r, In r (photos sampleWorld) /\ p = photoOf r) l.
Proof.
  split; [reflexivity|].
  destruct (listings_visibility (H := asciiRuntime) (schedule []) 0 sampleWorld eq_refl)
    as (_ & Htrash & _).
  eexists. split; [vm_compute; reflexivity|]. split; [reflexivity|].
  apply Htrash. vm_compute. reflexivity.
Defined.

(** C7 on nine active photos. *)
Lemma listPublic_pages_witness :
  isSupabaseConfigured = true
  /\ fault (schedule [] 0%nat) = None
  /\ length (List.filter isActive (photos nineWorld)) = 9%nat
  /\ (exists batch,
        outcome (run (schedule []) 0 nineWorld (fetchPublicPhotos 0 8))
        = Returned batch
        /\ length batch = 9%nat)
  /\ outcome (run (schedule []) 0 nineWorld (fetchPublicPhotos 9 17)) = Returned []
  /\ outcome (run (schedule []) 0 nineWorld
                (loadPage (mkHome [] 1 true false None)))
     = Returned (mkHome [] 1 false false None).
Proof.
  destruct (listPublic_pages (H := asciiRuntime) (schedule []) 0 nineWorld eq_refl eq_refl)
    as (_ & _ & Hnine).
  destruct (Hnine eq_refl) as ((batch & Hb & Hlen & _) & Hlast & Hload).
  split; [reflexivity|]. split; [reflexivity|]. split; [reflexivity|].
  split; [exists batch; auto|]. split; [exact Hlast | exact (Hload [])].
Defined.




(** C10 on an id of the [uuid] column that the table does not have. *)
Lemma missing_row_update_is_silent_witness :
  isSupabaseConfigured = true
  /\ wellFormed typedWorld
  /\ uuidLiteral (js absentId)
  /\ Forall (fun r => PhotoRow.id r <> js absentId) (photos typedWorld)
  /\ dateLiteral (PhotoMetadataInput.shot_date sampleMetadata) = true
  /\ outcome (run (schedule []) 0 typedWorld (softDeletePhoto (js absentId)))
     = Returned tt
  /\ outcome (run (schedule []) 0 typedWorld (restorePhoto (js absentId)))
     = Returned tt
  /\ outcome (run (schedule []) 0 typedWorld
                (updatePhotoMetadata (js absentId) sampleMetadata))
     = Thrown (js "JSON object requested, multiple (or no) rows returned").
Proof.
  assert (Hid : uuidLiteral (js absentId)).
  { exists 0x7c9e6679742540de944be07fc1f90ae7. split; [reflexivity|].
    vm_compute. reflexivity. }
  assert (Habs : Forall (fun r => PhotoRow.id r <> js absentId) (photos typedWorld))
    by (repeat constructor; discriminate).
  destruct (missing_row_update_is_silent (H := asciiRuntime) (schedule []) 0 typedWorld
              (js absentId) sampleMetadata eq_refl eq_refl Hid Habs)
    as (Hs & Hr & _ & Hu).
  split; [reflexivity|]. split; [reflexivity|]. split; [exact Hid|].
  split; [exact Habs|]. split; [reflexivity|].
  split; [exact (proj1 (Hs eq_refl))|]. split; [exact (proj1 (Hr eq_refl))|].
  exact (Hu eq_refl eq_refl).
Defined.

(** C1 on the sample data. *)
Lemma cleanMetadata_normalizes_witness :
  isSupabaseConfigured = true
  /\ cleanMetadata sampleMetadata
     = Payload.mk (js "Dawn") None [js "a"; js "b,b"] (js "2026-02-20")
  /\ calls (run (schedule []) 0 sampleWorld
              (updatePhotoMetadata (js "p1") sampleMetadata))
     = [event (RowsUpdateSingle
                 [(col_title, VText (js "Dawn")); (col_caption, VNull);
                  (col_tags, VArray [js "a"; js "b,b"]);
                  (col_shot_date, VText (js "2026-02-20"))]
                 [FilterEq col_id (js "p1")] PHOTO_COLUMNS)]
  /\ In (event (RowsInsertSingle
                  [(col_title, VText (js "Dawn")); (col_caption, VNull);
                   (col_tags, VArray [js "a"; js "b,b"]);
                   (col_shot_date, VText (js "2026-02-20"));
                   (col_image_path, VText sampleKey)]
                  PHOTO_COLUMNS))
        (calls (run (schedule []) 0 sampleWorld
                  (uploadPhoto sampleFile sampleMetadata (js "owner")))).
Proof.
  destruct (cleanMetadata_normalizes (H := asciiRuntime) sampleMetadata)
    as (_ & _ & _ & _ & _ & Hex & Hupd & Hins).
  split; [reflexivity|]. split; [exact (Hex (js "2026-02-20"))|].
  split.
  - exact (Hupd (schedule []) 0%nat sampleWorld (js "p1") eq_refl).
  - apply (Hins (schedule []) 0%nat sampleWorld sampleFile (js "owner") eq_refl).
    vm_compute. reflexivity.
Defined.

(** * The further properties on the sample data *)

(** X3 on a row written from the sample form. *)
Lemma edit_form_round_trip_witness :
  let r0 := sampleRow "p1" "2026-01-01" "2026-02-01T10:00:00+00:00" None in
  let row := withMetadata (cleanMetadata (toMetadataInput sampleForm)) r0 in
  let w := mkWorld ∅ [row; sampleRow "p2" "2026-01-03" "2026-02-01T10:00:01+00:00" None] in
  let edited := toMetadataInput (editFormOf (photoOf row)) in
  let res := run (schedule []) 0 w (updatePhotoMetadata (js "p1") edited) in
  isSupabaseConfigured = true
  /\ wellFormed w
  /\ In row (photos w)
  /\ PhotoFormState.tags (editFormOf (photoOf row)) = js "sea, sky"
  /\ cleanMetadata edited = cleanMetadata (toMetadataInput sampleForm)
  /\ photos (final res)
     = [touch (js "2026-02-20T12:00:00+00:00") row;
        sampleRow "p2" "2026-01-03" "2026-02-01T10:00:01+00:00" None].
Proof.
  intros r0 row w edited res.
  destruct (edit_form_round_trip (H := asciiRuntime) (schedule []) 0 w sampleForm
              r0 eq_refl eq_refl eq_refl (or_introl eq_refl))
    as (Hclean & _ & Hp & _).
  split; [reflexivity|]. split; [reflexivity|]. split; [left; reflexivity|].
  split; [vm_compute; reflexivity|]. split; [exact Hclean | exact Hp].
Defined.

(** X5 on the sample data. *)
Lemma admin_listings_partition_witness :
  isSupabaseConfigured = true
  /\ fault (schedule [] 0%nat) = None
  /\ exists inActive inTrash,
       outcome (run (schedule []) 0 sampleWorld (fetchAdminPhotos active))
       = Returned inActive
       /\ outcome (run (schedule []) 1 sampleWorld (fetchAdminPhotos trash))
          = Returned inTrash
       /\ inActive ++ inTrash ≡ₚ map photoOf (photos sampleWorld)
       /\ (length inActive + length inTrash = 3)%nat.
Proof.
  split; [reflexivity|]. split; [reflexivity|].
  destruct (admin_listings_partition (H := asciiRuntime) (schedule []) 0 1
              sampleWorld eq_refl eq_refl eq_refl)
    as (a & t & Ha & Ht & Hperm & Hlen & _).
  exists a, t. auto.
Defined.

(** X6 on the sample data: the second photo of the feed. *)
Lemma public_page_is_segment_witness :
  isSupabaseConfigured = true
  /\ NoDup (map sortPair (photos sampleWorld))
  /\ exists all,
       outcome (run (schedule []) 1 sampleWorld (fetchAdminPhotos active))
       = Returned all
       /\ outcome (run (schedule []) 0 sampleWorld (fetchPublicPhotos 1 1))
          = Returned (take 1 (drop 1 all)).
Proof.
  assert (Hd : NoDup (map sortPair (photos sampleWorld))).
  { apply (proj1 (bool_decide_eq_true _)). vm_compute. reflexivity. }
  split; [reflexivity|]. split; [exact Hd|].
  apply (public_page_is_segment (H := asciiRuntime) (schedule []) 0 1 sampleWorld
           1 1 eq_refl Hd eq_refl eq_refl); lia.
Defined.

(** X7 on the sample data: the first photo and the second are the first
    two. *)
Lemma public_pages_concatenate_witness :
  isSupabaseConfigured = true
  /\ NoDup (map sortPair (photos sampleWorld))
  /\ exists first second,
       outcome (run (schedule []) 0 sampleWorld (fetchPublicPhotos 0 0))
       = Returned first
       /\ outcome (run (schedule []) 1 sampleWorld (fetchPublicPhotos (0 + 1) 1))
          = Returned second
       /\ outcome (run (schedule []) 2 sampleWorld (fetchPublicPhotos 0 1))
          = Returned (first ++ second).
Proof.
  assert (Hd : NoDup (map sortPair (photos sampleWorld))).
  { apply (proj1 (bool_decide_eq_true _)). vm_compute. reflexivity. }
  split; [reflexivity|]. split; [exact Hd|].
  apply (public_pages_concatenate (H := asciiRuntime) (schedule []) 0 1 2
           sampleWorld 0 0 1 eq_refl Hd eq_refl eq_refl eq_refl); lia.
Defined.

(** X8 on the runtime without environment values. *)
Lemma unconfigured_client_sends_nothing_witness :
  isSupabaseConfigured (H := bareRuntime) = false
  /\ run (H := bareRuntime) (schedule []) 0 sampleWorld
       (softDeletePhoto (H := bareRuntime) (js "p1"))
     = mkResult (Thrown notConfiguredMessage) sampleWorld []
  /\ run (H := bareRuntime) (schedule []) 0 sampleWorld
       (loadPage (H := bareRuntime) homeStart)
     = mkResult (Returned homeStart) sampleWorld [].
Proof.
  destruct (unconfigured_client_sends_nothing (H := bareRuntime) (schedule []) 0
              sampleWorld eq_refl) as (_ & _ & _ & _ & Hsoft & _ & Hload).
  split; [reflexivity|]. split; [exact (proj1 (Hsoft (js "p1")))|].
  exact (Hload homeStart).
Defined.

(** X9 on the sample data: one round shows both active photos and
    closes the feed. *)
Lemma feed_shows_every_active_photo_witness :
  isSupabaseConfigured = true
  /\ NoDup (map sortPair (photos sampleWorld))
  /\ exists all st,
       outcome (run (schedule []) 0 sampleWorld (fetchAdminPhotos active))
       = Returned all
       /\ outcome (run (schedule []) 0 sampleWorld (scroll 1 homeStart))
          = Returned st
       /\ length all = 2%nat
       /\ home_photos st = all
       /\ hasMore st = false.
Proof.
  assert (Hd : NoDup (map sortPair (photos sampleWorld))).
  { apply (proj1 (bool_decide_eq_true _)). vm_compute. reflexivity. }
  split; [reflexivity|]. split; [exact Hd|].
  destruct (feed_shows_every_active_photo (H := asciiRuntime) (schedule []) 0 0
              sampleWorld 1 eq_refl Hd (fun i => eq_refl))
    as (all & st & Ha & Hs & _ & _ & Hfull).
  assert (Hlen : length all = 2%nat).
  { vm_compute in Ha. injection Ha as <-. reflexivity. }
  exists all, st. split; [exact Ha|]. split; [exact Hs|]. split; [exact Hlen|].
  apply Hfull. rewrite Hlen. cbn. lia.
Defined.

(** X10 on the sample data: the first request fails. *)
Lemma failed_page_load_stops_the_feed_witness :
  let s := schedule [(0%nat, "Failed to fetch"%string)] in
  let failed := mkHome [] 0 true false (Some (js "Failed to fetch")) in
  isSupabaseConfigured = true
  /\ fault (s 0%nat) = Some (mkError (js "Failed to fetch"))
  /\ outcome (run s 0 sampleWorld (scroll 3 homeStart)) = Returned failed
  /\ length (calls (run s 0 sampleWorld (scroll 3 homeStart))) = 1%nat.
Proof.
  intros s failed.
  destruct (failed_page_load_stops_the_feed (H := asciiRuntime) s 0 sampleWorld
              homeStart (mkError (js "Failed to fetch"))
              eq_refl eq_refl eq_refl eq_refl) as (_ & _ & Hk).
  split; [reflexivity|]. split; [reflexivity|]. exact (Hk 2%nat).
Defined.

(** X11 on the active photo of a table with ids of the [uuid] column. *)
Lemma soft_deleted_photo_moves_to_trash_witness :
  let w1 := final (run (schedule []) 0 typedWorld (softDeletePhoto (js storedId))) in
  isSupabaseConfigured = true
  /\ wellFormed typedWorld
  /\ uuidLiteral (js storedId)
  /\ outcome (run (schedule []) 0 typedWorld (softDeletePhoto (js storedId)))
     = Returned tt
  /\ exists l p,
       outcome (run (schedule []) 5 w1 (fetchAdminPhotos trash)) = Returned l
       /\ In p l
       /\ Photo.id p = js storedId
       /\ exists d,
            Photo.deleted_at p = Some d
            /\ timestampValue d = timestampValue (js "2026-02-20T12:00:00.000Z").
Proof.
  intros w1.
  assert (Hid : uuidLiteral (js storedId)).
  { exists 0x0f8fad5bd9cb469fa16570867728950e. split; [reflexivity|].
    vm_compute. reflexivity. }
  destruct (soft_deleted_photo_moves_to_trash (H := asciiRuntime) (schedule []) 0
              typedWorld (js storedId) eq_refl eq_refl Hid eq_refl)
    as (Ho & _ & _ & _ & _ & Htrash).
  destruct (Htrash (sampleRow storedId "2026-01-01" "2026-02-01T10:00:00+00:00" None)
              5%nat (or_introl eq_refl) eq_refl eq_refl)
    as (l & p & Hl & Hin & Hp & Hdel & _).
  split; [reflexivity|]. split; [reflexivity|]. split; [exact Hid|].
  split; [exact Ho|].
  exists l, p. auto.
Defined.

(** X12 on the trashed photo of the sample data. *)
Lemma restored_photo_is_active_again_witness :
  let w1 := final (run (schedule []) 0 sampleWorld (restorePhoto (js "p3"))) in
  isSupabaseConfigured = true
  /\ wellFormed sampleWorld
  /\ outcome (run (schedule []) 0 sampleWorld (restorePhoto (js "p3")))
     = Returned tt
  /\ exists l p,
       outcome (run (schedule []) 5 w1 (fetchAdminPhotos active)) = Returned l
       /\ In p l
       /\ Photo.id p = js "p3"
       /\ Photo.deleted_at p = None.
Proof.
  intros w1.
  destruct (restored_photo_is_active_again (H := asciiRuntime) (schedule []) 0
              sampleWorld (js "p3") eq_refl eq_refl eq_refl)
    as (Ho & _ & _ & _ & Hactive).
  destruct (Hactive (sampleRow "p3" "2026-01-03" "2026-02-01T10:00:02+00:00"
                       (Some "2026-03-01T08:00:00+00:00"%string))
              5%nat (or_intror (or_intror (or_introl eq_refl))) eq_refl eq_refl)
    as (l & p & Hl & Hin & Hid & Hdel & _).
  split; [reflexivity|]. split; [reflexivity|]. split; [exact Ho|].
  exists l, p. auto.
Defined.


(** X14 on the sample data. *)
Lemma uploaded_photo_is_stored_witness :
  let res := run (schedule []) 0 sampleWorld
               (uploadPhoto sampleFile sampleMetadata (js "owner")) in
  let row :=
    PhotoRow.mk (js "p9") (js "Dawn") None (Some [js "a"; js "b,b"])
      (js "2026-02-20") sampleKey (js "2026-02-20T12:00:00+00:00")
      (js "2026-02-20T12:00:00+00:00") None in
  isSupabaseConfigured = true
  /\ wellFormed sampleWorld
  /\ dateLiteral (PhotoMetadataInput.shot_date sampleMetadata) = true
  /\ objects sampleWorld !! sampleKey = None
  /\ outcome res = Returned (photoOf row)
  /\ photos (final res) = photos sampleWorld ++ [row]
  /\ objects (final res) = <[sampleKey := sampleFile]> (objects sampleWorld)
  /\ wellFormed (final res).
Proof.
  intros res row.
  destruct (uploaded_photo_is_stored (H := asciiRuntime) (schedule []) 0
              sampleWorld sampleFile sampleMetadata (js "owner")
              eq_refl eq_refl eq_refl eq_refl eq_refl)
    as (Ho & Hp & Hobj & Hwf & _).
  - vm_compute. reflexivity.
  - intros [E|[E|[E|[]]]]; vm_compute in E; discriminate E.
  - intros [E|[E|[E|[]]]]; vm_compute in E; discriminate E.
  - split; [reflexivity|]. split; [reflexivity|]. split; [reflexivity|].
    split; [vm_compute; reflexivity|].
    split; [exact Ho|]. split; [exact Hp|]. split; [exact Hobj | exact Hwf].
Defined.

(** X15 on the sample store with the key taken. *)
Lemma upload_never_overwrites_witness :
  let res := run (schedule []) 0 takenWorld
               (uploadPhoto sampleFile sampleMetadata (js "owner")) in
  isSupabaseConfigured = true
  /\ objects takenWorld !! sampleKey = Some sampleFile
  /\ outcome res = Thrown (js "The resource already exists")
  /\ final res = takenWorld
  /\ length (calls res) = 3%nat.
Proof.
  intros res.
  assert (Hk : objects takenWorld !! sampleKey = Some sampleFile)
    by (vm_compute; reflexivity).
  destruct (upload_never_overwrites (H := asciiRuntime) (schedule []) 0
              takenWorld sampleFile sampleMetadata (js "owner") sampleFile
              eq_refl eq_refl Hk) as (Ho & Hfin & _ & Hcalls).
  split; [reflexivity|]. split; [exact Hk|]. split; [exact Ho|].
  split; [exact Hfin | exact Hcalls].
Defined.

(** X17 on two tokens that differ in their last bit. *)
Lemma storageKey_tells_tokens_apart_witness :
  token calm < 2 ^ 128
  /\ storageKey (js "owner") 1771545600000 (token calm) (js "a.jpg")
     <> storageKey (js "owner") 1771545600000 (token calm + 1) (js "a.jpg").
Proof.
  split; [reflexivity|].
  apply (storageKey_tells_tokens_apart (H := asciiRuntime)); [reflexivity | reflexivity |].
  discriminate.
Defined.

(** X18 on the name of the sample file. *)
Lemma sanitizeFilename_settles_witness :
  sanitizeFilename (js "My  Photo.JPG") = js "my-photo.jpg"
  /\ sanitizeFilename (sanitizeFilename (js "My  Photo.JPG"))
     = sanitizeFilename (js "My  Photo.JPG").
Proof.
  split; [vm_compute; reflexivity|].
  exact (proj2 (proj2 (sanitizeFilename_settles (H := asciiRuntime)
                         (js "My  Photo.JPG") asciiLower_keeps_allowed))).
Defined.

(** X19 on the sample data. *)
Lemma loadPhotos_shows_the_listings_witness :
  isSupabaseConfigured = true
  /\ session adminStart <> None
  /\ exists st',
       outcome (run (schedule []) 0 sampleWorld (loadPhotos true adminStart))
       = Returned st'
       /\ map Photo.id (activePhotos st') = [js "p2"; js "p1"]
       /\ map Photo.id (trashPhotos st') = [js "p3"]
       /\ photosError st' = None
       /\ photosBusy st' = false.
Proof.
  assert (Hs : session adminStart <> None) by discriminate.
  split; [reflexivity|]. split; [exact Hs|].
  destruct (proj2 (loadPhotos_shows_the_listings (H := asciiRuntime) (schedule []) 0
                     sampleWorld true adminStart eq_refl) Hs)
    as (st' & Ho & _ & _ & Hbusy & _ & Hlists).
  vm_compute in Hlists. destruct Hlists as (Ha & Ht & He).
  exists st'. split; [exact Ho|].
  split; [exact (f_equal (map Photo.id) Ha)|].
  split; [exact (f_equal (map Photo.id) Ht)|]. split; [exact He | exact Hbusy].
Defined.

(** X20 on the sample data: the update of the soft delete fails. *)
Lemma photo_handlers_show_a_failure_witness :
  let s := schedule [(1%nat, "Failed to fetch"%string)] in
  outcome (run s 0 sampleWorld (softDeletePhoto (js "p1")))
  = Thrown (js "Failed to fetch")
  /\ exists st',
       outcome (run s 0 sampleWorld (handleSoftDelete true (js "p1") adminStart))
       = Returned st'
       /\ photosError st' = Some (js "Failed to fetch")
       /\ actionPhotoId st' = None
       /\ final (run s 0 sampleWorld (handleSoftDelete true (js "p1") adminStart))
          = sampleWorld
       /\ length (calls (run s 0 sampleWorld
                           (handleSoftDelete true (js "p1") adminStart))) = 2%nat.
Proof.
  intros s.
  assert (Hop : outcome (run s 0 sampleWorld (softDeletePhoto (js "p1")))
                = Thrown (js "Failed to fetch")) by (vm_compute; reflexivity).
  split; [exact Hop|].
  destruct (photo_handlers_show_a_failure (H := asciiRuntime) s 0 sampleWorld true
              adminStart (js "Failed to fetch")) as (Hsoft & _).
  rewrite (Hsoft (js "p1") Hop). eexists. split; [reflexivity|].
  split; [reflexivity|]. split; [reflexivity|]. split; vm_compute; reflexivity.
Defined.

(** X21 on the sample data: a soft delete moves the photo to the list of
    the trash. *)
Lemma photo_handlers_show_the_store_witness :
  isSupabaseConfigured = true
  /\ session adminStart = Some (js "owner")
  /\ exists st',
       outcome (run (schedule []) 0 sampleWorld
                  (handleSoftDelete true (js "p1") adminStart)) = Returned st'
       /\ map Photo.id (activePhotos st') = [js "p2"]
       /\ map Photo.id (trashPhotos st') = [js "p3"; js "p1"]
       /\ photosError st' = None
       /\ actionPhotoId st' = None.
Proof.
  split; [reflexivity|]. split; [reflexivity|].
  destruct (photo_handlers_show_the_store (H := asciiRuntime) (schedule []) 0
              sampleWorld true adminStart (js "owner") eq_refl eq_refl)
    as (Hsoft & _).
  destruct (Hsoft (js "p1")) as (st' & Ho & _ & Ha & Ht & He & Hact & _).
  - vm_compute. reflexivity.
  - split; vm_compute; reflexivity.
  - vm_compute in Ha. injection Ha as Ha. vm_compute in Ht. injection Ht as Ht.
    exists st'. split; [exact Ho|].
    split; [exact (f_equal (map Photo.id) (eq_sym Ha))|].
    split; [exact (f_equal (map Photo.id) (eq_sym Ht))|].
    split; [exact He | exact Hact].
Defined.

(** X22 on the sample data: the upload goes through. *)
Lemma handleUpload_outcomes_witness :
  isSupabaseConfigured = true
  /\ session adminStart = Some (js "owner")
  /\ uploadFile adminStart = Some sampleFile
  /\ exists st',
       outcome (run (schedule []) 0 sampleWorld (handleUpload true adminStart))
       = Returned st'
       /\ uploadForm st' = PhotoFormState.mk [] [] [] (js "2026-02-20")
       /\ uploadFile st' = None
       /\ uploadError st' = None
       /\ uploadBusy st' = false
       /\ map Photo.id (activePhotos st') = [js "p2"; js "p9"; js "p1"].
Proof.
  split; [reflexivity|]. split; [reflexivity|]. split; [reflexivity|].
  destruct (handleUpload_outcomes (H := asciiRuntime) (schedule []) 0 sampleWorld
              true adminStart (js "owner") sampleFile eq_refl eq_refl eq_refl)
    as (_ & Hok).
  edestruct Hok as (st' & Ho & _ & Hform & Hfile & Herr & Hbusy & Hlists).
  - vm_compute. reflexivity.
  - destruct Hlists as (Ha & _); [vm_compute; reflexivity ..|].
    vm_compute in Ha. injection Ha as Ha.
    exists st'. split; [exact Ho|]. split; [exact Hform|].
    split; [exact Hfile|]. split; [exact Herr|]. split; [exact Hbusy|].
    exact (f_equal (map Photo.id) (eq_sym Ha)).
Defined.

(** X24 on a row written from the sample form. *)
Lemma reopened_form_saves_without_change_witness :
  let r0 := sampleRow "p1" "2026-01-01" "2026-02-01T10:00:00+00:00" None in
  let row := withMetadata (cleanMetadata (toMetadataInput sampleForm)) r0 in
  let p2 := sampleRow "p2" "2026-01-03" "2026-02-01T10:00:01+00:00" None in
  let w := mkWorld ∅ [row; p2] in
  let res := run (schedule []) 0 w
               (saveEdit true (beginEdit (photoOf row) adminStart)) in
  isSupabaseConfigured = true
  /\ wellFormed w
  /\ In row (photos w)
  /\ editForm (beginEdit (photoOf row) adminStart)
     = PhotoFormState.mk (js "Dawn") (js "") (js "sea, sky") (js "2026-01-01")
  /\ exists st',
       outcome res = Returned st'
       /\ photos (final res) = [touch (js "2026-02-20T12:00:00+00:00") row; p2]
       /\ editingId st' = None
       /\ map Photo.id (activePhotos st') = [js "p2"; js "p1"].
Proof.
  intros r0 row p2 w res.
  destruct (reopened_form_saves_without_change (H := asciiRuntime) (schedule []) 0
              w true adminStart (js "owner") sampleForm r0
              eq_refl eq_refl eq_refl eq_refl (or_introl eq_refl) eq_refl)
    as (_ & st' & Ho & Hp & _ & Ha & _ & _ & _ & _ & Hedit).
  { split; vm_compute; reflexivity. }
  split; [reflexivity|]. split; [reflexivity|]. split; [left; reflexivity|].
  split; [vm_compute; reflexivity|].
  exists st'. split; [exact Ho|]. split; [exact Hp|]. split; [exact Hedit|].
  vm_compute in Ha. injection Ha as Ha.
  exact (f_equal (map Photo.id) (eq_sym Ha)).
Defined.
